(** * State export and import of the LocalStack assistant

    A shallow embedding of [StateManager] (tools/state-manager.ts): the
    per-service extractors and reconstructors, the two orchestrating loops
    [performStateExport] and [performStateImport], and the tool entry points
    [exportState] and [importState].  After it come the other tools of the
    server: [NetworkConfigGenerator] (tools/network-config.ts),
    [LocalStackHealthMonitor] (tools/health-monitor.ts), [DockerDetector]
    (tools/docker-detector.ts), and the handler of tool calls (index.ts).

    The emulator, the file system, the clock and the YAML codec are outside
    the repository.  They are the fields of a [Platform]; every definition
    below is parametric in it, and every request to the emulator and every
    read or write of a file is recorded in a trace, so that statements such
    as "no request was issued" can be read off the final world.  The
    millisecond clock of the health monitor is a [Clock], the Docker client
    and the directory calls of the detector are a [Host]. *)

From Stdlib Require Import String Ascii List ZArith Lia Bool DecimalString.
Import ListNotations.
Local Open Scope string_scope.
Local Open Scope Z_scope.
Set Warnings "-register-all".


(** ** JavaScript values

    Everything the source types as [any] (emulator responses, service
    states, the parsed snapshot) is a [value].  Numbers are the integers:
    the code only tests numbers for truthiness, adds counters and prints
    them.  A string is a sequence of 8-bit code units.  The fields of an
    object are kept in enumeration order. *)

Inductive value : Type :=
| VUndefined
| VNull
| VBool (b : bool)
| VNum (n : Z)
| VStr (s : string)
| VArr (items : list value)
| VObj (fields : list (string * value)).

Definition len {A} (l : list A) : Z := Z.of_nat (List.length l).
Definition strlen (s : string) : Z := Z.of_nat (String.length s).

(** Own-property lookup; a later write of the same key replaces in place. *)
Fixpoint lookup {A} (k : string) (fs : list (string * A)) : option A :=
  match fs with
  | [] => None
  | (k', v) :: rest => if String.eqb k k' then Some v else lookup k rest
  end.

Fixpoint assign {A} (k : string) (v : A) (fs : list (string * A))
  : list (string * A) :=
  match fs with
  | [] => [(k, v)]
  | (k', v') :: rest =>
      if String.eqb k k' then (k, v) :: rest else (k', v') :: assign k v rest
  end.

Definition keys {A} (fs : list (string * A)) : list string := map fst fs.

(** [ToBoolean]. *)
Definition truthy (v : value) : bool :=
  match v with
  | VUndefined | VNull => false
  | VBool b => b
  | VNum n => negb (n =? 0)
  | VStr s => negb (String.eqb s "")
  | VArr _ | VObj _ => true
  end.

Definition nullish (v : value) : bool :=
  match v with VUndefined | VNull => true | _ => false end.

(** [a || b]. *)
Definition or_else (a b : value) : value := if truthy a then a else b.

Definition string_of_Z (n : Z) : string := NilZero.string_of_int (Z.to_int n).
Definition string_of_nat (n : nat) : string := NilZero.string_of_uint (Nat.to_uint n).

Fixpoint join (sep : string) (l : list string) : string :=
  match l with
  | [] => ""
  | [s] => s
  | s :: rest => s ++ sep ++ join sep rest
  end.

(** [String(v)], as a template literal applies it. *)
Fixpoint to_string (v : value) : string :=
  match v with
  | VUndefined => "undefined"
  | VNull => "null"
  | VBool true => "true"
  | VBool false => "false"
  | VNum n => string_of_Z n
  | VStr s => s
  | VArr items =>
      join "," (map (fun e => if nullish e then "" else to_string e) items)
  | VObj _ => "[object Object]"
  end.

(** ** Errors and outcomes

    An exception is an [Error] object of some class with its message.  The
    text of a [TypeError] is the engine's; the texts below stand in for it
    and no statement depends on them. *)

Inductive exn : Type :=
| Error (message : string)
| TypeError (message : string)
| AxiosError (message : string)
| SystemError (message : string)
| YAMLParseError (message : string).

Definition message (e : exn) : string :=
  match e with
  | Error m | TypeError m | AxiosError m | SystemError m | YAMLParseError m => m
  end.

(** A computation returns, throws, or leaves the types the source declares:
    the counters of both loops are declared [number] and are fed with [+=]
    from fields typed [any].  Where such a field does not hold a number the
    model stops with [Untyped]; it does not follow the coercions of [+]. *)
Inductive outcome (A : Type) : Type :=
| Ok (a : A)
| Throw (e : exn)
| Untyped.
Arguments Ok {A} a.
Arguments Throw {A} e.
Arguments Untyped {A}.

Definition obind {A B} (o : outcome A) (f : A -> outcome B) : outcome B :=
  match o with
  | Ok a => f a
  | Throw e => Throw e
  | Untyped => Untyped
  end.

(** Property read [v.k].  Only own data properties and [length] exist in
    the model; none of the names the source reads is inherited. *)
Definition prop (v : value) (k : string) : outcome value :=
  match v with
  | VUndefined =>
      Throw (TypeError ("Cannot read properties of undefined (reading '" ++ k ++ "')"))
  | VNull =>
      Throw (TypeError ("Cannot read properties of null (reading '" ++ k ++ "')"))
  | VBool _ | VNum _ => Ok VUndefined
  | VStr s => Ok (if String.eqb k "length" then VNum (strlen s) else VUndefined)
  | VArr items => Ok (if String.eqb k "length" then VNum (len items) else VUndefined)
  | VObj fields =>
      Ok (match lookup k fields with Some x => x | None => VUndefined end)
  end.

(** Optional chaining [v?.k]. *)
Definition opt_prop (v : value) (k : string) : value :=
  match prop v k with
  | Ok x => x
  | _ => VUndefined
  end.

(** The items a [for ... of] visits. *)
Definition chars (s : string) : list value :=
  map (fun c => VStr (String c "")) (list_ascii_of_string s).

Definition iterate (v : value) : outcome (list value) :=
  match v with
  | VArr items => Ok items
  | VStr s => Ok (chars s)
  | _ => Throw (TypeError (to_string v ++ " is not iterable"))
  end.

(** [Object.entries]. *)
Fixpoint indexed (i : nat) (l : list value) : list (string * value) :=
  match l with
  | [] => []
  | x :: rest => (string_of_nat i, x) :: indexed (S i) rest
  end.

Definition entries (v : value) : outcome (list (string * value)) :=
  match v with
  | VUndefined | VNull =>
      Throw (TypeError "Cannot convert undefined or null to object")
  | VBool _ | VNum _ => Ok []
  | VStr s => Ok (indexed 0 (chars s))
  | VArr items => Ok (indexed 0 items)
  | VObj fields => Ok fields
  end.

(** [String.prototype.toLowerCase] on 8-bit code units: A-Z and the
    Latin-1 capitals.  No character outside this range lowers to a letter
    of a service name, so the dispatch below sees what the source sees. *)
Definition lower_char (c : ascii) : ascii :=
  let n := nat_of_ascii c in
  if ((65 <=? n) && (n <=? 90))%nat
     || ((192 <=? n) && (n <=? 222) && negb (n =? 215))%nat
  then ascii_of_nat (n + 32) else c.

Fixpoint toLowerCase (s : string) : string :=
  match s with
  | EmptyString => EmptyString
  | String c rest => String (lower_char c) (toLowerCase rest)
  end.

(** [s.split('/')] and [pop()] of its result. *)
Fixpoint split_slash (s : string) : list string :=
  match s with
  | EmptyString => [""]
  | String c rest =>
      if Ascii.eqb c "/" then "" :: split_slash rest
      else match split_slash rest with
           | [] => [String c ""]
           | seg :: segs => String c seg :: segs
           end
  end.

Definition pop (l : list string) : value :=
  match rev l with
  | [] => VUndefined
  | x :: _ => VStr x
  end.

(** ** The interfaces of the source

    One module per TypeScript interface or object shape, so that fields keep
    their names. *)

Module StateExportOptions.
Record t : Type := mk {
  outputPath : option string;
  services : list string;
  includeData : option bool
}.
End StateExportOptions.

Module Metadata.
Record t : Type := mk {
  localstackVersion : value;
  exportedServices : list string;
  totalResources : Z
}.
End Metadata.

Module StateExportResult.
Record t : Type := mk {
  version : string;
  timestamp : string;
  services : list (string * value);
  metadata : Metadata.t
}.

(** The object handed to the YAML codec. *)
Definition to_value (d : t) : value :=
  VObj [("version", VStr (version d));
        ("timestamp", VStr (timestamp d));
        ("services", VObj (services d));
        ("metadata",
          VObj [("localstackVersion", Metadata.localstackVersion (metadata d));
                ("exportedServices",
                  VArr (map VStr (Metadata.exportedServices (metadata d))));
                ("totalResources", VNum (Metadata.totalResources (metadata d)))])].
End StateExportResult.

Module ExportSummary.
Record t : Type := mk {
  exportPath : string;
  servicesExported : Z;
  totalResources : Z;
  fileSize : Z;
  recommendations : list string
}.
End ExportSummary.

Module ImportCounts.
Record t : Type := mk { imported : Z; skipped : Z }.
End ImportCounts.

Module ImportSummary.
Record t : Type := mk {
  version : value;
  originalTimestamp : value;
  servicesFound : list string;
  totalResources : value;
  importedResources : Z;
  skippedResources : Z;
  errors : list string
}.
End ImportSummary.

(** What a tool call answers: the object both entry points pass to
    [JSON.stringify] as the text of their single content item. *)
Inductive reply (A : Type) : Type :=
| Success (payload : A)
| Failure (error : string) (troubleshooting : list string).
Arguments Success {A} payload.
Arguments Failure {A} error troubleshooting.

(** ** The platform and the world *)

Record request : Type := {
  method : string;
  url : string;
  headers : list (string * string);
  body : value;
  timeout : option Z
}.

(** Of an axios response only [data] is read. *)
Record response : Type := { data : value }.

(** What the program does not own.  Each handler answers with an error
    message or a result and moves the environment on. *)
Class Platform : Type := {
  Env : Type;
  axios : request -> Env -> (string + response) * Env;
  readFile : string -> Env -> (string + string) * Env;
  writeFile : string -> string -> Env -> (string + unit) * Env;
  stat : string -> Env -> (string + Z) * Env;
  toISOString : Env -> string * Env;
  stringify : value -> string;
  parse : string -> string + value
}.

Inductive event : Type :=
| Requested (r : request) (succeeded : bool)
| FileRead (path : string) (succeeded : bool)
| FileWritten (path content : string) (succeeded : bool).

Definition is_request (ev : event) : bool :=
  match ev with Requested _ _ => true | _ => false end.

Definition is_write (ev : event) : bool :=
  match ev with FileWritten _ _ _ => true | _ => false end.

Section StateManager.

Context {P : Platform}.

Record world : Type := { env : Env; trace : list event }.

(** ** The monad of [async] methods: state, exceptions, [Untyped] *)

Definition M (A : Type) : Type := world -> outcome A * world.

Definition ret {A} (a : A) : M A := fun w => (Ok a, w).

Definition bind {A B} (c : M A) (f : A -> M B) : M B :=
  fun w =>
    match c w with
    | (Ok a, w') => f a w'
    | (Throw e, w') => (Throw e, w')
    | (Untyped, w') => (Untyped, w')
    end.

Definition throw {A} (e : exn) : M A := fun w => (Throw e, w).

Definition lift {A} (o : outcome A) : M A := fun w => (o, w).

(** [try { c } catch (e) { h e }]. *)
Definition try_catch {A} (c : M A) (h : exn -> M A) : M A :=
  fun w =>
    match c w with
    | (Throw e, w') => h e w'
    | r => r
    end.

Notation "x <- c ;; k" := (bind c (fun x => k))
  (at level 61, c at next level, right associativity).
Notation "c ;;; k" := (bind c (fun _ => k))
  (at level 61, right associativity).

(** A call into the platform: run the handler, log the event. *)
Definition perform {A} (h : Env -> (string + A) * Env)
    (mk_exn : string -> exn) (log : bool -> event) : M A :=
  fun w =>
    match h (env w) with
    | (inl msg, e') =>
        (Throw (mk_exn msg), {| env := e'; trace := trace w ++ [log false] |})
    | (inr a, e') =>
        (Ok a, {| env := e'; trace := trace w ++ [log true] |})
    end.

Definition axios_call (r : request) : M response :=
  perform (axios r) AxiosError (Requested r).

Definition fs_readFile (path : string) : M string :=
  perform (readFile path) SystemError (FileRead path).

Definition fs_writeFile (path content : string) : M unit :=
  perform (writeFile path content) SystemError (FileWritten path content).

Definition fs_stat_size (path : string) : M Z :=
  fun w =>
    match stat path (env w) with
    | (inl msg, e') => (Throw (SystemError msg), {| env := e'; trace := trace w |})
    | (inr n, e') => (Ok n, {| env := e'; trace := trace w |})
    end.

Definition yaml_parse (content : string) : M value :=
  match parse content with
  | inl msg => throw (YAMLParseError msg)
  | inr v => ret v
  end.

(** [new Date().toISOString()]. *)
Definition new_Date_toISOString : M string :=
  fun w =>
    let (s, e') := toISOString (env w) in
    (Ok s, {| env := e'; trace := trace w |}).

(** ** The emulator client *)

Definition LOCALSTACK_ENDPOINT : string := "http://localhost:4566".

Definition authorization : string :=
  "AWS4-HMAC-SHA256 Credential=test/20220101/us-east-1/s3/aws4_request, SignedHeaders=host;x-amz-date, Signature=test".

Definition spread {A} (base extra : list (string * A)) : list (string * A) :=
  fold_left (fun acc kv => assign (fst kv) (snd kv) acc) extra base.

Definition makeLocalStackRequest (method path : string)
    (headers : list (string * string)) (data : value) : M response :=
  axios_call {| method := method;
                url := LOCALSTACK_ENDPOINT ++ path;
                headers := spread [("Authorization", authorization)] headers;
                body := data;
                timeout := None |}.

Definition health_url : string := LOCALSTACK_ENDPOINT ++ "/_localstack/health".

Definition axios_get (url : string) (timeout : option Z) : M response :=
  axios_call {| method := "get"; url := url; headers := [];
                body := VUndefined; timeout := timeout |}.

Definition getLocalStackVersion : M value :=
  try_catch
    (health <- axios_get health_url None ;;
     version <- lift (prop (data health) "version") ;;
     ret (or_else version (VStr "unknown")))
    (fun _ => ret (VStr "unknown")).

Definition not_accessible : string :=
  "LocalStack is not accessible. Ensure container is running and healthy.".

Definition validateLocalStackConnectivity : M unit :=
  try_catch
    (axios_get health_url (Some 5000) ;;; ret tt)
    (fun _ => throw (Error not_accessible)).

(** ** Extractors *)

Fixpoint map_outcome {A B} (f : A -> outcome B) (l : list A) : outcome (list B) :=
  match l with
  | [] => Ok []
  | x :: rest =>
      obind (f x) (fun y => obind (map_outcome f rest) (fun ys => Ok (y :: ys)))
  end.

Definition s3_object (obj : value) : outcome value :=
  obind (prop obj "Key") (fun key =>
  obind (prop obj "Size") (fun size =>
  obind (prop obj "LastModified") (fun lastModified =>
  obind (prop obj "ETag") (fun etag =>
  Ok (VObj [("key", key); ("size", size);
            ("lastModified", lastModified); ("etag", etag)]))))).

Definition extractS3ObjectMetadata (listObjectsResult : value)
  : outcome (list value) :=
  obind (prop listObjectsResult "ListBucketResult") (fun result =>
  let contents := opt_prop result "Contents" in
  if negb (truthy contents) then Ok []
  else
    let objectsArray :=
      match contents with VArr items => items | _ => [contents] end in
    map_outcome s3_object objectsArray).

Definition service_state (list_key : string) (items : value) (resourceCount : value)
  : value :=
  VObj [(list_key, items); ("resourceCount", resourceCount)].

Definition s3_bucket_objects (includeData : bool) (name : value) : M (list value) :=
  if includeData then
    try_catch
      (objects <- makeLocalStackRequest "GET" ("/" ++ to_string name) [] VUndefined ;;
       lift (extractS3ObjectMetadata (data objects)))
      (fun _ => ret [])
  else ret [].

(** The body of [for (const bucket of bucketsArray)], with the two fields
    of [s3State] it updates as accumulators. *)
Fixpoint s3_buckets (includeData : bool) (bucketsArray : list value)
    (buckets : list value) (resourceCount : Z) : M (list value * Z) :=
  match bucketsArray with
  | [] => ret (buckets, resourceCount)
  | bucket :: rest =>
      name <- lift (prop bucket "Name") ;;
      creationDate <- lift (prop bucket "CreationDate") ;;
      objects <- s3_bucket_objects includeData name ;;
      let bucketInfo :=
        VObj [("name", name); ("creationDate", creationDate);
              ("objects", VArr objects)] in
      s3_buckets includeData rest (buckets ++ [bucketInfo]) (resourceCount + 1)
  end.

Definition exportS3State (includeData : bool) : M value :=
  buckets <- makeLocalStackRequest "GET" "/" [] VUndefined ;;
  let bucketList := data buckets in
  result <- lift (prop bucketList "ListAllMyBucketsResult") ;;
  let bucket := opt_prop (opt_prop result "Buckets") "Bucket" in
  if truthy bucket then
    let bucketsArray := match bucket with VArr items => items | _ => [bucket] end in
    r <- s3_buckets includeData bucketsArray [] 0 ;;
    ret (service_state "buckets" (VArr (fst r)) (VNum (snd r)))
  else ret (service_state "buckets" (VArr []) (VNum 0)).

Definition dynamodb_headers (target : string) : list (string * string) :=
  [("X-Amz-Target", "DynamoDB_20120810." ++ target);
   ("Content-Type", "application/x-amz-json-1.0")].

Definition getDynamoDBItemCount (tableName : value) : M value :=
  try_catch
    (scan <- makeLocalStackRequest "POST" "/" (dynamodb_headers "Scan")
               (VObj [("TableName", tableName); ("Select", VStr "COUNT")]) ;;
     count <- lift (prop (data scan) "Count") ;;
     ret (or_else count (VNum 0)))
    (fun _ => ret (VNum 0)).

Definition getDynamoDBTableInfo (tableName : value) (includeData : bool) : M value :=
  try_catch
    (tableDesc <- makeLocalStackRequest "POST" "/" (dynamodb_headers "DescribeTable")
                    (VObj [("TableName", tableName)]) ;;
     schema <- lift (prop (data tableDesc) "Table") ;;
     itemCount <- (if includeData then getDynamoDBItemCount tableName
                   else ret (VNum 0)) ;;
     ret (VObj [("tableName", tableName); ("schema", schema);
                ("itemCount", itemCount)]))
    (fun _ => ret (VObj [("tableName", tableName); ("schema", VNull);
                         ("itemCount", VNum 0)])).

Fixpoint dynamodb_tables (includeData : bool) (tableNames : list value)
    (tables : list value) (resourceCount : Z) : M (list value * Z) :=
  match tableNames with
  | [] => ret (tables, resourceCount)
  | tableName :: rest =>
      tableInfo <- getDynamoDBTableInfo tableName includeData ;;
      dynamodb_tables includeData rest (tables ++ [tableInfo]) (resourceCount + 1)
  end.

Definition exportDynamoDBState (includeData : bool) : M value :=
  try_catch
    (tables <- makeLocalStackRequest "POST" "/" (dynamodb_headers "ListTables")
                 (VObj []) ;;
     tableNames <- lift (prop (data tables) "TableNames") ;;
     if truthy tableNames then
       names <- lift (iterate tableNames) ;;
       r <- dynamodb_tables includeData names [] 0 ;;
       ret (service_state "tables" (VArr (fst r)) (VNum (snd r)))
     else ret (service_state "tables" (VArr []) (VNum 0)))
    (fun _ => ret (service_state "tables" (VArr []) (VNum 0))).

Definition query_action (action version : string) : value :=
  VObj [("Action", VStr action); ("Version", VStr version)].

(** The shape shared by the queue and the topic extractor: the listing is
    stored verbatim and counted by its [length]. *)
Definition export_listing (list_key : string) (query : value)
    (result_key item_key : string) : M value :=
  try_catch
    (listing <- makeLocalStackRequest "POST" "/" [] query ;;
     result <- lift (prop (data listing) result_key) ;;
     let items := opt_prop result item_key in
     ret (service_state list_key
            (or_else items (VArr []))
            (or_else (opt_prop items "length") (VNum 0))))
    (fun _ => ret (service_state list_key (VArr []) (VNum 0))).

Definition exportSQSState : M value :=
  export_listing "queues" (query_action "ListQueues" "2012-11-05")
    "ListQueuesResult" "QueueUrl".

Definition exportSNSState : M value :=
  export_listing "topics" (query_action "ListTopics" "2010-03-31")
    "ListTopicsResult" "Topics".

Definition lambda_function (fn : value) : outcome value :=
  obind (prop fn "FunctionName") (fun functionName =>
  obind (prop fn "Runtime") (fun runtime =>
  obind (prop fn "Handler") (fun handler =>
  obind (prop fn "Description") (fun description =>
  obind (prop fn "Timeout") (fun timeout =>
  obind (prop fn "MemorySize") (fun memorySize =>
  Ok (VObj [("functionName", functionName); ("runtime", runtime);
            ("handler", handler); ("description", description);
            ("timeout", timeout); ("memorySize", memorySize)]))))))).

(** [Functions?.map(...)]: undefined on a missing list, a [TypeError] on
    anything that is not an array. *)
Definition optional_map (f : value -> outcome value) (v : value) : outcome value :=
  match v with
  | VUndefined | VNull => Ok VUndefined
  | VArr items => obind (map_outcome f items) (fun l => Ok (VArr l))
  | _ => Throw (TypeError "functions.data.Functions.map is not a function")
  end.

Definition exportLambdaState : M value :=
  try_catch
    (functions <- makeLocalStackRequest "GET" "/2015-03-31/functions" [] (VObj []) ;;
     fns <- lift (prop (data functions) "Functions") ;;
     mapped <- lift (optional_map lambda_function fns) ;;
     ret (service_state "functions"
            (or_else mapped (VArr []))
            (or_else (opt_prop fns "length") (VNum 0))))
    (fun _ => ret (service_state "functions" (VArr []) (VNum 0))).

Definition exportServiceState (service : string) (includeData : bool) : M value :=
  let kind := toLowerCase service in
  if String.eqb kind "s3" then exportS3State includeData
  else if String.eqb kind "dynamodb" then exportDynamoDBState includeData
  else if String.eqb kind "sqs" then exportSQSState
  else if String.eqb kind "sns" then exportSNSState
  else if String.eqb kind "lambda" then exportLambdaState
  else ret VNull.

(** ** The export loop *)

(** [total += v] for a counter declared [number]. *)
Definition as_number (v : value) : outcome Z :=
  match v with
  | VNum n => Ok n
  | _ => Untyped
  end.

Fixpoint export_services (includeData : bool) (services : list string)
    (exported : list (string * value)) (totalResources : Z)
  : M (list (string * value) * Z) :=
  match services with
  | [] => ret (exported, totalResources)
  | service :: rest =>
      serviceState <- exportServiceState service includeData ;;
      if truthy serviceState then
        resourceCount <- lift (prop serviceState "resourceCount") ;;
        n <- lift (as_number (or_else resourceCount (VNum 0))) ;;
        export_services includeData rest
          (assign service serviceState exported) (totalResources + n)
      else export_services includeData rest exported totalResources
  end.

Definition generateExportRecommendations (stateData : StateExportResult.t)
  : list string :=
  let total := Metadata.totalResources (StateExportResult.metadata stateData) in
  (if total =? 0
   then ["No resources found - ensure LocalStack services are running and populated"]
   else [])
  ++ (if 100 <? total
      then ["Large state export - consider splitting by service for better performance"]
      else [])
  ++ ["Share this file with team members to replicate the environment";
      "Store in version control to track environment changes"].

(** [replace(/[:.]/g, '-')]. *)
Fixpoint dashed (s : string) : string :=
  match s with
  | EmptyString => EmptyString
  | String c rest =>
      String (if Ascii.eqb c ":" || Ascii.eqb c "." then "-"%char else c)
             (dashed rest)
  end.

Definition performStateExport (options : StateExportOptions.t)
  : M (string * ExportSummary.t) :=
  let services := StateExportOptions.services options in
  let includeData :=
    match StateExportOptions.includeData options with
    | Some b => b
    | None => true
    end in
  now <- new_Date_toISOString ;;
  let defaultPath := "localstack-state-" ++ dashed now ++ ".yml" in
  let exportPath :=
    match StateExportOptions.outputPath options with
    | Some p => if String.eqb p "" then defaultPath else p
    | None => defaultPath
    end in
  timestamp <- new_Date_toISOString ;;
  localstackVersion <- getLocalStackVersion ;;
  r <- export_services includeData services [] 0 ;;
  let totalResources := snd r in
  let stateData :=
    StateExportResult.mk "1.0" timestamp (fst r)
      (Metadata.mk localstackVersion services totalResources) in
  let yamlContent := stringify (StateExportResult.to_value stateData) in
  fs_writeFile exportPath yamlContent ;;;
  fileSize <- fs_stat_size exportPath ;;
  ret (exportPath,
       ExportSummary.mk exportPath (len services) totalResources fileSize
         (generateExportRecommendations stateData)).

Definition getExportTroubleshootingTips : list string :=
  ["Ensure LocalStack is running and accessible";
   "Check that specified services are enabled";
   "Verify sufficient disk space for export file";
   "Ensure write permissions for output directory"].

Definition exportState (options : StateExportOptions.t)
  : M (reply (string * ExportSummary.t)) :=
  try_catch
    (exportResult <- performStateExport options ;;
     ret (Success exportResult))
    (fun error => ret (Failure (message error) getExportTroubleshootingTips)).

(** ** Reconstructors *)

(** [try { create item; imported++ } catch { skipped++ }] over the items. *)
Fixpoint create_each (create : value -> M unit) (items : list value)
    (imported skipped : Z) : M ImportCounts.t :=
  match items with
  | [] => ret (ImportCounts.mk imported skipped)
  | item :: rest =>
      created <- try_catch (create item ;;; ret true) (fun _ => ret false) ;;
      if created : bool
      then create_each create rest (imported + 1) skipped
      else create_each create rest imported (skipped + 1)
  end.

Definition create_bucket (bucket : value) : M unit :=
  name <- lift (prop bucket "name") ;;
  makeLocalStackRequest "PUT" ("/" ++ to_string name) [] VUndefined ;;;
  ret tt.

Definition importS3State (s3State : value) : M ImportCounts.t :=
  buckets <- lift (prop s3State "buckets") ;;
  items <- lift (iterate (or_else buckets (VArr []))) ;;
  create_each create_bucket items 0 0.

(** [queueUrl.split('/').pop()]. *)
Definition queue_name (queueUrl : value) : outcome value :=
  match queueUrl with
  | VStr s => Ok (pop (split_slash s))
  | VUndefined | VNull => prop queueUrl "split"
  | _ => Throw (TypeError "queueUrl.split is not a function")
  end.

Definition create_queue (queueUrl : value) : M unit :=
  queueName <- lift (queue_name queueUrl) ;;
  makeLocalStackRequest "POST" "/" []
    (VObj [("Action", VStr "CreateQueue"); ("QueueName", queueName);
           ("Version", VStr "2012-11-05")]) ;;;
  ret tt.

Definition importSQSState (sqsState : value) : M ImportCounts.t :=
  queues <- lift (prop sqsState "queues") ;;
  items <- lift (iterate (or_else queues (VArr []))) ;;
  create_each create_queue items 0 0.

(** [{ imported: 0, skipped: state.<list>?.length || 0 }], returned at the
    declared type [number]. *)
Definition skip_all (state : value) (list_key : string) : M ImportCounts.t :=
  listed <- lift (prop state list_key) ;;
  skipped <- lift (as_number (or_else (opt_prop listed "length") (VNum 0))) ;;
  ret (ImportCounts.mk 0 skipped).

Definition importDynamoDBState (dynamoState : value) : M ImportCounts.t :=
  skip_all dynamoState "tables".

Definition importSNSState (snsState : value) : M ImportCounts.t :=
  skip_all snsState "topics".

Definition importLambdaState (lambdaState : value) : M ImportCounts.t :=
  skip_all lambdaState "functions".

Definition importServiceState (service : string) (serviceState : value)
  : M ImportCounts.t :=
  let kind := toLowerCase service in
  if String.eqb kind "s3" then importS3State serviceState
  else if String.eqb kind "dynamodb" then importDynamoDBState serviceState
  else if String.eqb kind "sqs" then importSQSState serviceState
  else if String.eqb kind "sns" then importSNSState serviceState
  else if String.eqb kind "lambda" then importLambdaState serviceState
  else ret (ImportCounts.mk 0 0).

(** ** The import loop *)

Definition add_result (s : ImportSummary.t) (r : ImportCounts.t) : ImportSummary.t :=
  ImportSummary.mk (ImportSummary.version s) (ImportSummary.originalTimestamp s)
    (ImportSummary.servicesFound s) (ImportSummary.totalResources s)
    (ImportSummary.importedResources s + ImportCounts.imported r)
    (ImportSummary.skippedResources s + ImportCounts.skipped r)
    (ImportSummary.errors s).

Definition push_error (s : ImportSummary.t) (errorMsg : string) : ImportSummary.t :=
  ImportSummary.mk (ImportSummary.version s) (ImportSummary.originalTimestamp s)
    (ImportSummary.servicesFound s) (ImportSummary.totalResources s)
    (ImportSummary.importedResources s) (ImportSummary.skippedResources s)
    (ImportSummary.errors s ++ [errorMsg]).

Fixpoint import_services (found : list (string * value))
    (importSummary : ImportSummary.t) : M ImportSummary.t :=
  match found with
  | [] => ret importSummary
  | (service, serviceState) :: rest =>
      s <- try_catch
             (result <- importServiceState service serviceState ;;
              ret (add_result importSummary result))
             (fun error =>
                ret (push_error importSummary
                       ("Failed to import " ++ service ++ ": " ++ message error))) ;;
      import_services rest s
  end.

Definition generateImportRecommendations (summary : ImportSummary.t)
    (version : value) : list string :=
  (if (0 <? len (ImportSummary.errors summary))
   then ["Some resources failed to import - check LocalStack logs for details"]
   else [])
  ++ (if 0 <? ImportSummary.skippedResources summary
      then ["Some resources were skipped - they may already exist or require manual creation"]
      else [])
  ++ (match version with
      | VStr "1.0" => []
      | _ => ["State file version mismatch - some features may not work correctly"]
      end)
  ++ ["Verify imported resources match your expectations";
      "Test application functionality after import"].

Definition performStateImport (statePath : string)
  : M (ImportSummary.t * list string) :=
  stateContent <- fs_readFile statePath ;;
  stateData <- yaml_parse stateContent ;;
  version <- lift (prop stateData "version") ;;
  originalTimestamp <- lift (prop stateData "timestamp") ;;
  services <- lift (prop stateData "services") ;;
  found <- lift (entries services) ;;
  metadata <- lift (prop stateData "metadata") ;;
  totalResources <- lift (prop metadata "totalResources") ;;
  let importSummary :=
    ImportSummary.mk version originalTimestamp (keys found) totalResources 0 0 [] in
  validateLocalStackConnectivity ;;;
  summary <- import_services found importSummary ;;
  ret (summary, generateImportRecommendations summary version).

Definition getImportTroubleshootingTips : list string :=
  ["Verify state file exists and is readable";
   "Ensure LocalStack is running and healthy";
   "Check that target services are enabled";
   "Clear existing resources if conflicts occur"].

Definition importState (statePath : string)
  : M (reply (ImportSummary.t * list string)) :=
  try_catch
    (importResult <- performStateImport statePath ;;
     ret (Success importResult))
    (fun error => ret (Failure (message error) getImportTroubleshootingTips)).

End StateManager.

(** ** A sandbox platform

    A small stand-in for the emulator and the disk, on which the model runs:
    buckets are a set of names (creating an existing one is refused), queues
    a list of URLs, files a map from path to content.  The codec prints a
    value as JSON text and reads back exactly the documents it is given. *)

Module Sandbox.

Record env : Type := mk {
  running : bool;
  buckets : list string;
  queues : list string;
  files : list (string * string)
}.

Definition quote : string := String "034"%char "".

Fixpoint print (v : value) : string :=
  match v with
  | VUndefined | VNull => "null"
  | VBool true => "true"
  | VBool false => "false"
  | VNum n => string_of_Z n
  | VStr s => quote ++ s ++ quote
  | VArr items => "[" ++ join "," (map print items) ++ "]"
  | VObj fields =>
      "{" ++ join "," (map (fun kv : string * value =>
                           let (k, x) := kv in k ++ ":" ++ print x) fields)
          ++ "}"
  end.

Definition bucket_entry (name : string) : value :=
  VObj [("Name", VStr name); ("CreationDate", VStr "2024-05-01T10:00:00.000Z")].

Definition list_buckets (e : env) : value :=
  VObj [("ListAllMyBucketsResult",
          VObj [("Buckets", VObj [("Bucket", VArr (map bucket_entry (buckets e)))])])].

Definition list_queues (e : env) : value :=
  VObj [("ListQueuesResult", VObj [("QueueUrl", VArr (map VStr (queues e)))])].

Definition base : string := LOCALSTACK_ENDPOINT ++ "/".

Definition after_base (url : string) : string :=
  substring (String.length base) (String.length url - String.length base) url.

Definition mem (s : string) (l : list string) : bool :=
  existsb (String.eqb s) l.

Definition answer (r : request) (e : env) : (string + response) * env :=
  if negb (running e) then (inl "connect ECONNREFUSED 127.0.0.1:4566", e)
  else if String.eqb (method r) "PUT" then
    let name := after_base (url r) in
    if mem name (buckets e)
    then (inl "Request failed with status code 409", e)
    else (inr {| data := VObj [] |},
          mk (running e) (buckets e ++ [name]) (queues e) (files e))
  else if String.eqb (method r) "GET" && String.eqb (url r) base
  then (inr {| data := list_buckets e |}, e)
  else if String.eqb (method r) "get"
  then (inr {| data := VObj [("version", VStr "3.0.0")] |}, e)
  else match body r with
       | VObj (("Action", VStr "ListQueues") :: _) =>
           (inr {| data := list_queues e |}, e)
       | _ => (inr {| data := VObj [] |}, e)
       end.

Definition platform (documents : list (string * value)) : Platform := {|
  Env := env;
  axios := answer;
  readFile path e :=
    match lookup path (files e) with
    | Some content => (inr content, e)
    | None => (inl ("ENOENT: no such file or directory, open '" ++ path ++ "'"), e)
    end;
  writeFile path content e :=
    (inr tt, mk (running e) (buckets e) (queues e) (assign path content (files e)));
  stat path e :=
    match lookup path (files e) with
    | Some content => (inr (strlen content), e)
    | None => (inl ("ENOENT: no such file or directory, stat '" ++ path ++ "'"), e)
    end;
  toISOString e := ("2024-05-02T08:30:00.000Z", e);
  stringify := print;
  parse content :=
    match lookup content documents with
    | Some v => inr v
    | None => inl "Unexpected token"
    end
|}.

Definition start (documents : list (string * value)) (e : env)
  : @world (platform documents) :=
  @Build_world (platform documents) e [].

End Sandbox.

(** ** Sample worlds of the sandbox *)

Module Runs.

Definition plain : Platform := Sandbox.platform [].

Definition jobs_queue : string := "http://localhost:4566/000000000000/jobs".

(** An emulator with two buckets and a queue, one that has just been
    reset, and one that is not running. *)
Definition populated : @world plain :=
  Sandbox.start [] (Sandbox.mk true ["alpha"; "beta"] [jobs_queue] []).

Definition fresh : @world plain :=
  Sandbox.start [] (Sandbox.mk true [] [] []).

Definition offline : @world plain :=
  Sandbox.start [] (Sandbox.mk false [] [] []).

Definition export_to (path : string) (services : list string)
  : StateExportOptions.t :=
  StateExportOptions.mk (Some path) services None.

Definition refused : string := "connect ECONNREFUSED 127.0.0.1:4566".

Definition exported_buckets : value :=
  Eval vm_compute in
    match fst (@exportS3State plain true populated) with
    | Ok state => state
    | _ => VNull
    end.

Definition mixed_request : StateExportOptions.t :=
  export_to "state.yml" ["sqs"; "S3"; "cloudfront"].

Definition mixed_export :=
  Eval vm_compute in @performStateExport plain mixed_request populated.

Definition mixed_result : string * ExportSummary.t :=
  Eval vm_compute in
    match fst mixed_export with
    | Ok r => r
    | _ => ("", ExportSummary.mk "" 0 0 0 [])
    end.

(** The snapshot of the buckets of [populated], as the export writes it and
    as the codec reads it back, and a reset emulator that has the file. *)
Definition bucket_export :=
  Eval vm_compute in @performStateExport plain (export_to "state.yml" ["s3"]) populated.

Definition written : string :=
  Eval vm_compute in
    match lookup "state.yml" (Sandbox.files (env (snd bucket_export))) with
    | Some content => content
    | None => ""
    end.

Definition snapshot_document : value :=
  VObj [("version", VStr "1.0");
        ("timestamp", VStr "2024-05-02T08:30:00.000Z");
        ("services", VObj [("s3", exported_buckets)]);
        ("metadata",
          VObj [("localstackVersion", VStr "3.0.0");
                ("exportedServices", VArr [VStr "s3"]);
                ("totalResources", VNum 2)])].

Definition reader : Platform := Sandbox.platform [(written, snapshot_document)].

Definition reset_with_snapshot : @world reader :=
  Sandbox.start [(written, snapshot_document)]
    (Sandbox.mk true [] [] [("state.yml", written)]).

(** A bucket state as a hand-written snapshot might hold it: one bucket
    that exists in [populated], one that does not. *)
Definition two_buckets : list value :=
  [VObj [("name", VStr "alpha")]; VObj [("name", VStr "gamma")]].

Definition three_tables : list value :=
  [VObj [("tableName", VStr "users")]; VObj [("tableName", VStr "orders")];
   VObj [("tableName", VStr "events")]].

End Runs.

(** ** Vocabulary of the statements *)

Definition known_kinds : list string := ["s3"; "dynamodb"; "sqs"; "sns"; "lambda"].

Definition known_kind (kind : string) : bool := existsb (String.eqb kind) known_kinds.

(** The field under which each kind keeps its items. *)
Definition list_keys : list string :=
  ["buckets"; "tables"; "queues"; "topics"; "functions"].

(** A state lists [items] under [key]: the field holds that array, or is
    absent and nothing is listed. *)
Definition lists (state : value) (key : string) (items : list value) : Prop :=
  prop state key = Ok (VArr items)
  \/ (prop state key = Ok VUndefined /\ items = []).

Definition succeeded (ev : event) : bool :=
  match ev with
  | Requested _ ok | FileRead _ ok | FileWritten _ _ ok => ok
  end.

(** Between two traces of one run, every call into the platform succeeded. *)
Definition every_call_succeeded (before after : list event) : Prop :=
  exists evs, after = (before ++ evs)%list /\ forallb succeeded evs = true.

(** In a state, wherever one of the item lists is present as an array the
    resource count is its length. *)
Definition count_matches_list (state : value) : Prop :=
  forall key items,
    In key list_keys ->
    prop state key = Ok (VArr items) ->
    prop state "resourceCount" = Ok (VNum (len items)).

(** What writing a bucket state to a snapshot and reading it back keeps,
    whatever the codec does to single fields: as many bucket entries, none
    of them null. *)
Definition reads_back_as (state state' : value) : Prop :=
  exists buckets buckets',
    prop state "buckets" = Ok (VArr buckets)
    /\ prop state' "buckets" = Ok (VArr buckets')
    /\ List.length buckets' = List.length buckets
    /\ Forall (fun bucket => nullish bucket = false) buckets'.

Definition count_of (state : value) : Z :=
  match or_else (opt_prop state "resourceCount") (VNum 0) with
  | VNum n => n
  | _ => 0
  end.

(** The state carries a number as its count ([resourceCount || 0]). *)
Definition counted (state : value) : Prop :=
  or_else (opt_prop state "resourceCount") (VNum 0) = VNum (count_of state).

Definition sum_counts (produced : list (string * value)) : Z :=
  fold_right (fun kv total => count_of (snd kv) + total) 0 produced.

(** Storing each produced state under its requested name, in order. *)
Definition record_all (produced acc : list (string * value))
  : list (string * value) :=
  fold_left (fun m kv => assign (fst kv) (snd kv) m) produced acc.

Definition detail_flag (options : StateExportOptions.t) : bool :=
  match StateExportOptions.includeData options with
  | Some b => b
  | None => true
  end.

(** A parsed document from which the import can read its summary. *)
Definition snapshot_shaped (stateData : value) : bool :=
  negb (nullish stateData)
  && negb (nullish (opt_prop stateData "services"))
  && negb (nullish (opt_prop stateData "metadata")).

Section Observations.

Context {P : Platform}.

(** The extractors run over the requested names, one after the other; the
    states they return that are not [null] are the states produced. *)
Inductive extracted (includeData : bool)
  : list string -> world -> list (string * value) -> world -> Prop :=
| extracted_done w : extracted includeData [] w [] w
| extracted_state service rest w state w1 produced w2 :
    exportServiceState service includeData w = (Ok state, w1) ->
    truthy state = true ->
    extracted includeData rest w1 produced w2 ->
    extracted includeData (service :: rest) w ((service, state) :: produced) w2
| extracted_nothing service rest w state w1 produced w2 :
    exportServiceState service includeData w = (Ok state, w1) ->
    truthy state = false ->
    extracted includeData rest w1 produced w2 ->
    extracted includeData (service :: rest) w produced w2.

(** The file at [path] cannot be read, or its content is not a snapshot. *)
Definition no_snapshot_at (path : string) (w : world) : Prop :=
  (exists msg e', readFile path (env w) = (inl msg, e'))
  \/ (exists content e' msg,
        readFile path (env w) = (inr content, e') /\ parse content = inl msg)
  \/ (exists content e' stateData,
        readFile path (env w) = (inr content, e')
        /\ parse content = inr stateData
        /\ snapshot_shaped stateData = false).

End Observations.


(** ** Vocabulary of the further statements *)

(** A request to the fixed local endpoint: signed with the placeholder
    header, or one of the unsigned health probes. *)
Definition local_request (ev : event) : Prop :=
  match ev with
  | Requested r _ =>
      prefix LOCALSTACK_ENDPOINT (url r) = true
      /\ (lookup "Authorization" (headers r) = Some authorization
          \/ url r = health_url)
  | _ => False
  end.

Definition s3_kind (service : string) : bool :=
  String.eqb (toLowerCase service) "s3".

Section Effects.

Context {P : Platform}.

(** Whatever [c] does and however it ends, it only appends events that
    satisfy [Q] to the trace. *)
Definition adds {A} (Q : event -> Prop) (c : M A) : Prop :=
  forall w o w',
    c w = (o, w') ->
    exists evs, trace w' = (trace w ++ evs)%list /\ Forall Q evs.

Definition never_throws {A} (c : M A) : Prop :=
  forall w e, fst (c w) <> Throw e.

(** [c] stays within the declared types, and [c] always returns. *)
Definition typed {A} (c : M A) : Prop :=
  forall w, fst (c w) <> Untyped.

Definition returns {A} (c : M A) : Prop :=
  forall w, exists a w', c w = (Ok a, w').

End Effects.

(** The buckets a listing response names: the array under [Bucket], or the
    single entry found in its place. *)
Definition listed_buckets (response_data : value) : list value :=
  let bucket :=
    opt_prop (opt_prop (opt_prop response_data "ListAllMyBucketsResult") "Buckets")
      "Bucket" in
  match bucket with
  | VArr items => items
  | _ => if truthy bucket then [bucket] else []
  end.

(** The requests the two creating reconstructors are expected to send for
    an entry of their list. *)
Definition signed (verb path : string) (payload : value) : request :=
  {| method := verb;
     url := LOCALSTACK_ENDPOINT ++ path;
     headers := [("Authorization", authorization)];
     body := payload;
     timeout := None |}.

Definition put_bucket (bucket : value) : request :=
  signed "PUT" ("/" ++ to_string (opt_prop bucket "name")) VUndefined.

Definition is_string (v : value) : bool :=
  match v with VStr _ => true | _ => false end.

Definition create_queue_named (queueUrl : value) : request :=
  signed "POST" "/"
    (VObj [("Action", VStr "CreateQueue");
           ("QueueName", match queue_name queueUrl with
                         | Ok name => name
                         | _ => VUndefined
                         end);
           ("Version", VStr "2012-11-05")]).

(** One request per attempted item, in order, each with its answer. *)
Definition calls (call : value -> request) (items : list value)
    (answers : list bool) : list event :=
  map (fun p => Requested (call (fst p)) (snd p)) (combine items answers).

Definition accepted (answers : list bool) : Z := len (filter (fun ok => ok) answers).

Definition has_slash (s : string) : bool :=
  existsb (Ascii.eqb "/") (list_ascii_of_string s).

(** The message the import loop records when a reconstructor throws. *)
Definition failed_to_import (found : list (string * value)) (msg : string) : Prop :=
  exists service detail,
    In service (keys found)
    /\ msg = "Failed to import " ++ service ++ ": " ++ detail.

(** The unsigned probes: of the connectivity check, and of the version. *)
Definition connectivity_probe : request :=
  {| method := "get"; url := health_url; headers := [];
     body := VUndefined; timeout := Some 5000 |}.

Definition version_probe : request :=
  {| method := "get"; url := health_url; headers := [];
     body := VUndefined; timeout := None |}.

Definition field_names (v : value) : option (list string) :=
  match v with
  | VObj fields => Some (keys fields)
  | _ => None
  end.


(** * The network configuration generator

    [NetworkConfigGenerator] of tools/network-config.ts.  It touches the
    platform only through the YAML codec. *)

Module NetworkConfigOptions.
Record t : Type := mk {
  containerName : string;
  services : list string;
  customNetworkName : option string;
  enablePersistence : option bool
}.
End NetworkConfigOptions.

Module NetworkConfig.
Record t : Type := mk {
  dockerCompose : string;
  environmentVariables : list (string * string);
  networkingGuide : value;
  troubleshooting : value
}.
End NetworkConfig.

Definition strings (l : list string) : value := VArr (map VStr l).

(** The object [generateDockerCompose] builds before it hands it to the
    codec.  An absent network name falls back to its default; an absent
    persistence flag is falsy. *)
Definition compose (options : NetworkConfigOptions.t) : value :=
  let containerName := NetworkConfigOptions.containerName options in
  let services := NetworkConfigOptions.services options in
  let customNetworkName :=
    match NetworkConfigOptions.customNetworkName options with
    | Some name => name
    | None => "localstack-network"
    end in
  let enablePersistence :=
    match NetworkConfigOptions.enablePersistence options with
    | Some b => b
    | None => false
    end in
  VObj [("version", VStr "3.8");
        ("services",
          VObj [(containerName,
            VObj [("container_name", VStr containerName);
                  ("image", VStr "localstack/localstack:latest");
                  ("ports", strings ["4566:4566"]);
                  ("environment",
                    strings (["SERVICES=" ++ join "," services;
                              "DEBUG=1";
                              "DOCKER_HOST=unix:///var/run/docker.sock";
                              "LOCALSTACK_HOST=localhost"]
                             ++ (if enablePersistence then ["PERSISTENCE=1"] else [])));
                  ("volumes",
                    strings (["${TMPDIR:-/tmp}/localstack:/var/lib/localstack";
                              "/var/run/docker.sock:/var/run/docker.sock"]
                             ++ (if enablePersistence
                                 then ["./localstack-data:/var/lib/localstack"]
                                 else [])));
                  ("networks", strings [customNetworkName]);
                  ("healthcheck",
                    VObj [("test",
                            strings ["CMD"; "curl"; "-f";
                                     "http://localhost:4566/_localstack/health"]);
                          ("interval", VStr "30s");
                          ("timeout", VStr "10s");
                          ("retries", VNum 5);
                          ("start_period", VStr "30s")])])]);
        ("networks",
          VObj [(customNetworkName, VObj [("driver", VStr "bridge")])])].

Definition baseVars (services : list string) : list (string * string) :=
  [("LOCALSTACK_ENDPOINT", "http://localhost:4566");
   ("AWS_DEFAULT_REGION", "us-east-1");
   ("AWS_ACCESS_KEY_ID", "test");
   ("AWS_SECRET_ACCESS_KEY", "test");
   ("SERVICES", join "," services)].

Definition serviceConfigs : list (string * list (string * string)) :=
  [("lambda", [("LAMBDA_EXECUTOR", "docker-reuse");
               ("LAMBDA_REMOVE_CONTAINERS", "true")]);
   ("s3", [("S3_SKIP_SIGNATURE_VALIDATION", "true")]);
   ("dynamodb", [("DYNAMODB_SHARE_DB", "1")]);
   ("sqs", [("SQS_ENDPOINT_STRATEGY", "domain")])].

(** [services.forEach(...)] with [Object.assign] as [spread].  A name that
    [serviceConfigs] only inherits (such as constructor) finds a function
    or the prototype there, which has no enumerable property of its own to
    copy: it changes nothing, like a name that is not found. *)
Definition generateEnvironmentVariables (services : list string)
  : list (string * string) :=
  fold_left
    (fun vars service =>
       match lookup service serviceConfigs with
       | Some config => spread vars config
       | None => vars
       end)
    services (baseVars services).

(** The variables a configuration can add, with the service that adds each. *)
Definition service_variables : list (string * (string * string)) :=
  [("LAMBDA_EXECUTOR", ("lambda", "docker-reuse"));
   ("LAMBDA_REMOVE_CONTAINERS", ("lambda", "true"));
   ("S3_SKIP_SIGNATURE_VALIDATION", ("s3", "true"));
   ("DYNAMODB_SHARE_DB", ("dynamodb", "1"));
   ("SQS_ENDPOINT_STRATEGY", ("sqs", "domain"))].

Definition guide (description endpoint note : string) : value :=
  VObj [("description", VStr description); ("endpoint", VStr endpoint);
        ("note", VStr note)].

Definition generateNetworkingGuide : value :=
  VObj [("containerToContainer",
          guide "When accessing LocalStack from other containers"
            "http://localstack:4566" "Use the container name as hostname");
        ("hostToContainer",
          guide "When accessing LocalStack from host machine"
            "http://localhost:4566" "Use localhost when running on host");
        ("cicd",
          VObj [("description", VStr "CI/CD environment configuration");
                ("tips",
                  strings ["Use docker-compose for consistent networking";
                           "Wait for health check before running tests";
                           "Use container names for inter-service communication";
                           "Set LOCALSTACK_HOST=localstack in CI environment"])]);
        ("platformSpecific",
          VObj [("windows",
                  VObj [("wsl2", VStr "Use localhost:4566, ensure Docker Desktop WSL2 integration is enabled");
                        ("dockerDesktop", VStr "Use localhost:4566, may need to disable Windows Firewall temporarily")]);
                ("macos",
                  VObj [("dockerDesktop", VStr "Use localhost:4566, works out of the box");
                        ("lima", VStr "May need to configure port forwarding")]);
                ("linux",
                  VObj [("native", VStr "Use localhost:4566 or 127.0.0.1:4566");
                        ("docker", VStr "Use docker0 interface IP for advanced setups")])])].

Definition issue (symptoms solutions : list string) : value :=
  VObj [("symptoms", strings symptoms); ("solutions", strings solutions)].

Definition generateTroubleshootingGuide : value :=
  VObj [("commonIssues",
          VObj [("connectionRefused",
                  issue ["Connection refused to localhost:4566"]
                    ["Check if LocalStack container is running: docker ps";
                     "Verify port 4566 is exposed: docker port localstack";
                     "Check for port conflicts: netstat -tulpn | grep 4566";
                     "Restart LocalStack container"]);
                ("endpointResolution",
                  issue ["Services not accessible"; "Endpoint not found"]
                    ["Verify SERVICES environment variable includes required services";
                     "Check service health: curl http://localhost:4566/_localstack/health";
                     "Ensure proper AWS SDK endpoint configuration";
                     "Verify region is set correctly (default: us-east-1)"]);
                ("dockerNetworking",
                  issue ["Container cannot reach LocalStack"; "DNS resolution fails"]
                    ["Ensure containers are on the same network";
                     "Use container name as hostname (not localhost)";
                     "Check Docker network configuration: docker network ls";
                     "Verify LOCALSTACK_HOST environment variable"]);
                ("performance",
                  issue ["Slow startup"; "Timeouts"; "High memory usage"]
                    ["Limit enabled services to only what you need";
                     "Increase container memory limits";
                     "Use LAMBDA_EXECUTOR=docker-reuse for faster Lambda execution";
                     "Enable DEBUG=0 for production-like performance"])]);
        ("diagnosticCommands",
          VObj [("containerStatus", VStr "docker ps -a | grep localstack");
                ("containerLogs", VStr "docker logs localstack");
                ("healthCheck", VStr "curl -s http://localhost:4566/_localstack/health | jq");
                ("networkInspection", VStr "docker network inspect localstack-network");
                ("portCheck", VStr "docker port localstack 4566");
                ("resourceUsage", VStr "docker stats localstack --no-stream")]);
        ("validationSteps",
          strings ["Verify Docker is running and accessible";
                   "Check LocalStack container is running and healthy";
                   "Test basic connectivity to port 4566";
                   "Validate service-specific endpoints";
                   "Confirm AWS SDK configuration";
                   "Test end-to-end application workflow"])].

Section NetworkConfigGenerator.

Context {P : Platform}.

Definition generateDockerCompose (options : NetworkConfigOptions.t) : string :=
  stringify (compose options).

(** The object [generateConfig] serialises as its answer.  It destructures
    [enablePersistence] with the default [true], and then passes the
    options on as they came. *)
Definition generateConfig (options : NetworkConfigOptions.t) : NetworkConfig.t :=
  let enablePersistence :=
    match NetworkConfigOptions.enablePersistence options with
    | Some b => b
    | None => true
    end in
  NetworkConfig.mk
    (generateDockerCompose options)
    (generateEnvironmentVariables (NetworkConfigOptions.services options))
    generateNetworkingGuide
    generateTroubleshootingGuide.

End NetworkConfigGenerator.

(** Reading a compose document back. *)
Definition at_path (v : value) (path : list string) : value :=
  fold_left opt_prop path v.

Definition string_items (v : value) : list string :=
  match v with
  | VArr items =>
      flat_map (fun item => match item with VStr s => [s] | _ => [] end) items
  | _ => []
  end.

Definition mem (s : string) (l : list string) : bool := existsb (String.eqb s) l.

(** * The health monitor (src/tools/health-monitor.ts) *)

Module ServiceStatus.
Record t : Type := mk {
  service : string;
  status : value
}.
End ServiceStatus.

Module HealthCheckResult.
Record t : Type := mk {
  overall : string;
  services : list ServiceStatus.t;
  diagnostics : list (string * value);
  recommendations : list string;
  timestamp : string
}.
End HealthCheckResult.

(** The object [checkHealth] answers with when the check itself threw. *)
Module ErrorResult.
Record t : Type := mk {
  overall : string;
  error : string;
  recommendations : list string;
  timestamp : string
}.
End ErrorResult.

(** [Date.now()]: milliseconds, read from the environment. *)
Class Clock (P : Platform) : Type := {
  clock : Env -> Z * Env
}.

(** [s.replace(/\/$/, '')]: without the [m] flag [$] is the end of the
    string, so one slash is dropped and only when it is the last
    character. *)
Fixpoint without_trailing_slash (s : string) : string :=
  match s with
  | EmptyString => EmptyString
  | String c rest =>
      match rest with
      | EmptyString => if Ascii.eqb c "/" then EmptyString else s
      | _ => String c (without_trailing_slash rest)
      end
  end.

(** [v === 's'] for a string literal. *)
Definition is_literal (s : string) (v : value) : bool :=
  match v with
  | VStr x => String.eqb x s
  | _ => false
  end.

(** The properties [{...v}] copies: none for [null], [undefined], a number
    or a boolean. *)
Definition own_entries (v : value) : list (string * value) :=
  match entries v with
  | Ok fields => fields
  | _ => []
  end.

Definition getConnectionFailureRecommendations : list string :=
  ["Verify LocalStack container is running: docker ps | grep localstack";
   "Check if port 4566 is accessible: curl -f http://localhost:4566/_localstack/health";
   "Ensure no firewall is blocking the connection";
   "Verify LocalStack endpoint URL is correct";
   "Check Docker networking configuration";
   "Review LocalStack container logs: docker logs localstack"].

Definition unavailable_advice (n : Z) : string :=
  string_of_Z n ++ " services are unavailable - check container resources".

Definition disabled_advice (n : Z) : string :=
  string_of_Z n
  ++ " services are disabled - update SERVICES environment variable if needed".

Section LocalStackHealthMonitor.

Context {P : Platform} {C : Clock P}.

Notation "x <- c ;; k" := (bind c (fun x => k))
  (at level 61, c at next level, right associativity).

Definition Date_now : M Z :=
  fun w =>
    let (t, e') := clock (env w) in
    (Ok t, {| env := e'; trace := trace w |}).

(** The array [recommendations] is shared with the caller and only ever
    pushed to; the model passes it in and returns it.  No statement of
    either [try] block can throw after a push, so a handler sees the array
    as it was when its block started. *)
Definition addPerformanceRecommendations (baseUrl : string)
    (recommendations : list string) : M (list string) :=
  try_catch
    (start <- Date_now ;;
     _ <- axios_get (baseUrl ++ "/_localstack/health") None ;;
     finish <- Date_now ;;
     let responseTime := finish - start in
     let recommendations :=
       if responseTime >? 5000
       then (recommendations
             ++ ["High response time detected - consider increasing container memory or reducing enabled services"])%list
       else recommendations in
     try_catch
       (configResponse <- axios_get (baseUrl ++ "/_localstack/config") None ;;
        executor <- lift (prop (data configResponse) "LAMBDA_EXECUTOR") ;;
        ret (if is_literal "docker-reuse" executor
             then recommendations
             else (recommendations
                   ++ ["Consider setting LAMBDA_EXECUTOR=docker-reuse for faster Lambda execution"])%list))
       (fun _ => ret recommendations))
    (fun _ =>
       ret (recommendations
            ++ ["Performance checks failed - container may be under high load"])%list).

(** [unavailableServices > services.length / 2] is a comparison of
    numbers; between integers it is [2 * unavailable > length]. *)
Definition performHealthCheck (endpoint : string) : M HealthCheckResult.t :=
  let baseUrl := without_trailing_slash endpoint in
  healthResponse <- axios_get (baseUrl ++ "/_localstack/health") (Some 5000) ;;
  let healthData := data healthResponse in
  declared <- lift (prop healthData "services") ;;
  services <- (if truthy declared
               then found <- lift (entries declared) ;;
                    ret (map (fun kv => ServiceStatus.mk (fst kv) (snd kv)) found)
               else ret []) ;;
  diagnosed <- try_catch
                 (diagResponse <- axios_get (baseUrl ++ "/_localstack/diagnose")
                                    (Some 3000) ;;
                  ret (data diagResponse, []))
                 (fun _ =>
                    ret (VObj [], ["Unable to retrieve diagnostic information"])) ;;
  let diagnostics := fst diagnosed in
  let recommendations := snd diagnosed in
  initStatus <- try_catch
                  (initResponse <- axios_get (baseUrl ++ "/_localstack/init")
                                     (Some 3000) ;;
                   ret (data initResponse))
                  (fun _ => ret (VObj [])) ;;
  let unavailableServices :=
    len (filter (fun s => is_literal "error" (ServiceStatus.status s))
           services) in
  let disabledServices :=
    len (filter (fun s => is_literal "disabled" (ServiceStatus.status s))
           services) in
  let overall :=
    if unavailableServices =? 0 then "healthy"
    else if 2 * unavailableServices >? len services then "unhealthy"
    else "degraded" in
  let recommendations :=
    if unavailableServices >? 0
    then (recommendations ++ [unavailable_advice unavailableServices])%list
    else recommendations in
  let recommendations :=
    if disabledServices >? 0
    then (recommendations ++ [disabled_advice disabledServices])%list
    else recommendations in
  recommendations <- addPerformanceRecommendations baseUrl recommendations ;;
  timestamp <- new_Date_toISOString ;;
  ret (HealthCheckResult.mk overall services
         (assign "initStatus" initStatus (own_entries diagnostics))
         recommendations timestamp).

Definition checkHealth (endpoint : string)
  : M (HealthCheckResult.t + ErrorResult.t) :=
  try_catch
    (result <- performHealthCheck endpoint ;;
     ret (inl result))
    (fun error =>
       timestamp <- new_Date_toISOString ;;
       ret (inr (ErrorResult.mk "unhealthy" (message error)
                   getConnectionFailureRecommendations timestamp))).

End LocalStackHealthMonitor.

(** ** Vocabulary of the health check *)

Definition probe (endpoint path : string) (limit : option Z) : request :=
  {| method := "get";
     url := without_trailing_slash endpoint ++ path;
     headers := [];
     body := VUndefined;
     timeout := limit |}.

Definition health_probe (endpoint : string) : request :=
  probe endpoint "/_localstack/health" (Some 5000).

Definition diagnose_probe (endpoint : string) : request :=
  probe endpoint "/_localstack/diagnose" (Some 3000).

Definition init_probe (endpoint : string) : request :=
  probe endpoint "/_localstack/init" (Some 3000).

Definition latency_probe (endpoint : string) : request :=
  probe endpoint "/_localstack/health" None.

Definition config_probe (endpoint : string) : request :=
  probe endpoint "/_localstack/config" None.

(** A GET without headers or body to a path of the emulator's own API
    below the endpoint. *)
Definition probes (endpoint : string) (ev : event) : Prop :=
  match ev with
  | Requested r _ =>
      exists path limit,
        r = probe endpoint path limit /\ prefix "/_localstack/" path = true
  | _ => False
  end.

(** The services a health document names, with the status of each. *)
Definition reported (healthData : value) : list ServiceStatus.t :=
  let declared := opt_prop healthData "services" in
  if truthy declared
  then map (fun kv => ServiceStatus.mk (fst kv) (snd kv)) (own_entries declared)
  else [].

Definition in_error (services : list ServiceStatus.t) : Z :=
  len (filter (fun s => is_literal "error" (ServiceStatus.status s)) services).

Definition ends_with_slash (s : string) : bool :=
  match get (String.length s - 1) s with
  | Some c => Ascii.eqb c "/"
  | None => false
  end.

(** * The Docker detector (src/tools/docker-detector.ts) *)

(** Of a container the client lists, the fields the detector reads. *)
Module ContainerInfo.
Record t : Type := mk {
  Id : string;
  Names : list string;
  Image : string;
  State : string;
  Status : string;
  Ports : value
}.
End ContainerInfo.

(** An entry of [readdir] with [withFileTypes]; a symbolic link is neither
    a directory nor a file. *)
Module Dirent.
Record t : Type := mk {
  name : string;
  isDirectory : bool;
  isFile : bool
}.
End Dirent.

(** The object [detectEnvironment] serialises as its answer. *)
Module Results.
Record t : Type := mk {
  dockerAvailable : bool;
  dockerComposeFound : bool;
  locilStackContainer : value;
  networkMode : string;
  suggestedConfig : list (string * value);
  issues : list string
}.
End Results.

(** What the detector does not own: the Docker client (of a network only
    the name is read), the calls of [fs] that [Platform] lacks, and
    [path.join]. *)
Class Host (P : Platform) : Type := {
  ping : Env -> (string + unit) * Env;
  listContainers : Env -> (string + list ContainerInfo.t) * Env;
  listNetworks : Env -> (string + list string) * Env;
  access : string -> Env -> (string + unit) * Env;
  readdir : string -> Env -> (string + list Dirent.t) * Env;
  join_path : string -> string -> string
}.

(** [s.includes(needle)]. *)
Fixpoint includes (s needle : string) : bool :=
  if prefix needle s then true
  else match s with
       | EmptyString => false
       | String _ rest => includes rest needle
       end.

(** [s.endsWith(suffix)]. *)
Definition endsWith (s suffix : string) : bool :=
  (String.length suffix <=? String.length s)%nat
  && String.eqb
       (substring (String.length s - String.length suffix)
          (String.length suffix) s)
       suffix.

Definition newline : string := String "010"%char "".
Definition double_quote : string := String "034"%char "".

Definition composeFiles : list string :=
  ["docker-compose.yml"; "docker-compose.yaml"; "compose.yml"; "compose.yaml"].

Definition extensions : list string :=
  [".js"; ".ts"; ".py"; ".json"; ".yml"; ".yaml"].

(** Each pattern is an alternation of three literal texts, tested without
    flags: it matches a content that includes one of them. *)
Definition servicePatterns : list (string * list string) :=
  [("s3", ["aws.s3"; "S3Client"; "@aws-sdk/client-s3"]);
   ("lambda", ["aws.lambda"; "LambdaClient"; "@aws-sdk/client-lambda"]);
   ("dynamodb", ["aws.dynamodb"; "DynamoDBClient"; "@aws-sdk/client-dynamodb"]);
   ("sqs", ["aws.sqs"; "SQSClient"; "@aws-sdk/client-sqs"]);
   ("sns", ["aws.sns"; "SNSClient"; "@aws-sdk/client-sns"]);
   ("apigateway",
     ["aws.apigateway"; "APIGatewayClient"; "@aws-sdk/client-api-gateway"]);
   ("cognito", ["aws.cognito"; "CognitoClient"; "@aws-sdk/client-cognito"]);
   ("stepfunctions", ["aws.stepfunctions"; "SFNClient"; "@aws-sdk/client-sfn"])].

Definition test (pattern : list string) (content : string) : bool :=
  existsb (includes content) pattern.

(** [Set.prototype.add], the set in insertion order. *)
Definition add (service : string) (services : list string) : list string :=
  if existsb (String.eqb service) services then services
  else (services ++ [service])%list.

(** The [forEach] over the patterns for one content. *)
Definition detect_in (content : string) (services : list string) : list string :=
  fold_left
    (fun services entry =>
       if test (snd entry) content then add (fst entry) services else services)
    servicePatterns services.

Definition generateDockerComposeTemplate
    (environmentVariables : list (string * value)) : string :=
  join newline
    ["version: '3.8'";
     "";
     "services:";
     "  localstack:";
     "    container_name: localstack";
     "    image: localstack/localstack:latest";
     "    ports:";
     "      - " ++ double_quote ++ "4566:4566" ++ double_quote;
     "    environment:";
     "      - SERVICES="
       ++ to_string (opt_prop (VObj environmentVariables) "SERVICES");
     "      - DEBUG=1";
     "      - DOCKER_HOST=unix:///var/run/docker.sock";
     "      - LOCALSTACK_HOST="
       ++ to_string (opt_prop (VObj environmentVariables) "LOCALSTACK_HOST");
     "    volumes:";
     "      - " ++ double_quote
       ++ "${TMPDIR:-/tmp}/localstack:/var/lib/localstack" ++ double_quote;
     "      - " ++ double_quote
       ++ "/var/run/docker.sock:/var/run/docker.sock" ++ double_quote;
     "    networks:";
     "      - localstack-network";
     "";
     "networks:";
     "  localstack-network:";
     "    driver: bridge"].

(** The object [suggestions]: its two first properties, and the ones added
    later. *)
Definition suggestions_object (environmentVariables added : list (string * value))
  : list (string * value) :=
  ([("recommendedSetup", VStr "docker-compose");
    ("environmentVariables", VObj environmentVariables)] ++ added)%list.

Definition is_localstack (container : ContainerInfo.t) : bool :=
  existsb (fun name => includes name "localstack") (ContainerInfo.Names container)
  || includes (ContainerInfo.Image container) "localstack".

Definition container_summary (container : ContainerInfo.t) : value :=
  VObj [("id", VStr (ContainerInfo.Id container));
        ("state", VStr (ContainerInfo.State container));
        ("status", VStr (ContainerInfo.Status container));
        ("ports", ContainerInfo.Ports container);
        ("names", strings (ContainerInfo.Names container))].

Section DockerDetector.

Context {P : Platform} {H : Host P}.

Notation "x <- c ;; k" := (bind c (fun x => k))
  (at level 61, c at next level, right associativity).
Notation "c ;;; k" := (bind c (fun _ => k))
  (at level 61, right associativity).

(** A call into the host; it leaves no event. *)
Definition call {A} (h : Env -> (string + A) * Env) (mk_exn : string -> exn)
  : M A :=
  fun w =>
    match h (env w) with
    | (inl msg, e') => (Throw (mk_exn msg), {| env := e'; trace := trace w |})
    | (inr a, e') => (Ok a, {| env := e'; trace := trace w |})
    end.

Definition docker_ping : M unit := call ping Error.
Definition docker_listContainers : M (list ContainerInfo.t) :=
  call listContainers Error.
Definition docker_listNetworks : M (list string) := call listNetworks Error.
Definition fs_access (path : string) : M unit := call (access path) SystemError.
Definition fs_readdir (path : string) : M (list Dirent.t) :=
  call (readdir path) SystemError.

(** [walk(currentDir, depth)], by the number of levels left before
    [depth > maxDepth]; the array [files] is passed in and returned.  Only
    [readdir] can throw inside the [try], before anything is pushed. *)
Fixpoint walk (levels : nat) (currentDir : string) (files : list string)
  : M (list string) :=
  match levels with
  | O => ret files
  | S deeper =>
      try_catch
        (entries <- fs_readdir currentDir ;;
         (fix each (entries : list Dirent.t) (files : list string)
            : M (list string) :=
            match entries with
            | [] => ret files
            | entry :: rest =>
                let fullPath := join_path currentDir (Dirent.name entry) in
                if Dirent.isDirectory entry
                   && negb (prefix "." (Dirent.name entry))
                   && negb (String.eqb (Dirent.name entry) "node_modules")
                then files <- walk deeper fullPath files ;; each rest files
                else if Dirent.isFile entry
                        && existsb (endsWith (Dirent.name entry)) extensions
                then each rest (files ++ [fullPath])%list
                else each rest files
            end) entries files)
        (fun _ => ret files)
  end.

(** [maxDepth = 3]: the depths 0 to 3 are read. *)
Definition findSourceFiles (dir : string) : M (list string) := walk 4 dir [].

(** The loop over the files found; a file that cannot be read is skipped. *)
Fixpoint detect_each (files : list string) (services : list string)
  : M (list string) :=
  match files with
  | [] => ret services
  | file :: rest =>
      services <- try_catch
                    (content <- fs_readFile file ;;
                     ret (detect_in content services))
                    (fun _ => ret services) ;;
      detect_each rest services
  end.

Definition detectAWSServices (projectPath : string) : M (list string) :=
  try_catch
    (files <- findSourceFiles projectPath ;;
     detect_each files [])
    (fun _ => ret ["s3"; "lambda"; "dynamodb"; "sqs"]).

(** [results] is read for [dockerComposeFound] only.  The object
    [suggestions] is kept as its [environmentVariables], which are written
    in place, and the properties added after them. *)
Definition generateSuggestions (dockerComposeFound : bool) (projectPath : string)
  : M (list (string * value)) :=
  let environmentVariables :=
    [("LOCALSTACK_HOST", VStr "localhost");
     ("EDGE_PORT", VStr "4566");
     ("SERVICES", VStr "s3,lambda,sqs,sns,dynamodb")] in
  let added : list (string * value) := [] in
  inContainer <- try_catch (fs_access "/.dockerenv" ;;; ret true)
                   (fun _ => ret false) ;;
  let environmentVariables :=
    if inContainer : bool
    then assign "LOCALSTACK_HOST" (VStr "localstack") environmentVariables
    else environmentVariables in
  let added :=
    if inContainer
    then (added
          ++ [("note",
                VStr "Detected container environment - using container networking")])%list
    else added in
  detectedServices <- detectAWSServices projectPath ;;
  let environmentVariables :=
    if len detectedServices >? 0
    then assign "SERVICES" (VStr (join "," detectedServices)) environmentVariables
    else environmentVariables in
  let added :=
    if len detectedServices >? 0
    then (added ++ [("detectedServices", strings detectedServices)])%list
    else added in
  let added :=
    if negb dockerComposeFound
    then (added
          ++ [("dockerComposeTemplate",
                VStr (generateDockerComposeTemplate environmentVariables))])%list
    else added in
  ret (suggestions_object environmentVariables added).

Definition detectNetworkMode : M string :=
  try_catch
    (networks <- docker_listNetworks ;;
     ret (if existsb (String.eqb "bridge") networks then "bridge" else "host"))
    (fun _ => ret "unknown").

(** The loop over [composeFiles], with the two fields of [results] it
    writes.  [dockerComposeFound] is set between the two awaits of the
    [try] block and stays set when the second throws, so the block is
    split there; a file that was read ends the loop. *)
Fixpoint find_compose (projectPath : string) (files : list string)
    (dockerComposeFound : bool) (suggestedConfig : list (string * value))
  : M (bool * list (string * value)) :=
  match files with
  | [] => ret (dockerComposeFound, suggestedConfig)
  | file :: rest =>
      let filePath := join_path projectPath file in
      accessed <- try_catch (fs_access filePath ;;; ret true)
                    (fun _ => ret false) ;;
      if accessed : bool then
        read <- try_catch (content <- fs_readFile filePath ;; ret (Some content))
                  (fun _ => ret None) ;;
        match read with
        | Some content =>
            ret (true,
                 if includes content "localstack"
                 then assign "existingComposeFile" (VStr file) suggestedConfig
                 else suggestedConfig)
        | None => find_compose projectPath rest true suggestedConfig
        end
      else find_compose projectPath rest dockerComposeFound suggestedConfig
  end.

Definition detectEnvironment (projectPath : string) : M Results.t :=
  dockerAvailable <- try_catch (docker_ping ;;; ret true) (fun _ => ret false) ;;
  if negb dockerAvailable
  then ret (Results.mk false false VNull "unknown" []
              ["Docker is not running or not accessible"])
  else
    composed <- find_compose projectPath composeFiles false [] ;;
    checked <- try_catch
                 (containers <- docker_listContainers ;;
                  ret (match find is_localstack containers with
                       | Some container => container_summary container
                       | None => VNull
                       end, []))
                 (fun _ => ret (VNull, ["Failed to check existing containers"])) ;;
    networkMode <- detectNetworkMode ;;
    suggestedConfig <- generateSuggestions (fst composed) projectPath ;;
    ret (Results.mk true (fst composed) (fst checked) networkMode
           suggestedConfig (snd checked)).

End DockerDetector.

(** * The tool dispatcher (src/index.ts) *)

Inductive ErrorCode : Type := MethodNotFound | InternalError.

(** The object a tool hands to [JSON.stringify] as the text of its answer. *)
Inductive tool_answer : Type :=
| Detected (results : Results.t)
| Configured (config : NetworkConfig.t)
| Checked (result : HealthCheckResult.t + ErrorResult.t)
| Exported (result : reply (string * ExportSummary.t))
| Imported (result : reply (ImportSummary.t * list string)).

(** How a tool call ends for the protocol server: with an answer, or with
    an [McpError] thrown out of the handler.  The arguments arrive as
    [any]; where an argument does not have the type the tool declares for
    it the model stops with [IllTyped]. *)
Inductive tool_outcome : Type :=
| Answered (answer : tool_answer)
| Raised (code : ErrorCode) (message : string)
| IllTyped.

(** The names the handler of ListTools announces. *)
Definition tool_names : list string :=
  ["detect_docker_environment"; "generate_network_config";
   "check_localstack_health"; "export_localstack_state";
   "import_localstack_state"].

Definition as_string (v : value) : outcome string :=
  match v with
  | VStr s => Ok s
  | _ => Untyped
  end.

Definition as_optional_string (v : value) : outcome (option string) :=
  match v with
  | VUndefined => Ok None
  | VStr s => Ok (Some s)
  | _ => Untyped
  end.

Definition as_strings (v : value) : outcome (list string) :=
  match v with
  | VArr items => map_outcome as_string items
  | _ => Untyped
  end.

Section CallTool.

Context {P : Platform} {C : Clock P} {H : Host P}.

(** Outside the model: the working directory of the process, and the
    message the SDK gives an [McpError] built from a code and a text. *)
Variable process_cwd : string.
Variable McpError_message : ErrorCode -> string -> string.

Notation "x <- c ;; k" := (bind c (fun x => k))
  (at level 61, c at next level, right associativity).

(** The [switch]: a tool's answer, or the [McpError] of the default
    branch ([inr], with the arguments of its constructor); an exception of
    a tool is a [Throw]. *)
Definition dispatch (name : string) (args : value)
  : M (tool_answer + ErrorCode * string) :=
  if String.eqb name "detect_docker_environment" then
    projectPath <- lift (as_string (or_else (opt_prop args "projectPath")
                                      (VStr process_cwd))) ;;
    results <- detectEnvironment projectPath ;;
    ret (inl (Detected results))
  else if String.eqb name "generate_network_config" then
    containerName <- lift (as_string (or_else (opt_prop args "containerName")
                                        (VStr "localstack"))) ;;
    services <- lift (as_strings (or_else (opt_prop args "services") (VArr []))) ;;
    ret (inl (Configured
                (generateConfig
                   (NetworkConfigOptions.mk containerName services None None))))
  else if String.eqb name "check_localstack_health" then
    endpoint <- lift (as_string (or_else (opt_prop args "endpoint")
                                   (VStr "http://localhost:4566"))) ;;
    result <- checkHealth endpoint ;;
    ret (inl (Checked result))
  else if String.eqb name "export_localstack_state" then
    outputPath <- lift (as_optional_string (opt_prop args "outputPath")) ;;
    services <- lift (as_strings (or_else (opt_prop args "services") (VArr []))) ;;
    result <- exportState (StateExportOptions.mk outputPath services None) ;;
    ret (inl (Exported result))
  else if String.eqb name "import_localstack_state" then
    statePath <- lift (as_string (opt_prop args "statePath")) ;;
    result <- importState statePath ;;
    ret (inl (Imported result))
  else
    ret (inr (MethodNotFound, "Unknown tool: " ++ name)).

(** The handler of CallTool: the [switch] inside [try], and the [catch]
    that wraps whatever was thrown, the [McpError] of the default branch
    included. *)
Definition CallTool (name : string) (args : value)
  : world -> tool_outcome * world :=
  fun w =>
    match dispatch name args w with
    | (Ok (inl answer), w') => (Answered answer, w')
    | (Ok (inr (code, text)), w') =>
        (Raised InternalError
           ("Tool execution failed: " ++ McpError_message code text), w')
    | (Throw error, w') =>
        (Raised InternalError ("Tool execution failed: " ++ message error), w')
    | (Untyped, w') => (IllTyped, w')
    end.

End CallTool.

(** ** A scripted platform

    A second stand-in, for the runs the sandbox cannot show: an emulator
    that answers each request from a table (a request that is not in the
    table is refused), a disk that can be read-only, and a clock that moves
    on by a fixed step each time it is read. *)

Module Scripted.

Record env : Type := mk {
  answers : list (string * (string + value));
  files : list (string * string);
  read_only : bool;
  time : Z;
  step : Z
}.

(** A request is found by its method and URL, followed by the action it
    names in its target header or in its body. *)
Definition key (r : request) : string :=
  method r ++ " " ++ url r
  ++ match lookup "X-Amz-Target" (headers r) with
     | Some target => " " ++ target
     | None =>
         match opt_prop (body r) "Action" with
         | VStr action => " " ++ action
         | _ => ""
         end
     end.

Definition answer (r : request) (e : env) : (string + response) * env :=
  match lookup (key r) (answers e) with
  | Some (inr v) => (inr {| data := v |}, e)
  | Some (inl msg) => (inl msg, e)
  | None => (inl "Request failed with status code 404", e)
  end.

Definition platform (documents : list (string * value)) : Platform := {|
  Env := env;
  axios := answer;
  readFile path e :=
    match lookup path (files e) with
    | Some content => (inr content, e)
    | None => (inl ("ENOENT: no such file or directory, open '" ++ path ++ "'"), e)
    end;
  writeFile path content e :=
    if read_only e
    then (inl ("EACCES: permission denied, open '" ++ path ++ "'"), e)
    else (inr tt,
          mk (answers e) (assign path content (files e)) (read_only e)
             (time e) (step e));
  stat path e :=
    match lookup path (files e) with
    | Some content => (inr (strlen content), e)
    | None => (inl ("ENOENT: no such file or directory, stat '" ++ path ++ "'"), e)
    end;
  toISOString e := ("2024-05-02T08:30:00.000Z", e);
  stringify := Sandbox.print;
  parse content :=
    match lookup content documents with
    | Some v => inr v
    | None => inl "Unexpected token"
    end
|}.

Definition ticking (documents : list (string * value))
  : Clock (platform documents) :=
  @Build_Clock (platform documents)
    (fun e : env =>
       (time e,
        mk (answers e) (files e) (read_only e) (time e + step e) (step e))).

(** A host without Docker and without a project to look at. *)
Definition bare (documents : list (string * value))
  : Host (platform documents) :=
  @Build_Host (platform documents)
    (fun e : env => (inl "connect ENOENT /var/run/docker.sock", e))
    (fun e : env => (inl "connect ENOENT /var/run/docker.sock", e))
    (fun e : env => (inl "connect ENOENT /var/run/docker.sock", e))
    (fun path (e : env) =>
       (inl ("ENOENT: no such file or directory, access '" ++ path ++ "'"), e))
    (fun path (e : env) =>
       (inl ("ENOENT: no such file or directory, scandir '" ++ path ++ "'"), e))
    (fun dir name => dir ++ "/" ++ name).

Definition start (documents : list (string * value)) (e : env)
  : @world (platform documents) :=
  @Build_world (platform documents) e [].

End Scripted.

(** ** A workstation

    A host for the detector: a Docker daemon that runs or not, with its
    containers and networks, and a read-only disk with directories and
    files.  No emulator answers there. *)

Module Workstation.

Record env : Type := mk {
  docker : bool;
  containers : list ContainerInfo.t;
  networks : list string;
  directories : list (string * list Dirent.t);
  files : list (string * string)
}.

Definition platform : Platform := {|
  Env := env;
  axios r e := (inl "connect ECONNREFUSED 127.0.0.1:4566", e);
  readFile path e :=
    match lookup path (files e) with
    | Some content => (inr content, e)
    | None => (inl ("ENOENT: no such file or directory, open '" ++ path ++ "'"), e)
    end;
  writeFile path content e :=
    (inl ("EROFS: read-only file system, open '" ++ path ++ "'"), e);
  stat path e :=
    match lookup path (files e) with
    | Some content => (inr (strlen content), e)
    | None => (inl ("ENOENT: no such file or directory, stat '" ++ path ++ "'"), e)
    end;
  toISOString e := ("2024-05-02T08:30:00.000Z", e);
  stringify := Sandbox.print;
  parse content := inl "Unexpected token"
|}.

Definition daemon {A} (answer : env -> A) (e : env) : (string + A) * env :=
  if docker e then (inr (answer e), e)
  else (inl "connect ENOENT /var/run/docker.sock", e).

Definition host : Host platform :=
  @Build_Host platform
    (daemon (fun _ => tt))
    (daemon containers)
    (daemon networks)
    (fun path (e : env) =>
       match lookup path (files e), lookup path (directories e) with
       | None, None =>
           (inl ("ENOENT: no such file or directory, access '" ++ path ++ "'"), e)
       | _, _ => (inr tt, e)
       end)
    (fun path (e : env) =>
       match lookup path (directories e) with
       | Some entries => (inr entries, e)
       | None =>
           (inl ("ENOENT: no such file or directory, scandir '" ++ path ++ "'"), e)
       end)
    (fun dir name => dir ++ "/" ++ name).

Definition start (e : env) : @world platform := @Build_world platform e [].

End Workstation.

(** ** Sample worlds of the scripted platform *)

Module Scenes.

Definition scripted : Platform := Scripted.platform [].

Definition clock : Clock scripted := Scripted.ticking [].

Definition host : Host scripted := Scripted.bare [].

(** An emulator that refuses everything, beside a disk that cannot be
    written. *)
Definition read_only_disk : @world scripted :=
  Scripted.start [] (Scripted.mk [] [] true 0 0).

(** Two tables that can be described and not scanned. *)
Definition with_tables : @world scripted :=
  Scripted.start []
    (Scripted.mk
       [("POST http://localhost:4566/ DynamoDB_20120810.ListTables",
         inr (VObj [("TableNames", VArr [VStr "users"; VStr "orders"])]));
        ("POST http://localhost:4566/ DynamoDB_20120810.DescribeTable",
         inr (VObj [("Table", VObj [("TableStatus", VStr "ACTIVE")])]))]
       [] false 0 0).

(** One function, listed with more than the snapshot keeps. *)
Definition with_function : @world scripted :=
  Scripted.start []
    (Scripted.mk
       [("GET http://localhost:4566/2015-03-31/functions",
         inr (VObj [("Functions",
                      VArr [VObj [("FunctionName", VStr "resize");
                                  ("Runtime", VStr "nodejs18.x");
                                  ("Handler", VStr "index.handler");
                                  ("CodeSha256", VStr "3f2a");
                                  ("Environment",
                                    VObj [("Variables",
                                            VObj [("TOKEN", VStr "secret")])])]])]))]
       [] false 0 0).

(** An emulator with three services, one of them in error and one
    disabled, whose diagnose endpoint is missing and whose clock moves on
    by two seconds at each reading. *)
Definition degraded : @world scripted :=
  Scripted.start []
    (Scripted.mk
       [("get http://localhost:4566/_localstack/health",
         inr (VObj [("services",
                      VObj [("s3", VStr "available"); ("sqs", VStr "error");
                            ("sns", VStr "disabled")]);
                    ("version", VStr "3.0.0")]));
        ("get http://localhost:4566/_localstack/init",
         inr (VObj [("completed", VObj [("BOOT", VBool true)])]));
        ("get http://localhost:4566/_localstack/config",
         inr (VObj [("LAMBDA_EXECUTOR", VStr "docker")]))]
       [] false 1000 2000).

(** A snapshot with a state the bucket reconstructor cannot iterate, and
    the summary the import starts from. *)
Definition broken_snapshot : list (string * value) :=
  [("s3", VObj [("buckets", VNum 5)]);
   ("sqs", VObj [("queues", VArr [VStr Runs.jobs_queue])])].

Definition summary_at_start : ImportSummary.t :=
  ImportSummary.mk (VStr "1.0") (VStr "2024-05-02T08:30:00.000Z")
    ["s3"; "sqs"] (VNum 6) 0 0 [].

Definition foreign_snapshot : list (string * value) :=
  [("cloudfront", VObj [("distributions", VArr [])]); ("Kinesis", VNull)].

(** The snapshot file of [Runs.reader], beside an emulator that is down. *)
Definition stopped_with_snapshot : @world Runs.reader :=
  Sandbox.start [(Runs.written, Runs.snapshot_document)]
    (Sandbox.mk false [] [] [("state.yml", Runs.written)]).

Definition gapped_buckets : list value :=
  [VObj [("name", VStr "alpha")]; VNull; VObj [("name", VStr "gamma")]].

(** Stand-ins for what the dispatcher takes from outside. *)
Definition sdk_message (code : ErrorCode) (text : string) : string :=
  "MCP error "
  ++ match code with MethodNotFound => "-32601" | InternalError => "-32603" end
  ++ ": " ++ text.

(** A project with a compose file that names localstack, sources that
    use two services, and a dependency that uses a third; beside it a
    running LocalStack container. *)
Definition project : list (string * list Dirent.t) :=
  [("/srv/app",
     [Dirent.mk "src" true false;
      Dirent.mk "node_modules" true false;
      Dirent.mk ".git" true false;
      Dirent.mk "package.json" false true;
      Dirent.mk "README.md" false true;
      Dirent.mk "docker-compose.yml" false true]);
   ("/srv/app/src",
     [Dirent.mk "upload.ts" false true; Dirent.mk "queue.py" false true]);
   ("/srv/app/node_modules", [Dirent.mk "index.js" false true]);
   ("/srv/app/.git", [Dirent.mk "config.yml" false true])].

Definition project_files : list (string * string) :=
  [("/srv/app/package.json", "{ dependencies: { @aws-sdk/client-s3: ^3.0.0 } }");
   ("/srv/app/README.md", "Uses aws.lambda and aws.sns.");
   ("/srv/app/docker-compose.yml",
     "services: { localstack: { image: localstack/localstack } }");
   ("/srv/app/src/upload.ts", "const client = new S3Client({});");
   ("/srv/app/src/queue.py", "queue = aws.sqs.Queue(url)");
   ("/srv/app/node_modules/index.js", "exports.LambdaClient = LambdaClient;");
   ("/srv/app/.git/config.yml", "DynamoDBClient")].

Definition emulator_container : ContainerInfo.t :=
  ContainerInfo.mk "4f1d2c" ["/localstack-main"] "localstack/localstack:latest"
    "running" "Up 2 hours" (VArr []).

Definition at_work : @world Workstation.platform :=
  Workstation.start
    (Workstation.mk true [emulator_container] ["bridge"; "host"; "none"]
       project project_files).

Definition without_docker : @world Workstation.platform :=
  Workstation.start (Workstation.mk false [] [] project project_files).

End Scenes.

(** ** Vocabulary of the detector *)

Definition file_read (ev : event) : Prop :=
  match ev with
  | FileRead _ _ => True
  | _ => False
  end.

Section Sources.

Context {P : Platform} {H : Host P}.

(** [source_below dir n path]: [path] names a file with one of the
    extensions, [n] names below [dir], and none of the directories on the
    way is hidden or called node_modules. *)
Inductive source_below : string -> nat -> string -> Prop :=
| source_here (dir name : string) :
    existsb (endsWith name) extensions = true ->
    source_below dir 1 (join_path dir name)
| source_deeper (dir name : string) (n : nat) (path : string) :
    prefix "." name = false ->
    name <> "node_modules" ->
    source_below (join_path dir name) n path ->
    source_below dir (S n) path.

(** [read_in_turn files w reads w']: the files were read one after the
    other, each in the world the one before it left, from [w] to [w'];
    [reads] holds for each the content it gave, or nothing when it could
    not be read. *)
Inductive read_in_turn
  : list string -> world -> list (option string) -> world -> Prop :=
| read_none (w : world) : read_in_turn [] w [] w
| read_content (file : string) (rest : list string) (w : world)
    (content : string) (e1 : Env) (reads : list (option string)) (w' : world) :
    readFile file (env w) = (inr content, e1) ->
    read_in_turn rest
      {| env := e1; trace := trace w ++ [FileRead file true] |} reads w' ->
    read_in_turn (file :: rest) w (Some content :: reads) w'
| read_refused (file : string) (rest : list string) (w : world)
    (msg : string) (e1 : Env) (reads : list (option string)) (w' : world) :
    readFile file (env w) = (inl msg, e1) ->
    read_in_turn rest
      {| env := e1; trace := trace w ++ [FileRead file false] |} reads w' ->
    read_in_turn (file :: rest) w (None :: reads) w'.

(** [compose_search projectPath files w found w']: the names of [files]
    were tried in order below [projectPath], from [w] to [w'].  A name that
    cannot be accessed is passed over; one that can be accessed makes
    [found] true, and ends the search if it can also be read. *)
Inductive compose_search (projectPath : string)
  : list string -> world -> bool -> world -> Prop :=
| search_end (w : world) : compose_search projectPath [] w false w
| search_missing (file : string) (rest : list string) (w : world)
    (msg : string) (e1 : Env) (found : bool) (w' : world) :
    access (join_path projectPath file) (env w) = (inl msg, e1) ->
    compose_search projectPath rest {| env := e1; trace := trace w |} found w' ->
    compose_search projectPath (file :: rest) w found w'
| search_read (file : string) (rest : list string) (w : world)
    (e1 : Env) (content : string) (e2 : Env) :
    access (join_path projectPath file) (env w) = (inr tt, e1) ->
    readFile (join_path projectPath file) e1 = (inr content, e2) ->
    compose_search projectPath (file :: rest) w true
      {| env := e2;
         trace := trace w ++ [FileRead (join_path projectPath file) true] |}
| search_unreadable (file : string) (rest : list string) (w : world)
    (e1 : Env) (msg : string) (e2 : Env) (found : bool) (w' : world) :
    access (join_path projectPath file) (env w) = (inr tt, e1) ->
    readFile (join_path projectPath file) e1 = (inl msg, e2) ->
    compose_search projectPath rest
      {| env := e2;
         trace := trace w ++ [FileRead (join_path projectPath file) false] |}
      found w' ->
    compose_search projectPath (file :: rest) w true w'.

End Sources.

(** ** Runs of the two import loops *)

Section Loops.

Context {P : Platform}.

(** [attempted create items w outcomes w']: the create calls of [items]
    were made one after the other, each in the world the one before it
    left, from [w] to [w']; [outcomes] says of each whether it returned
    ([true]) or threw ([false]). *)
Inductive attempted (create : value -> M unit)
  : list value -> world -> list bool -> world -> Prop :=
| attempted_none (w : world) : attempted create [] w [] w
| attempted_created (item : value) (rest : list value) (w w1 : world)
    (outcomes : list bool) (w' : world) :
    create item w = (Ok tt, w1) ->
    attempted create rest w1 outcomes w' ->
    attempted create (item :: rest) w (true :: outcomes) w'
| attempted_failed (item : value) (rest : list value) (w w1 : world) (e : exn)
    (outcomes : list bool) (w' : world) :
    create item w = (Throw e, w1) ->
    attempted create rest w1 outcomes w' ->
    attempted create (item :: rest) w (false :: outcomes) w'.

(** [reconstructed found w outcomes w']: the reconstructors of the services
    of [found] ran one after the other, each in the world the one before
    it left, from [w] to [w']; [outcomes] holds for each the counts it
    returned or the exception it threw. *)
Inductive reconstructed
  : list (string * value) -> world -> list (ImportCounts.t + exn) -> world
    -> Prop :=
| reconstructed_none (w : world) : reconstructed [] w [] w
| reconstructed_counted (service : string) (serviceState : value)
    (rest : list (string * value)) (w w1 : world) (result : ImportCounts.t)
    (outcomes : list (ImportCounts.t + exn)) (w' : world) :
    importServiceState service serviceState w = (Ok result, w1) ->
    reconstructed rest w1 outcomes w' ->
    reconstructed ((service, serviceState) :: rest) w (inl result :: outcomes) w'
| reconstructed_failed (service : string) (serviceState : value)
    (rest : list (string * value)) (w w1 : world) (e : exn)
    (outcomes : list (ImportCounts.t + exn)) (w' : world) :
    importServiceState service serviceState w = (Throw e, w1) ->
    reconstructed rest w1 outcomes w' ->
    reconstructed ((service, serviceState) :: rest) w (inr e :: outcomes) w'.

End Loops.

Definition failure_message (service : string) (e : exn) : string :=
  "Failed to import " ++ service ++ ": " ++ message e.

(** The messages of the reconstructors that threw, each with the name of
    its service, in the order of the services. *)
Fixpoint failures (found : list (string * value))
    (outcomes : list (ImportCounts.t + exn)) : list string :=
  match found, outcomes with
  | (service, _) :: rest, inr e :: others =>
      failure_message service e :: failures rest others
  | _ :: rest, inl _ :: others => failures rest others
  | _, _ => []
  end.

(** The sum of a count over the reconstructors that returned. *)
Fixpoint total_of (count : ImportCounts.t -> Z)
    (outcomes : list (ImportCounts.t + exn)) : Z :=
  match outcomes with
  | [] => 0
  | inl result :: others => count result + total_of count others
  | inr _ :: others => total_of count others
  end.

(** * Properties *)

Section Properties.

Context {P : Platform}.

Notation "x <- c ;; k" := (bind c (fun x => k))
  (at level 61, c at next level, right associativity).

(** ** Running a computation *)

Lemma bind_Ok {A B} (c : M A) (f : A -> M B) (w w2 : world) (b : B) :
  bind c f w = (Ok b, w2) ->
  exists a w1, c w = (Ok a, w1) /\ f a w1 = (Ok b, w2).
Proof.
  unfold bind. destruct (c w) as [[a | e |] w1]; intros H; try discriminate.
  now exists a, w1.
Qed.

Lemma lift_Ok {A} (o : outcome A) (w w1 : world) (a : A) :
  lift o w = (Ok a, w1) -> o = Ok a /\ w1 = w.
Proof. unfold lift. intros H. now inversion H. Qed.

Lemma ret_Ok {A} (x a : A) (w w1 : world) :
  ret x w = (Ok a, w1) -> a = x /\ w1 = w.
Proof. unfold ret. intros H. now inversion H. Qed.

Lemma try_catch_Ok {A} (c : M A) (h : exn -> M A) (w w2 : world) (a : A) :
  try_catch c h w = (Ok a, w2) ->
  c w = (Ok a, w2) \/ exists e w1, c w = (Throw e, w1) /\ h e w1 = (Ok a, w2).
Proof.
  unfold try_catch. destruct (c w) as [[a' | e |] w1]; intros H.
  - now left.
  - right. now exists e, w1.
  - discriminate.
Qed.

(** Invert one [bind] of a run that returned; a lifted pure step is
    reduced to its equation. *)
Ltac bind_inv H E :=
  let a := fresh "a" in
  let w := fresh "w" in
  apply bind_Ok in H; destruct H as (a & w & E & H);
  try (apply lift_Ok in E; destruct E as [E ->]).

Ltac ret_inv H :=
  apply ret_Ok in H; destruct H as [-> ->].

(** ** Dispatch by kind *)

Lemma lower_char_idem (c : ascii) : lower_char (lower_char c) = lower_char c.
Proof.
  destruct c as [[] [] [] [] [] [] [] []]; reflexivity.
Qed.

Lemma toLowerCase_idem (s : string) : toLowerCase (toLowerCase s) = toLowerCase s.
Proof.
  induction s as [| c s IH]; simpl; [reflexivity |].
  now rewrite lower_char_idem, IH.
Qed.

Lemma known_kind_false (kind : string) :
  known_kind kind = false ->
  String.eqb kind "s3" = false /\ String.eqb kind "dynamodb" = false /\
  String.eqb kind "sqs" = false /\ String.eqb kind "sns" = false /\
  String.eqb kind "lambda" = false.
Proof.
  unfold known_kind, known_kinds; simpl.
  repeat rewrite orb_false_iff. tauto.
Qed.

(** C10.  The extractor and the reconstructor are chosen by the lowercased
    name: a name and its lowercasing run the same handler, and a name whose
    lowercasing is none of the five kinds exports [null] and imports as
    zero imported, zero skipped. *)
Theorem dispatch_case_insensitive (service : string) :
  (forall includeData,
      exportServiceState service includeData
      = exportServiceState (toLowerCase service) includeData)
  /\ (forall serviceState,
        importServiceState service serviceState
        = importServiceState (toLowerCase service) serviceState)
  /\ (known_kind (toLowerCase service) = false ->
      (forall includeData, exportServiceState service includeData = ret VNull)
      /\ (forall serviceState,
            importServiceState service serviceState = ret (ImportCounts.mk 0 0))).
Proof.
  split; [| split].
  - intros includeData. unfold exportServiceState.
    now rewrite toLowerCase_idem.
  - intros serviceState. unfold importServiceState.
    now rewrite toLowerCase_idem.
  - intros H. apply known_kind_false in H.
    destruct H as (H1 & H2 & H3 & H4 & H5).
    split; intros; unfold exportServiceState, importServiceState;
      now rewrite H1, H2, H3, H4, H5.
Qed.

(** ** What the extractors return *)

Lemma or_else_length (items : list value) :
  or_else (opt_prop (VArr items) "length") (VNum 0) = VNum (len items).
Proof.
  unfold opt_prop, or_else; simpl.
  destruct (len items =? 0) eqn:E; simpl; [| reflexivity].
  apply Z.eqb_eq in E. now rewrite E.
Qed.

Lemma service_state_count (key : string) (items count : value) :
  In key list_keys ->
  (forall l, items = VArr l -> count = VNum (len l)) ->
  count_matches_list (service_state key items count).
Proof.
  intros Hkey Hcount key' l Hkey' Hl.
  unfold service_state in *. simpl in Hkey, Hkey'.
  destruct Hkey as [<- | [<- | [<- | [<- | [<- | []]]]]];
    destruct Hkey' as [<- | [<- | [<- | [<- | [<- | []]]]]];
    simpl in Hl |- *; try discriminate;
    inversion Hl as [Hitems]; now rewrite (Hcount l Hitems).
Qed.

Lemma service_state_counted (key : string) (l : list value) :
  In key list_keys ->
  count_matches_list (service_state key (VArr l) (VNum (len l))).
Proof.
  intros Hkey. apply service_state_count; trivial.
  intros l' E. now inversion E.
Qed.

Lemma len_app_one {A} (l : list A) (x : A) : len (l ++ [x]) = len l + 1.
Proof.
  unfold len. rewrite length_app, Nat2Z.inj_add. reflexivity.
Qed.

Lemma s3_buckets_counted (includeData : bool) (bucketsArray : list value) :
  forall buckets resourceCount w l n w',
    s3_buckets includeData bucketsArray buckets resourceCount w = (Ok (l, n), w') ->
    exists infos,
      l = (buckets ++ infos)%list
      /\ n = resourceCount + len infos
      /\ Forall (fun info => nullish info = false) infos.
Proof.
  induction bucketsArray as [| bucket rest IH];
    intros buckets resourceCount w l n w' H; simpl in H.
  - apply ret_Ok in H. destruct H as [H ->]. inversion H; subst.
    exists []. rewrite app_nil_r. unfold len; simpl.
    repeat split; [lia | constructor].
  - bind_inv H Ename. bind_inv H Edate. bind_inv H Eobjects.
    apply IH in H. destruct H as (infos & -> & -> & Hall).
    eexists (_ :: infos). rewrite <- app_assoc. simpl.
    split; [reflexivity |]. split.
    + unfold len; simpl length. rewrite Nat2Z.inj_succ. lia.
    + constructor; [reflexivity | exact Hall].
Qed.

Lemma exportS3State_shape (includeData : bool) (w w' : world) (state : value) :
  exportS3State includeData w = (Ok state, w') ->
  exists infos,
    state = service_state "buckets" (VArr infos) (VNum (len infos))
    /\ Forall (fun info => nullish info = false) infos.
Proof.
  unfold exportS3State. intros H.
  bind_inv H Elist. bind_inv H Eresult.
  destruct (truthy _).
  - bind_inv H Eloop. ret_inv H.
    destruct a1 as [l n]. apply s3_buckets_counted in Eloop.
    destruct Eloop as (infos & -> & -> & Hall).
    exists infos. simpl. now split.
  - ret_inv H. exists []. split; [reflexivity | constructor].
Qed.

Lemma dynamodb_tables_counted (includeData : bool) (tableNames : list value) :
  forall tables resourceCount w l n w',
    dynamodb_tables includeData tableNames tables resourceCount w = (Ok (l, n), w') ->
    n - len l = resourceCount - len tables.
Proof.
  induction tableNames as [| tableName rest IH];
    intros tables resourceCount w l n w' H; simpl in H.
  - apply ret_Ok in H. destruct H as [H ->]. now inversion H.
  - bind_inv H Einfo. apply IH in H. rewrite len_app_one in H. lia.
Qed.

Lemma exportDynamoDBState_shape (includeData : bool) (w w' : world) (state : value) :
  exportDynamoDBState includeData w = (Ok state, w') ->
  exists infos, state = service_state "tables" (VArr infos) (VNum (len infos)).
Proof.
  unfold exportDynamoDBState. intros H.
  apply try_catch_Ok in H. destruct H as [H | (e & w1 & _ & H)].
  - bind_inv H Elist. bind_inv H Enames.
    destruct (truthy a0).
    + bind_inv H Eiter. bind_inv H Eloop. ret_inv H.
      destruct a2 as [l n]. apply dynamodb_tables_counted in Eloop.
      exists l. simpl. replace n with (len l); [reflexivity |].
      unfold len in *; simpl in Eloop. lia.
    + ret_inv H. now exists [].
  - ret_inv H. now exists [].
Qed.

Lemma export_listing_counted (list_key : string) (query : value)
    (result_key item_key : string) (w w' : world) (state : value) :
  In list_key list_keys ->
  export_listing list_key query result_key item_key w = (Ok state, w') ->
  nullish state = false /\ count_matches_list state.
Proof.
  intros Hkey H. unfold export_listing in H.
  apply try_catch_Ok in H. destruct H as [H | (e & w1 & _ & H)].
  - bind_inv H Elist. bind_inv H Eresult. ret_inv H.
    split; [reflexivity |].
    apply service_state_count; trivial.
    intros l Hl.
    destruct (opt_prop a0 item_key) as [| | [] | n | s | l' | fs];
      unfold or_else in Hl; simpl in Hl; try discriminate;
      try (inversion Hl; subst; reflexivity).
    + destruct (n =? 0); simpl in Hl; [now inversion Hl | discriminate].
    + destruct (String.eqb s "") eqn:Es; simpl in Hl; [| discriminate].
      apply String.eqb_eq in Es. subst s. now inversion Hl.
    + inversion Hl; subst. apply or_else_length.
  - ret_inv H. split; [reflexivity |]. now apply service_state_counted.
Qed.

Lemma map_outcome_length {A B} (f : A -> outcome B) (l : list A) (l' : list B) :
  map_outcome f l = Ok l' -> List.length l' = List.length l.
Proof.
  revert l'. induction l as [| x rest IH]; intros l' H; simpl in H.
  - now inversion H.
  - destruct (f x) as [y | e |]; simpl in H; try discriminate.
    destruct (map_outcome f rest) as [ys | e |]; simpl in H; try discriminate.
    inversion H; subst. simpl. now rewrite (IH ys).
Qed.

Lemma exportLambdaState_shape (w w' : world) (state : value) :
  exportLambdaState w = (Ok state, w') ->
  exists infos, state = service_state "functions" (VArr infos) (VNum (len infos)).
Proof.
  unfold exportLambdaState. intros H.
  apply try_catch_Ok in H. destruct H as [H | (e & w1 & _ & H)].
  - bind_inv H Elist. bind_inv H Efns. bind_inv H Emap. ret_inv H.
    destruct a0 as [| | b | n | s | l | fs]; simpl in Emap; try discriminate.
    + inversion Emap; subst. now exists [].
    + inversion Emap; subst. now exists [].
    + destruct (map_outcome lambda_function l) as [l' | e |] eqn:Em;
        simpl in Emap; try discriminate.
      inversion Emap; subst. exists l'.
      rewrite or_else_length. unfold or_else; simpl.
      unfold len. now rewrite (map_outcome_length _ _ _ Em).
  - ret_inv H. now exists [].
Qed.

Lemma exportServiceState_cases (service : string) (includeData : bool)
    (w w' : world) (state : value) :
  exportServiceState service includeData w = (Ok state, w') ->
  (known_kind (toLowerCase service) = true /\ nullish state = false
   /\ count_matches_list state)
  \/ (known_kind (toLowerCase service) = false /\ state = VNull /\ w' = w).
Proof.
  unfold exportServiceState, known_kind, known_kinds. simpl.
  destruct (String.eqb (toLowerCase service) "s3").
  { intros H. left. apply exportS3State_shape in H.
    destruct H as (infos & -> & _).
    repeat split. apply service_state_counted. simpl; tauto. }
  destruct (String.eqb (toLowerCase service) "dynamodb").
  { intros H. left. apply exportDynamoDBState_shape in H.
    destruct H as (infos & ->).
    repeat split. apply service_state_counted. simpl; tauto. }
  destruct (String.eqb (toLowerCase service) "sqs").
  { intros H. left. split; [reflexivity |].
    eapply export_listing_counted; [| exact H]. simpl; tauto. }
  destruct (String.eqb (toLowerCase service) "sns").
  { intros H. left. split; [reflexivity |].
    eapply export_listing_counted; [| exact H]. simpl; tauto. }
  destruct (String.eqb (toLowerCase service) "lambda").
  { intros H. left. apply exportLambdaState_shape in H.
    destruct H as (infos & ->).
    repeat split. apply service_state_counted. simpl; tauto. }
  intros H. right. ret_inv H. now repeat split.
Qed.

Lemma listing_failure_propagates_in_s3 (includeData : bool) (w w1 : world) (e : exn) :
  makeLocalStackRequest "GET" "/" [] VUndefined w = (Throw e, w1) ->
  exportS3State includeData w = (Throw e, w1).
Proof.
  intros H. unfold exportS3State, bind. now rewrite H.
Qed.

Lemma listing_failure_is_empty (list_key : string) (query : value)
    (result_key item_key : string) (w w1 : world) (e : exn) :
  makeLocalStackRequest "POST" "/" [] query w = (Throw e, w1) ->
  export_listing list_key query result_key item_key w
  = (Ok (service_state list_key (VArr []) (VNum 0)), w1).
Proof.
  intros H. unfold export_listing, try_catch, bind. now rewrite H.
Qed.

Lemma listing_failure_is_empty_in_dynamodb (includeData : bool) (w w1 : world) (e : exn) :
  makeLocalStackRequest "POST" "/" (dynamodb_headers "ListTables") (VObj []) w
  = (Throw e, w1) ->
  exportDynamoDBState includeData w
  = (Ok (service_state "tables" (VArr []) (VNum 0)), w1).
Proof.
  intros H. unfold exportDynamoDBState, try_catch, bind. now rewrite H.
Qed.

Lemma listing_failure_is_empty_in_lambda (w w1 : world) (e : exn) :
  makeLocalStackRequest "GET" "/2015-03-31/functions" [] (VObj []) w = (Throw e, w1) ->
  exportLambdaState w = (Ok (service_state "functions" (VArr []) (VNum 0)), w1).
Proof.
  intros H. unfold exportLambdaState, try_catch, bind. now rewrite H.
Qed.

(** ** The export loop and its summary *)

Lemma as_number_Ok (v : value) (n : Z) : as_number v = Ok n -> v = VNum n.
Proof. destruct v; simpl; intros H; now inversion H. Qed.

Lemma keys_assign (k k' : string) (v : value) (m : list (string * value)) :
  In k' (keys (assign k v m)) -> k' = k \/ In k' (keys m).
Proof.
  induction m as [| [k0 v0] m IH]; simpl.
  - intros [<- | []]. now left.
  - destruct (String.eqb k k0) eqn:E; simpl.
    + apply String.eqb_eq in E. subst k0. tauto.
    + intros [<- | H]; [tauto |]. destruct (IH H); tauto.
Qed.

Lemma keys_record_all (produced : list (string * value)) :
  forall acc k,
    In k (keys (record_all produced acc)) ->
    In k (keys produced) \/ In k (keys acc).
Proof.
  induction produced as [| [k0 v0] rest IH]; intros acc k H; simpl in H.
  - now right.
  - apply IH in H. destruct H as [H | H]; [left; now right |].
    apply keys_assign in H. destruct H as [-> | H]; [left; now left | now right].
Qed.

Lemma assign_fresh (k : string) (v : value) (m : list (string * value)) :
  ~ In k (keys m) -> assign k v m = (m ++ [(k, v)])%list.
Proof.
  induction m as [| [k0 v0] m IH]; simpl; intros H; [reflexivity |].
  destruct (String.eqb k k0) eqn:E.
  - apply String.eqb_eq in E. subst k0. exfalso. apply H. now left.
  - rewrite IH; [reflexivity |]. intros Hin. apply H. now right.
Qed.

Lemma record_all_distinct (produced : list (string * value)) :
  NoDup (keys produced) ->
  forall acc,
    (forall k, In k (keys produced) -> ~ In k (keys acc)) ->
    record_all produced acc = (acc ++ produced)%list.
Proof.
  induction produced as [| [k v] rest IH]; intros Hnd acc Hfresh; simpl.
  - now rewrite app_nil_r.
  - simpl in Hnd. inversion Hnd as [| ? ? Hk Hrest]; subst.
    rewrite assign_fresh by (apply Hfresh; now left).
    rewrite IH; trivial.
    + now rewrite <- app_assoc.
    + intros k' Hin Hin'. unfold keys in Hin'. rewrite map_app in Hin'.
      apply in_app_or in Hin'. destruct Hin' as [Hin' | [<- | []]].
      * apply (Hfresh k'); [now right | exact Hin'].
      * now apply Hk.
Qed.

Lemma in_assign (k : string) (v : value) (m : list (string * value))
    (kv : string * value) :
  In kv (assign k v m) -> kv = (k, v) \/ In kv m.
Proof.
  induction m as [| [k0 v0] m IH]; simpl.
  - intros [<- | []]. now left.
  - destruct (String.eqb k k0); simpl.
    + intros [<- | H]; tauto.
    + intros [<- | H]; [tauto |]. destruct (IH H); tauto.
Qed.

Lemma in_record_all (produced : list (string * value)) :
  forall acc kv,
    In kv (record_all produced acc) -> In kv produced \/ In kv acc.
Proof.
  induction produced as [| [k0 v0] rest IH]; intros acc kv H; simpl in H.
  - now right.
  - apply IH in H. destruct H as [H | H]; [left; now right |].
    apply in_assign in H. destruct H as [-> | H]; [left; now left | now right].
Qed.

(** What the loop leaves behind, read off a run that returned. *)
Lemma export_services_extracted (includeData : bool) (services : list string) :
  forall exported totalResources w exported' totalResources' w',
    export_services includeData services exported totalResources w
    = (Ok (exported', totalResources'), w') ->
    exists produced,
      extracted includeData services w produced w'
      /\ exported' = record_all produced exported
      /\ totalResources' = totalResources + sum_counts produced
      /\ Forall (fun kv => known_kind (toLowerCase (fst kv)) = true
                          /\ In (fst kv) services) produced
      /\ Forall (fun kv => counted (snd kv) /\ count_matches_list (snd kv)) produced
      /\ (NoDup services -> NoDup (keys produced)).
Proof.
  induction services as [| service rest IH];
    intros exported total w exported' total' w' H; simpl in H.
  - apply ret_Ok in H. destruct H as [H ->]. inversion H; subst.
    exists []. simpl. repeat split; try constructor. lia.
  - bind_inv H Estate. destruct (truthy a) eqn:Et.
    + bind_inv H Ecount. bind_inv H Enum.
      apply as_number_Ok in Enum.
      apply IH in H.
      destruct H as (produced & Hrun & -> & -> & Hall & Hcounted & Hnd).
      assert (Hcase := exportServiceState_cases _ _ _ _ _ Estate).
      destruct Hcase as [(Hk & _ & Hm) | (_ & -> & _)]; [| discriminate].
      exists ((service, a) :: produced). repeat split.
      * now apply extracted_state with (w1 := w0).
      * simpl. unfold count_of, opt_prop. rewrite Ecount, Enum. lia.
      * constructor.
        -- simpl. split; [exact Hk | now left].
        -- eapply Forall_impl; [| exact Hall].
           intros kv [Hk' Hin]. split; [exact Hk' | now right].
      * constructor; [| exact Hcounted].
        simpl. split; [| exact Hm].
        unfold counted, count_of, opt_prop. now rewrite Ecount, Enum.
      * intros Hs. inversion Hs as [| ? ? Hfresh Hrest]; subst. simpl.
        constructor; [| now apply Hnd].
        intros Hin. apply Hfresh. unfold keys in Hin.
        apply in_map_iff in Hin. destruct Hin as (kv & <- & Hkv).
        rewrite Forall_forall in Hall. now apply Hall.
    + apply IH in H.
      destruct H as (produced & Hrun & -> & -> & Hall & Hcounted & Hnd).
      exists produced. repeat split; trivial.
      * now apply extracted_nothing with (state := a) (w1 := w0).
      * eapply Forall_impl; [| exact Hall].
        intros kv [Hk Hin]. split; [exact Hk | now right].
      * intros Hs. inversion Hs; subst. now apply Hnd.
Qed.

Lemma perform_Ok {A} (h : Env -> (string + A) * Env) (mk_exn : string -> exn)
    (log : bool -> event) (w w1 : world) (a : A) :
  perform h mk_exn log w = (Ok a, w1) ->
  trace w1 = (trace w ++ [log true])%list.
Proof.
  unfold perform. destruct (h (env w)) as [[msg | x] e']; intros H;
    inversion H; reflexivity.
Qed.

Lemma fs_stat_size_trace (path : string) (w w1 : world) (o : outcome Z) :
  fs_stat_size path w = (o, w1) -> trace w1 = trace w.
Proof.
  unfold fs_stat_size. destruct (stat path (env w)) as [[msg | n] e']; intros H;
    inversion H; reflexivity.
Qed.

(** An export that returned has run the extractors over the requested
    names, written the snapshot it built from what they produced as the last
    thing it did, and summarised it. *)
Lemma performStateExport_returned (options : StateExportOptions.t)
    (w w' : world) (path : string) (summary : ExportSummary.t) :
  performStateExport options w = (Ok (path, summary), w') ->
  exists (stateData : StateExportResult.t) (produced : list (string * value))
         (w1 w2 : world),
    extracted (detail_flag options) (StateExportOptions.services options)
      w1 produced w2
    /\ trace w'
       = (trace w2
          ++ [FileWritten path (stringify (StateExportResult.to_value stateData)) true])%list
    /\ StateExportResult.services stateData = record_all produced []
    /\ Metadata.totalResources (StateExportResult.metadata stateData)
       = sum_counts produced
    /\ ExportSummary.totalResources summary = sum_counts produced
    /\ ExportSummary.servicesExported summary
       = len (StateExportOptions.services options)
    /\ Forall (fun kv => known_kind (toLowerCase (fst kv)) = true
                        /\ In (fst kv) (StateExportOptions.services options))
         produced
    /\ Forall (fun kv => counted (snd kv) /\ count_matches_list (snd kv)) produced
    /\ (NoDup (StateExportOptions.services options) -> NoDup (keys produced)).
Proof.
  unfold performStateExport. intros H.
  bind_inv H Enow. bind_inv H Etimestamp. bind_inv H Eversion.
  bind_inv H Eloop. bind_inv H Ewrite. bind_inv H Estat.
  apply ret_Ok in H. destruct H as [H ->]. inversion H; subst; clear H.
  destruct a2 as [exported total]. simpl.
  apply export_services_extracted in Eloop.
  destruct Eloop as (produced & Hrun & -> & -> & Hall & Hcounted & Hnd).
  apply perform_Ok in Ewrite. apply fs_stat_size_trace in Estat.
  eexists (StateExportResult.mk _ _ _ (Metadata.mk _ _ _)), produced, w2, w3.
  simpl. repeat split; trivial.
  rewrite Estat, Ewrite. reflexivity.
Qed.

(** C3.  In the summary of an export the total is the sum of the counts of
    the states the extractors produced, and so is the total in the written
    snapshot.  Only known kinds produce a state, so a name without an
    extractor adds nothing and is no key of the snapshot's services; when
    the requested names are pairwise distinct, the services of the snapshot
    are exactly the produced states. *)
Theorem total_is_sum_of_produced_counts (options : StateExportOptions.t)
    (w w' : world) (path : string) (summary : ExportSummary.t) :
  performStateExport options w = (Ok (path, summary), w') ->
  exists (stateData : StateExportResult.t) (produced : list (string * value))
         (w1 w2 : world),
    extracted (detail_flag options) (StateExportOptions.services options)
      w1 produced w2
    /\ trace w'
       = (trace w2
          ++ [FileWritten path (stringify (StateExportResult.to_value stateData)) true])%list
    /\ StateExportResult.services stateData = record_all produced []
    /\ Forall (fun kv => known_kind (toLowerCase (fst kv)) = true
                        /\ counted (snd kv)) produced
    /\ ExportSummary.totalResources summary = sum_counts produced
    /\ Metadata.totalResources (StateExportResult.metadata stateData)
       = sum_counts produced
    /\ (forall service,
          known_kind (toLowerCase service) = false ->
          ~ In service (keys (StateExportResult.services stateData)))
    /\ (NoDup (StateExportOptions.services options) ->
        StateExportResult.services stateData = produced).
Proof.
  intros H. apply performStateExport_returned in H.
  destruct H as (stateData & produced & w1 & w2
                 & Hrun & Hw & Hs & Hm & Ht & _ & Hall & Hcounted & Hnd).
  assert (Hknown : forall kv, In kv produced ->
                              known_kind (toLowerCase (fst kv)) = true).
  { rewrite Forall_forall in Hall. intros kv Hkv. now apply Hall. }
  exists stateData, produced, w1, w2. repeat split; trivial.
  - rewrite Forall_forall in *. intros kv Hkv. split; [auto |].
    now apply Hcounted.
  - intros service Hunknown Hin. rewrite Hs in Hin.
    apply keys_record_all in Hin. destruct Hin as [Hin | []].
    unfold keys in Hin. apply in_map_iff in Hin. destruct Hin as (kv & <- & Hkv).
    rewrite (Hknown kv Hkv) in Hunknown. discriminate.
  - intros Hd. rewrite Hs. now apply record_all_distinct; [apply Hnd |].
Qed.

(** C5.  Whatever an extractor returns, an item list it holds has as many
    entries as its [resourceCount] says; a count of 2 beside an empty bucket
    list is not a possible result.  The same holds of every service state
    in a snapshot that an export writes. *)
Theorem exported_count_is_list_length :
  (forall service includeData w w' state,
      exportServiceState service includeData w = (Ok state, w') ->
      count_matches_list state
      /\ ~ (prop state "buckets" = Ok (VArr [])
            /\ prop state "resourceCount" = Ok (VNum 2)))
  /\ (forall options w w' path summary,
        performStateExport options w = (Ok (path, summary), w') ->
        exists stateData,
          In (FileWritten path (stringify (StateExportResult.to_value stateData)) true)
             (trace w')
          /\ Forall (fun kv => count_matches_list (snd kv))
               (StateExportResult.services stateData)).
Proof.
  split.
  - intros service includeData w w' state H.
    assert (Hc : count_matches_list state).
    { apply exportServiceState_cases in H.
      destruct H as [(_ & _ & Hc) | (_ & -> & _)]; [exact Hc |].
      intros key items _ Hl. discriminate. }
    split; [exact Hc |].
    intros [Hl Hn]. rewrite (Hc "buckets" [] (or_introl eq_refl) Hl) in Hn.
    discriminate.
  - intros options w w' path summary H.
    apply performStateExport_returned in H.
    destruct H as (stateData & produced & w1 & w2
                   & _ & Hw & Hs & _ & _ & _ & _ & Hcounted & _).
    exists stateData. split.
    + rewrite Hw. apply in_or_app. right. now left.
    + rewrite Hs, Forall_forall. intros kv Hkv.
      apply in_record_all in Hkv. destruct Hkv as [Hkv | []].
      rewrite Forall_forall in Hcounted. now apply Hcounted.
Qed.

(** Whether or not the emulator answers, the version request returns. *)
Lemma getLocalStackVersion_returns (w : world) :
  exists version w', getLocalStackVersion w = (Ok version, w').
Proof.
  unfold getLocalStackVersion, try_catch, bind, lift, ret, axios_get,
    axios_call, perform.
  destruct (axios _ (env w)) as [[msg | health] e']; [now eexists; eexists |].
  destruct (prop (data health) "version") as [version | e |] eqn:E.
  - now eexists; eexists.
  - now eexists; eexists.
  - destruct (data health); discriminate E.
Qed.

(** The connectivity check always leaves its request in the trace. *)
Lemma validateLocalStackConnectivity_requests (w w' : world) (o : outcome unit) :
  validateLocalStackConnectivity w = (o, w') ->
  exists r ok, trace w' = (trace w ++ [Requested r ok])%list.
Proof.
  unfold validateLocalStackConnectivity, try_catch, bind, ret, throw, axios_get,
    axios_call, perform.
  destruct (axios _ (env w)) as [[msg | health] e']; intros H;
    inversion H; eexists; eexists; reflexivity.
Qed.

(** ** What the reconstructors return *)

Lemma skip_all_lists (state : value) (key : string) (items : list value) (w : world) :
  lists state key items ->
  skip_all state key w = (Ok (ImportCounts.mk 0 (len items)), w).
Proof.
  intros [H | [H ->]]; unfold skip_all, bind, lift; rewrite H.
  - now rewrite or_else_length.
  - reflexivity.
Qed.

(** C6.  The table, topic and function reconstructors report nothing as
    imported and every listed resource as skipped, and leave the world as
    it was: no request is issued. *)
Theorem unfinished_reconstructors_skip_all
    (state : value) (items : list value) (w : world) :
  (lists state "tables" items ->
   importDynamoDBState state w = (Ok (ImportCounts.mk 0 (len items)), w))
  /\ (lists state "topics" items ->
      importSNSState state w = (Ok (ImportCounts.mk 0 (len items)), w))
  /\ (lists state "functions" items ->
      importLambdaState state w = (Ok (ImportCounts.mk 0 (len items)), w)).
Proof.
  repeat split; intros H; now apply skip_all_lists.
Qed.

Lemma create_each_skip (create : value -> M unit) (item : value)
    (rest : list value) (imported skipped : Z) (w w1 : world) (e : exn) :
  create item w = (Throw e, w1) ->
  create_each create (item :: rest) imported skipped w
  = create_each create rest imported (skipped + 1) w1.
Proof.
  intros H. simpl. unfold bind, try_catch. now rewrite H.
Qed.

Lemma create_each_total (create : value -> M unit) :
  (forall item w, fst (create item w) <> Untyped) ->
  forall items imported skipped w,
  exists r w',
    create_each create items imported skipped w = (Ok r, w')
    /\ ImportCounts.imported r + ImportCounts.skipped r
       = imported + skipped + len items
    /\ imported <= ImportCounts.imported r
    /\ skipped <= ImportCounts.skipped r.
Proof.
  intros Htyped items.
  induction items as [| item rest IH]; intros imported skipped w.
  - exists (ImportCounts.mk imported skipped), w. simpl.
    unfold len; simpl. repeat split; lia.
  - simpl. unfold bind, try_catch, ret.
    specialize (Htyped item w).
    destruct (create item w) as [[[] | e |] w1]; simpl in Htyped.
    + destruct (IH (imported + 1) skipped w1) as (r & w' & E & Hsum & Hi & Hs).
      exists r, w'. rewrite E. unfold len in *; simpl length.
      rewrite Nat2Z.inj_succ. repeat split; lia.
    + destruct (IH imported (skipped + 1) w1) as (r & w' & E & Hsum & Hi & Hs).
      exists r, w'. rewrite E. unfold len in *; simpl length.
      rewrite Nat2Z.inj_succ. repeat split; lia.
    + contradiction.
Qed.

Lemma axios_call_typed (r : request) (w : world) :
  fst (axios_call r w) <> Untyped.
Proof.
  unfold axios_call, perform.
  destruct (axios r (env w)) as [[msg | resp] e']; discriminate.
Qed.

Lemma prop_typed (v : value) (k : string) : prop v k <> Untyped.
Proof. destruct v; discriminate. Qed.

Lemma create_bucket_typed (bucket : value) (w : world) :
  fst (create_bucket bucket w) <> Untyped.
Proof.
  unfold create_bucket, bind, lift, makeLocalStackRequest.
  pose proof (prop_typed bucket "name") as Hp.
  destruct (prop bucket "name") as [name | e |]; [| discriminate | contradiction].
  match goal with |- context [axios_call ?r w] =>
    pose proof (axios_call_typed r w) as Ha; destruct (axios_call r w) as [[resp | e |] w1]
  end; simpl in *; try discriminate. contradiction.
Qed.

Lemma create_queue_typed (queueUrl : value) (w : world) :
  fst (create_queue queueUrl w) <> Untyped.
Proof.
  unfold create_queue, bind, lift, makeLocalStackRequest.
  assert (Hq : queue_name queueUrl <> Untyped) by (destruct queueUrl; discriminate).
  destruct (queue_name queueUrl) as [name | e |]; [| discriminate | contradiction].
  match goal with |- context [axios_call ?r w] =>
    pose proof (axios_call_typed r w) as Ha; destruct (axios_call r w) as [[resp | e |] w1]
  end; simpl in *; try discriminate. contradiction.
Qed.

Lemma lists_iterate (state : value) (key : string) (items : list value) :
  lists state key items ->
  exists listed,
    prop state key = Ok listed /\ iterate (or_else listed (VArr [])) = Ok items.
Proof.
  intros [H | [H ->]]; eexists; (split; [exact H | reflexivity]).
Qed.

(** ** Export, then import *)

Lemma create_bucket_step (bucket : value) (w : world) :
  nullish bucket = false ->
  exists r ok w1,
    trace w1 = (trace w ++ [Requested r ok])%list
    /\ ((ok = true /\ create_bucket bucket w = (Ok tt, w1))
        \/ (ok = false /\ exists e, create_bucket bucket w = (Throw e, w1))).
Proof.
  intros Hb. unfold create_bucket, bind, lift, makeLocalStackRequest.
  destruct (prop bucket "name") as [name | e |] eqn:Ep;
    [| destruct bucket; discriminate | destruct bucket; discriminate].
  unfold axios_call, perform.
  match goal with |- context [axios ?r (env w)] =>
    exists r; destruct (axios r (env w)) as [[msg | resp] e']
  end.
  - exists false. eexists (Build_world e' _).
    split; [reflexivity |]. right. split; [reflexivity |].
    eexists. reflexivity.
  - exists true. eexists (Build_world e' _).
    split; [reflexivity |]. left. now split.
Qed.

Lemma create_each_bucket_trace (items : list value) :
  Forall (fun bucket => nullish bucket = false) items ->
  forall imported skipped w r w',
    create_each create_bucket items imported skipped w = (r, w') ->
    exists evs, trace w' = (trace w ++ evs)%list.
Proof.
  induction 1 as [| bucket rest Hb _ IH]; intros imported skipped w r w' H;
    simpl in H.
  - inversion H; subst. exists []. now rewrite app_nil_r.
  - unfold bind, try_catch, ret in H.
    destruct (create_bucket_step bucket w Hb)
      as (rq & ok & w1 & Ht & [[_ E] | [_ [e E]]]);
      rewrite E in H; apply IH in H; destruct H as (evs & ->);
      rewrite Ht, <- app_assoc; eexists; reflexivity.
Qed.

Lemma create_each_bucket_all_succeed (items : list value) :
  Forall (fun bucket => nullish bucket = false) items ->
  forall imported skipped w r w',
    create_each create_bucket items imported skipped w = (r, w') ->
    every_call_succeeded (trace w) (trace w') ->
    r = Ok (ImportCounts.mk (imported + len items) skipped).
Proof.
  induction 1 as [| bucket rest Hb Hrest IH]; intros imported skipped w r w' H Hok.
  - simpl in H. inversion H; subst. unfold len; simpl.
    now rewrite Z.add_0_r.
  - simpl in H. unfold bind, try_catch, ret in H.
    destruct Hok as (evs & Hevs & Hall).
    destruct (create_bucket_step bucket w Hb)
      as (rq & ok & w1 & Ht & [[-> E] | [-> [e E]]]);
      rewrite E in H;
      destruct (create_each_bucket_trace _ Hrest _ _ _ _ _ H) as (evs' & Hrest');
      rewrite Hrest', Ht, <- app_assoc in Hevs;
      apply app_inv_head in Hevs; subst evs; simpl in Hall.
    + rewrite (IH _ _ _ _ _ H).
      * unfold len; simpl length. rewrite Nat2Z.inj_succ.
        f_equal. f_equal. lia.
      * exists evs'. now split.
    + discriminate.
Qed.

(** C9.  A bucket state that [exportS3State] returned, written to a
    snapshot and read back, and then imported in a run in which every call
    to the emulator succeeds, counts every exported bucket as imported and
    none as skipped. *)
Theorem bucket_round_trip (includeData : bool) (w w1 w2 w3 : world)
    (state state' : value) (r : outcome ImportCounts.t) :
  exportS3State includeData w = (Ok state, w1) ->
  reads_back_as state state' ->
  importS3State state' w2 = (r, w3) ->
  every_call_succeeded (trace w2) (trace w3) ->
  exists exported,
    prop state "buckets" = Ok (VArr exported)
    /\ prop state "resourceCount" = Ok (VNum (len exported))
    /\ r = Ok (ImportCounts.mk (len exported) 0).
Proof.
  intros Hexport (buckets & buckets' & Hb & Hb' & Hlen & Hall) Himport Hok.
  apply exportS3State_shape in Hexport. destruct Hexport as (infos & -> & _).
  simpl in Hb. inversion Hb; subst infos.
  exists buckets. split; [reflexivity |]. split; [reflexivity |].
  unfold importS3State, bind, lift in Himport.
  rewrite Hb' in Himport. simpl in Himport.
  rewrite (create_each_bucket_all_succeed _ Hall _ _ _ _ _ Himport Hok).
  unfold len. now rewrite Hlen.
Qed.

Lemma exported_reads_back_as_itself (includeData : bool) (w w1 : world)
    (state : value) :
  exportS3State includeData w = (Ok state, w1) -> reads_back_as state state.
Proof.
  intros H. apply exportS3State_shape in H. destruct H as (infos & -> & Hall).
  exists infos, infos. now repeat split.
Qed.

(** ** Import of a file that holds no snapshot *)

Lemma unshaped_summary_throws (stateData : value) (w : world) :
  snapshot_shaped stateData = false ->
  exists e,
    (version <- lift (prop stateData "version") ;;
     originalTimestamp <- lift (prop stateData "timestamp") ;;
     services <- lift (prop stateData "services") ;;
     found <- lift (entries services) ;;
     metadata <- lift (prop stateData "metadata") ;;
     totalResources <- lift (prop metadata "totalResources") ;;
     ret (version, originalTimestamp, found, totalResources)) w
    = (Throw e, w).
Proof.
  unfold snapshot_shaped, opt_prop, bind, lift, ret. intros H.
  destruct stateData as [| | b | n | s | l | fs]; simpl in H |- *;
    try discriminate; try (eexists; reflexivity).
  destruct (lookup "services" fs) as [[| | b | n | s | l | fs'] |];
    simpl in H |- *; try (eexists; reflexivity);
    destruct (lookup "metadata" fs) as [[| | b' | n' | s' | l' | fs''] |];
    simpl in H |- *; try discriminate; eexists; reflexivity.
Qed.

Lemma fs_readFile_cases (path : string) (w : world) :
  (exists msg e',
      readFile path (env w) = (inl msg, e')
      /\ fs_readFile path w
         = (Throw (SystemError msg),
            {| env := e'; trace := trace w ++ [FileRead path false] |}))
  \/ (exists content e',
        readFile path (env w) = (inr content, e')
        /\ fs_readFile path w
           = (Ok content,
              {| env := e'; trace := trace w ++ [FileRead path true] |})).
Proof.
  unfold fs_readFile, perform.
  destruct (readFile path (env w)) as [[msg | content] e'].
  - left. now exists msg, e'.
  - right. now exists content, e'.
Qed.

(** C8.  When the file cannot be read, or its content does not parse, or
    what it parses to is no snapshot, [importState] returns a failure with
    its message and the import troubleshooting tips; it does not throw, it
    returns no summary, and the read of the file is its only call into the
    platform.  No request reaches the emulator: the run ends before the
    connectivity check, which always leaves one in the trace, and so before
    the loop over the reconstructors that follows it. *)
Theorem import_without_snapshot_fails (statePath : string) (w : world) :
  no_snapshot_at statePath w ->
  exists error read_ok w',
    importState statePath w
    = (Ok (Failure error getImportTroubleshootingTips), w')
    /\ trace w' = (trace w ++ [FileRead statePath read_ok])%list.
Proof.
  intros H. unfold importState, performStateImport.
  destruct (fs_readFile_cases statePath w)
    as [(msg & e' & Hr & E) | (content & e' & Hr & E)].
  - exists msg, false. eexists.
    unfold try_catch, bind at 1 2. rewrite E. simpl. split; reflexivity.
  - destruct H as [(msg & e1 & Hr') | [(c & e1 & msg & Hr' & Hp)
                                       | (c & e1 & stateData & Hr' & Hp & Hs)]];
      rewrite Hr in Hr'; inversion Hr'; subst.
    + unfold try_catch, bind at 1 2 3. rewrite E.
      unfold yaml_parse. rewrite Hp. simpl.
      exists msg, true. eexists. split; reflexivity.
    + unfold try_catch, bind at 1 2 3. rewrite E.
      unfold yaml_parse. rewrite Hp. unfold ret at 1.
      destruct (unshaped_summary_throws stateData
                  {| env := e1; trace := trace w ++ [FileRead statePath true] |} Hs)
        as (e & He).
      exists (message e), true. eexists.
      unfold bind, lift, ret in He |- *.
      destruct (prop stateData "version") as [v | ? |]; [| now inversion He | discriminate].
      destruct (prop stateData "timestamp") as [t | ? |]; [| now inversion He | discriminate].
      destruct (prop stateData "services") as [sv | ? |]; [| now inversion He | discriminate].
      destruct (entries sv) as [found | ? |]; [| now inversion He | discriminate].
      destruct (prop stateData "metadata") as [md | ? |]; [| now inversion He | discriminate].
      destruct (prop md "totalResources") as [tr | ? |]; [| now inversion He | discriminate].
      discriminate.
Qed.


(** ** What a run adds to the trace *)

Lemma adds_nothing {A} (Q : event -> Prop) (c : M A) :
  (forall w o w', c w = (o, w') -> trace w' = trace w) -> adds Q c.
Proof.
  intros H w o w' E. exists []. rewrite app_nil_r. split; [eauto | constructor].
Qed.

Lemma adds_ret {A} (Q : event -> Prop) (a : A) : adds Q (ret a).
Proof. apply adds_nothing. intros w o w' E. now inversion E. Qed.

Lemma adds_lift {A} (Q : event -> Prop) (o : outcome A) : adds Q (lift o).
Proof. apply adds_nothing. intros w o' w' E. now inversion E. Qed.

Lemma adds_throw {A} (Q : event -> Prop) (e : exn) : adds Q (@throw P A e).
Proof. apply adds_nothing. intros w o w' E. now inversion E. Qed.

Lemma adds_bind {A B} (Q : event -> Prop) (c : M A) (f : A -> M B) :
  adds Q c -> (forall a, adds Q (f a)) -> adds Q (bind c f).
Proof.
  intros Hc Hf w o w' E. unfold bind in E.
  destruct (c w) as [[a | e |] w1] eqn:Ec;
    destruct (Hc _ _ _ Ec) as (evs & Ht & Hq).
  - destruct (Hf a _ _ _ E) as (evs' & Ht' & Hq').
    exists (evs ++ evs')%list. rewrite Ht', Ht, app_assoc. split; trivial.
    apply Forall_app. now split.
  - inversion E; subst. now exists evs.
  - inversion E; subst. now exists evs.
Qed.

Lemma adds_try_catch {A} (Q : event -> Prop) (c : M A) (h : exn -> M A) :
  adds Q c -> (forall e, adds Q (h e)) -> adds Q (try_catch c h).
Proof.
  intros Hc Hh w o w' E. unfold try_catch in E.
  destruct (c w) as [[a | e |] w1] eqn:Ec;
    destruct (Hc _ _ _ Ec) as (evs & Ht & Hq).
  - inversion E; subst. now exists evs.
  - destruct (Hh e _ _ _ E) as (evs' & Ht' & Hq').
    exists (evs ++ evs')%list. rewrite Ht', Ht, app_assoc. split; trivial.
    apply Forall_app. now split.
  - inversion E; subst. now exists evs.
Qed.

Lemma adds_perform {A} (Q : event -> Prop) (h : Env -> (string + A) * Env)
    (mk_exn : string -> exn) (log : bool -> event) :
  Q (log true) -> Q (log false) -> adds Q (perform h mk_exn log).
Proof.
  intros Ht Hf w o w' E. unfold perform in E.
  destruct (h (env w)) as [[msg | a] e']; inversion E; subst; simpl;
    eexists; (split; [reflexivity |]); now repeat constructor.
Qed.

Lemma adds_weaken {A} (Q Q' : event -> Prop) (c : M A) :
  (forall ev, Q ev -> Q' ev) -> adds Q c -> adds Q' c.
Proof.
  intros HQ Hc w o w' E. destruct (Hc _ _ _ E) as (evs & Ht & Hq).
  exists evs. split; trivial. eapply Forall_impl; eauto.
Qed.

Ltac adds_step :=
  first [ apply adds_ret | apply adds_lift | apply adds_throw
        | apply adds_bind; [| intros ?]
        | apply adds_try_catch; [| intros ?] ].

Lemma prefix_app (s t : string) : prefix s (s ++ t) = true.
Proof.
  induction s as [| c s IH]; simpl; [now destruct t |].
  destruct (ascii_dec c c); [exact IH | contradiction].
Qed.

Lemma makeLocalStackRequest_local (verb path : string)
    (extra : list (string * string)) (payload : value) :
  lookup "Authorization" (spread [("Authorization", authorization)] extra)
  = Some authorization ->
  adds local_request (makeLocalStackRequest verb path extra payload).
Proof.
  intros H. unfold makeLocalStackRequest, axios_call.
  apply adds_perform; unfold local_request; cbn [url headers];
    (split; [apply prefix_app | now left]).
Qed.

Lemma axios_get_health_local (limit : option Z) :
  adds local_request (axios_get health_url limit).
Proof.
  unfold axios_get, axios_call.
  apply adds_perform; unfold local_request; cbn [url headers];
    (split; [apply prefix_app | now right]).
Qed.

Ltac local_call :=
  first [ apply makeLocalStackRequest_local; reflexivity
        | apply axios_get_health_local ].

Lemma getLocalStackVersion_local : adds local_request getLocalStackVersion.
Proof. unfold getLocalStackVersion. repeat adds_step. local_call. Qed.

Lemma validateLocalStackConnectivity_local :
  adds local_request validateLocalStackConnectivity.
Proof. unfold validateLocalStackConnectivity. repeat adds_step. local_call. Qed.

Lemma s3_buckets_local (includeData : bool) (bucketsArray : list value) :
  forall buckets resourceCount,
    adds local_request (s3_buckets includeData bucketsArray buckets resourceCount).
Proof.
  induction bucketsArray as [| bucket rest IH]; intros buckets resourceCount; simpl.
  - apply adds_ret.
  - repeat adds_step; [| apply IH].
    unfold s3_bucket_objects. destruct includeData; repeat adds_step. local_call.
Qed.

Lemma exportS3State_local (includeData : bool) :
  adds local_request (exportS3State includeData).
Proof.
  unfold exportS3State. repeat adds_step; [local_call |].
  destruct (truthy _); repeat adds_step. apply s3_buckets_local.
Qed.

Lemma getDynamoDBTableInfo_local (tableName : value) (includeData : bool) :
  adds local_request (getDynamoDBTableInfo tableName includeData).
Proof.
  unfold getDynamoDBTableInfo. repeat adds_step; [local_call |].
  destruct includeData; [| apply adds_ret].
  unfold getDynamoDBItemCount. repeat adds_step. local_call.
Qed.

Lemma dynamodb_tables_local (includeData : bool) (tableNames : list value) :
  forall tables resourceCount,
    adds local_request (dynamodb_tables includeData tableNames tables resourceCount).
Proof.
  induction tableNames as [| tableName rest IH]; intros tables resourceCount; simpl.
  - apply adds_ret.
  - adds_step; [apply getDynamoDBTableInfo_local | apply IH].
Qed.

Lemma exportServiceState_local (service : string) (includeData : bool) :
  adds local_request (exportServiceState service includeData).
Proof.
  unfold exportServiceState.
  destruct (String.eqb _ "s3"); [apply exportS3State_local |].
  destruct (String.eqb _ "dynamodb").
  { unfold exportDynamoDBState. repeat adds_step; [local_call |].
    destruct (truthy _); repeat adds_step. apply dynamodb_tables_local. }
  destruct (String.eqb _ "sqs").
  { unfold exportSQSState, export_listing. repeat adds_step. local_call. }
  destruct (String.eqb _ "sns").
  { unfold exportSNSState, export_listing. repeat adds_step. local_call. }
  destruct (String.eqb _ "lambda").
  { unfold exportLambdaState. repeat adds_step. local_call. }
  apply adds_ret.
Qed.

Lemma export_services_local (includeData : bool) (services : list string) :
  forall exported totalResources,
    adds local_request (export_services includeData services exported totalResources).
Proof.
  induction services as [| service rest IH]; intros exported totalResources; simpl.
  - apply adds_ret.
  - adds_step; [apply exportServiceState_local |].
    destruct (truthy _); [| apply IH]. repeat adds_step. apply IH.
Qed.


Lemma create_each_local (create : value -> M unit) :
  (forall item, adds local_request (create item)) ->
  forall items imported skipped,
    adds local_request (create_each create items imported skipped).
Proof.
  intros Hc items. induction items as [| item rest IH]; intros imported skipped; simpl.
  - apply adds_ret.
  - adds_step.
    + repeat adds_step. apply Hc.
    + destruct a; apply IH.
Qed.

Lemma importServiceState_local (service : string) (serviceState : value) :
  adds local_request (importServiceState service serviceState).
Proof.
  unfold importServiceState.
  destruct (String.eqb _ "s3").
  { unfold importS3State. repeat adds_step. apply create_each_local.
    intros item. unfold create_bucket. repeat adds_step. local_call. }
  destruct (String.eqb _ "dynamodb");
    [unfold importDynamoDBState, skip_all; repeat adds_step |].
  destruct (String.eqb _ "sqs").
  { unfold importSQSState. repeat adds_step. apply create_each_local.
    intros item. unfold create_queue. repeat adds_step. local_call. }
  destruct (String.eqb _ "sns");
    [unfold importSNSState, skip_all; repeat adds_step |].
  destruct (String.eqb _ "lambda");
    [unfold importLambdaState, skip_all; repeat adds_step |].
  apply adds_ret.
Qed.

Lemma import_services_local (found : list (string * value)) :
  forall importSummary, adds local_request (import_services found importSummary).
Proof.
  induction found as [| [service serviceState] rest IH]; intros importSummary; simpl.
  - apply adds_ret.
  - adds_step; [| apply IH]. repeat adds_step. apply importServiceState_local.
Qed.

(** How a sequence ends: its first part returned and the rest ran, or the
    first part ended the run. *)
Lemma bind_run {A B} (c : M A) (f : A -> M B) (w w' : world) (o : outcome B) :
  bind c f w = (o, w') ->
  (exists a w1, c w = (Ok a, w1) /\ f a w1 = (o, w'))
  \/ ((exists e, c w = (Throw e, w') /\ o = Throw e)
      \/ (c w = (Untyped, w') /\ o = Untyped)).
Proof.
  unfold bind. destruct (c w) as [[a | e |] w1]; intros H.
  - left. now exists a, w1.
  - inversion H; subst. right. left. now exists e.
  - inversion H; subst. right. now right.
Qed.

Lemma new_Date_toISOString_trace (w w' : world) (o : outcome string) :
  new_Date_toISOString w = (o, w') -> trace w' = trace w /\ exists s, o = Ok s.
Proof.
  unfold new_Date_toISOString. destruct (toISOString (env w)) as [s e'].
  intros H. inversion H. split; [reflexivity | now exists s].
Qed.

Lemma performStateExport_trace (options : StateExportOptions.t)
    (w w' : world) (o : outcome (string * ExportSummary.t)) :
  performStateExport options w = (o, w') ->
  exists requests tail,
    trace w' = (trace w ++ requests ++ tail)%list
    /\ Forall local_request requests
    /\ (tail = [] \/ exists path content ok, tail = [FileWritten path content ok]).
Proof.
  unfold performStateExport. intros H.
  apply bind_run in H.
  destruct H as [(now & w1 & E1 & H) | [(e & E1 & _) | (E1 & _)]];
    apply new_Date_toISOString_trace in E1; destruct E1 as [T1 [s E1]];
    try discriminate.
  apply bind_run in H.
  destruct H as [(timestamp & w2 & E2 & H) | [(e & E2 & _) | (E2 & _)]];
    apply new_Date_toISOString_trace in E2; destruct E2 as [T2 [s' E2]];
    try discriminate.
  assert (Hpre : adds local_request
                   (localstackVersion <- getLocalStackVersion ;;
                    export_services
                      match StateExportOptions.includeData options with
                      | Some b => b
                      | None => true
                      end (StateExportOptions.services options) [] 0)).
  { adds_step; [apply getLocalStackVersion_local | apply export_services_local]. }
  unfold adds in Hpre.
  apply bind_run in H.
  destruct H as [(version & w3 & E3 & H) | [(e & E3 & _) | (E3 & _)]].
  2,3: destruct (getLocalStackVersion_local _ _ _ E3) as (evs & T3 & Q3);
       exists evs, []; rewrite T3, T2, T1, app_nil_r; repeat split; tauto.
  apply bind_run in H.
  destruct H as [(r & w4 & E4 & H) | [(e & E4 & _) | (E4 & _)]].
  2,3: destruct (getLocalStackVersion_local _ _ _ E3) as (evs & T3 & Q3);
       destruct (export_services_local _ _ _ _ _ _ _ E4) as (evs' & T4 & Q4);
       exists (evs ++ evs')%list, [];
       rewrite T4, T3, T2, T1, app_nil_r, app_assoc;
       (split; [reflexivity |]); (split; [| now left]);
       apply Forall_app; now split.
  destruct (getLocalStackVersion_local _ _ _ E3) as (evs & T3 & Q3).
  destruct (export_services_local _ _ _ _ _ _ _ E4) as (evs' & T4 & Q4).
  assert (Hw : exists path content ok w5 x,
             fs_writeFile path content w4 = (x, w5)
             /\ trace w5 = (trace w4 ++ [FileWritten path content ok])%list
             /\ trace w' = trace w5).
  { apply bind_run in H.
    destruct H as [(u & w5 & E5 & H) | [(e & E5 & _) | (E5 & _)]].
    - do 2 eexists. exists true, w5. eexists. split; [exact E5 |].
      split; [exact (perform_Ok _ _ _ _ _ _ E5) |].
      apply bind_run in H.
      destruct H as [(n & w6 & E6 & H) | [(e & E6 & _) | (E6 & _)]].
      + apply fs_stat_size_trace in E6. inversion H; subst. exact E6.
      + now apply fs_stat_size_trace in E6.
      + now apply fs_stat_size_trace in E6.
    - do 2 eexists. exists false, w'. eexists. split; [exact E5 |].
      split; [| reflexivity].
      unfold fs_writeFile, perform in E5.
      destruct (writeFile _ _ (env w4)) as [[msg | u] e']; inversion E5.
      reflexivity.
    - unfold fs_writeFile, perform in E5.
      destruct (writeFile _ _ (env w4)) as [[msg | u] e']; discriminate. }
  destruct Hw as (path & content & ok & w5 & x & _ & T5 & T6).
  exists (evs ++ evs')%list, [FileWritten path content ok].
  rewrite T6, T5, T4, T3, T2, T1, !app_assoc.
  split; [reflexivity |]. split.
  - apply Forall_app. now split.
  - right. now exists path, content, ok.
Qed.

(** X1.  An export never reads a file, sends requests to the local endpoint
    only, and writes at most one file, as the last thing it does. *)
Theorem export_only_requests_then_writes (options : StateExportOptions.t)
    (w : world) :
  exists requests tail,
    trace (snd (exportState options w)) = (trace w ++ requests ++ tail)%list
    /\ Forall local_request requests
    /\ (tail = [] \/ exists path content ok, tail = [FileWritten path content ok]).
Proof.
  unfold exportState, try_catch, bind.
  destruct (performStateExport options w) as [[r | e |] w'] eqn:E;
    exact (performStateExport_trace _ _ _ _ E).
Qed.

(** X2.  An import never writes a file: it reads the file it was given,
    once and first, and everything after that is a request to the local
    endpoint. *)
Theorem import_reads_then_only_requests (statePath : string) (w : world) :
  exists read_ok requests,
    trace (snd (importState statePath w))
    = (trace w ++ FileRead statePath read_ok :: requests)%list
    /\ Forall local_request requests.
Proof.
  assert (Hrest : forall stateContent,
    adds local_request
      (stateData <- yaml_parse stateContent ;;
       version <- lift (prop stateData "version") ;;
       originalTimestamp <- lift (prop stateData "timestamp") ;;
       services <- lift (prop stateData "services") ;;
       found <- lift (entries services) ;;
       metadata <- lift (prop stateData "metadata") ;;
       totalResources <- lift (prop metadata "totalResources") ;;
       bind validateLocalStackConnectivity (fun _ =>
       summary <- import_services found
                    (ImportSummary.mk version originalTimestamp (keys found)
                       totalResources 0 0 []) ;;
       ret (summary, generateImportRecommendations summary version)))).
  { intros stateContent. adds_step.
    - unfold yaml_parse. destruct (parse stateContent); [apply adds_throw | apply adds_ret].
    - repeat first [ apply validateLocalStackConnectivity_local
                   | apply import_services_local
                   | adds_step ]. }
  unfold importState, performStateImport, try_catch.
  destruct (fs_readFile_cases statePath w)
    as [(msg & e' & _ & E) | (content & e' & _ & E)].
  - exists false, []. unfold bind at 1 2. rewrite E. simpl.
    split; [reflexivity | constructor].
  - unfold bind at 1 2. rewrite E.
    match goal with |- context [bind ?c ?f ?w1] =>
      destruct (bind c f w1) as [o w'] eqn:Er
    end.
    destruct (Hrest content _ _ _ Er) as (requests & T & Q).
    exists true, requests. split; [| exact Q].
    destruct o; simpl; rewrite T; simpl; now rewrite <- app_assoc.
Qed.


(** ** Which computations return *)

Lemma returns_ret {A} (a : A) : returns (@ret P A a).
Proof. intros w. now exists a, w. Qed.

Lemma returns_bind {A B} (c : M A) (f : A -> M B) :
  returns c -> (forall a, returns (f a)) -> returns (bind c f).
Proof.
  intros Hc Hf w. destruct (Hc w) as (a & w1 & E).
  destruct (Hf a w1) as (b & w2 & E'). exists b, w2.
  unfold bind. now rewrite E.
Qed.

Lemma returns_try_catch {A} (c : M A) (h : exn -> M A) :
  typed c -> (forall e, returns (h e)) -> returns (try_catch c h).
Proof.
  intros Hc Hh w. unfold try_catch. specialize (Hc w).
  destruct (c w) as [[a | e |] w1]; simpl in Hc.
  - now exists a, w1.
  - apply Hh.
  - contradiction.
Qed.

Lemma typed_ret {A} (a : A) : typed (@ret P A a).
Proof. intros w. discriminate. Qed.

Lemma typed_lift {A} (o : outcome A) : o <> Untyped -> typed (@lift P A o).
Proof. intros H w. exact H. Qed.

Lemma typed_bind {A B} (c : M A) (f : A -> M B) :
  typed c -> (forall a, typed (f a)) -> typed (bind c f).
Proof.
  intros Hc Hf w. unfold bind. specialize (Hc w).
  destruct (c w) as [[a | e |] w1]; simpl in *;
    [apply Hf | discriminate | contradiction].
Qed.

Lemma typed_try_catch {A} (c : M A) (h : exn -> M A) :
  typed c -> (forall e, typed (h e)) -> typed (try_catch c h).
Proof.
  intros Hc Hh w. unfold try_catch. specialize (Hc w).
  destruct (c w) as [[a | e |] w1]; simpl in *;
    [discriminate | apply Hh | contradiction].
Qed.

Lemma typed_request (verb path : string) (extra : list (string * string))
    (payload : value) :
  typed (makeLocalStackRequest verb path extra payload).
Proof. intros w. apply axios_call_typed. Qed.

Lemma returns_typed {A} (c : M A) : returns c -> typed c.
Proof. intros H w. destruct (H w) as (a & w' & ->). discriminate. Qed.

Lemma map_outcome_typed {A B} (f : A -> outcome B) (l : list A) :
  (forall x, f x <> Untyped) -> map_outcome f l <> Untyped.
Proof.
  intros Hf. induction l as [| x rest IH]; simpl; [discriminate |].
  specialize (Hf x). destruct (f x) as [y | e |]; simpl;
    [| discriminate | contradiction].
  destruct (map_outcome f rest) as [ys | e |]; simpl;
    [discriminate | discriminate | contradiction].
Qed.

Lemma lambda_function_typed (fn : value) : lambda_function fn <> Untyped.
Proof. destruct fn; discriminate. Qed.

Lemma s3_object_typed (obj : value) : s3_object obj <> Untyped.
Proof. destruct obj; discriminate. Qed.

Ltac typed_step :=
  first [ apply typed_ret | apply typed_request
        | apply typed_lift; apply prop_typed
        | apply typed_bind; [| intros ?]
        | apply typed_try_catch; [| intros ?] ].

Lemma getDynamoDBItemCount_returns (tableName : value) :
  returns (getDynamoDBItemCount tableName).
Proof.
  unfold getDynamoDBItemCount. apply returns_try_catch.
  - repeat typed_step.
  - intros e. apply returns_ret.
Qed.

Lemma getDynamoDBTableInfo_returns (tableName : value) (includeData : bool) :
  returns (getDynamoDBTableInfo tableName includeData).
Proof.
  unfold getDynamoDBTableInfo. apply returns_try_catch.
  - repeat typed_step. destruct includeData; [| apply typed_ret].
    apply returns_typed, getDynamoDBItemCount_returns.
  - intros e. apply returns_ret.
Qed.

Lemma dynamodb_tables_returns (includeData : bool) (tableNames : list value) :
  forall tables resourceCount,
    returns (dynamodb_tables includeData tableNames tables resourceCount).
Proof.
  induction tableNames as [| tableName rest IH]; intros tables resourceCount; simpl.
  - apply returns_ret.
  - apply returns_bind; [apply getDynamoDBTableInfo_returns | intros; apply IH].
Qed.

Lemma iterate_typed (v : value) : iterate v <> Untyped.
Proof. destruct v; discriminate. Qed.

Lemma exportDynamoDBState_returns (includeData : bool) :
  returns (exportDynamoDBState includeData).
Proof.
  unfold exportDynamoDBState. apply returns_try_catch.
  - repeat typed_step. destruct (truthy _); [| apply typed_ret].
    apply typed_bind; [apply typed_lift, iterate_typed | intros names].
    apply typed_bind; [| intros; apply typed_ret].
    apply returns_typed, dynamodb_tables_returns.
  - intros e. apply returns_ret.
Qed.

Lemma export_listing_returns (list_key : string) (query : value)
    (result_key item_key : string) :
  returns (export_listing list_key query result_key item_key).
Proof.
  unfold export_listing. apply returns_try_catch.
  - repeat typed_step.
  - intros e. apply returns_ret.
Qed.

Lemma exportLambdaState_returns : returns exportLambdaState.
Proof.
  unfold exportLambdaState. apply returns_try_catch.
  - repeat typed_step.
    apply typed_lift. destruct a0; try discriminate.
    simpl. pose proof (map_outcome_typed lambda_function items lambda_function_typed).
    destruct (map_outcome lambda_function items); simpl;
      [discriminate | discriminate | contradiction].
  - intros e. apply returns_ret.
Qed.

Lemma exportServiceState_returns (service : string) (includeData : bool) :
  s3_kind service = false ->
  returns (exportServiceState service includeData).
Proof.
  unfold s3_kind, exportServiceState. intros ->.
  destruct (String.eqb _ "dynamodb"); [apply exportDynamoDBState_returns |].
  destruct (String.eqb _ "sqs"); [apply export_listing_returns |].
  destruct (String.eqb _ "sns"); [apply export_listing_returns |].
  destruct (String.eqb _ "lambda"); [apply exportLambdaState_returns |].
  apply returns_ret.
Qed.

Lemma export_services_never_throws (includeData : bool) (services : list string) :
  Forall (fun service => s3_kind service = false) services ->
  forall exported totalResources,
    never_throws (export_services includeData services exported totalResources).
Proof.
  induction 1 as [| service rest Hs _ IH]; intros exported totalResources w e; simpl.
  - discriminate.
  - unfold bind at 1.
    destruct (exportServiceState_returns service includeData Hs w)
      as (state & w1 & ->).
    destruct (truthy state) eqn:Et; [| apply IH].
    unfold bind, lift.
    destruct (prop state "resourceCount") as [count | e' |] eqn:Ep;
      [| destruct state; discriminate | discriminate].
    destruct (as_number (or_else count (VNum 0))) as [n | e' |] eqn:En.
    + apply IH.
    + destruct (or_else count (VNum 0)); discriminate.
    + discriminate.
Qed.

(** X3.  When none of the requested names is the bucket kind, an export
    cannot fail on the emulator: whatever the emulator answers or refuses,
    the only exception that ends [performStateExport] comes from the file
    system. *)
Theorem export_without_s3_fails_only_on_disk (options : StateExportOptions.t)
    (w w' : world) (e : exn) :
  Forall (fun service => s3_kind service = false)
    (StateExportOptions.services options) ->
  performStateExport options w = (Throw e, w') ->
  exists msg, e = SystemError msg.
Proof.
  intros Hs H. unfold performStateExport in H.
  apply bind_run in H.
  destruct H as [(now & w1 & E1 & H) | [(e1 & E1 & _) | (E1 & _)]];
    [| apply new_Date_toISOString_trace in E1; destruct E1 as [_ [s E1]];
       discriminate ..].
  apply bind_run in H.
  destruct H as [(timestamp & w2 & E2 & H) | [(e2 & E2 & _) | (E2 & _)]];
    [| apply new_Date_toISOString_trace in E2; destruct E2 as [_ [s E2]];
       discriminate ..].
  apply bind_run in H.
  destruct H as [(version & w3 & E3 & H) | [(e3 & E3 & _) | (E3 & _)]];
    [| destruct (getLocalStackVersion_returns w2) as (v & w3 & E);
       rewrite E in E3; discriminate ..].
  apply bind_run in H.
  destruct H as [(r & w4 & E4 & H) | [(e4 & E4 & He) | (E4 & He)]];
    [| | discriminate].
  2: { exfalso.
       eapply (export_services_never_throws _ _ Hs [] 0 w3 e4).
       rewrite E4. reflexivity. }
  apply bind_run in H.
  destruct H as [(u & w5 & E5 & H) | [(e5 & E5 & He) | (E5 & He)]];
    [| | discriminate].
  2: { inversion He; subst. unfold fs_writeFile, perform in E5.
       destruct (writeFile _ _ (env w4)) as [[msg | x] e']; inversion E5.
       now exists msg. }
  apply bind_run in H.
  destruct H as [(n & w6 & E6 & H) | [(e6 & E6 & He) | (E6 & He)]];
    [discriminate | | discriminate].
  inversion He; subst. unfold fs_stat_size in E6.
  destruct (stat _ (env w5)) as [[msg | x] e']; inversion E6.
  now exists msg.
Qed.


(** ** What an export keeps of a listing *)

Lemma prop_opt_prop (v : value) (k : string) :
  nullish v = false -> prop v k = Ok (opt_prop v k).
Proof. unfold opt_prop. destruct v; simpl; intros H; trivial; discriminate. Qed.

Lemma map_outcome_Forall {A B} (f : A -> outcome B) (Q : B -> Prop) (l : list A) :
  (forall x y, f x = Ok y -> Q y) ->
  forall l', map_outcome f l = Ok l' -> Forall Q l'.
Proof.
  intros Hf. induction l as [| x rest IH]; intros l' H; simpl in H.
  - inversion H. constructor.
  - destruct (f x) as [y | e |] eqn:Ex; simpl in H; try discriminate.
    destruct (map_outcome f rest) as [ys | e |]; simpl in H; try discriminate.
    inversion H; subst. constructor; eauto.
Qed.

Lemma s3_object_fields (obj record : value) :
  s3_object obj = Ok record ->
  field_names record = Some ["key"; "size"; "lastModified"; "etag"].
Proof.
  unfold s3_object. intros H.
  destruct (prop obj "Key"); simpl in H; try discriminate.
  destruct (prop obj "Size"); simpl in H; try discriminate.
  destruct (prop obj "LastModified"); simpl in H; try discriminate.
  destruct (prop obj "ETag"); simpl in H; try discriminate.
  now inversion H.
Qed.

Lemma lambda_function_fields (fn record : value) :
  lambda_function fn = Ok record ->
  field_names record
  = Some ["functionName"; "runtime"; "handler"; "description"; "timeout";
          "memorySize"].
Proof.
  unfold lambda_function. intros H.
  destruct (prop fn "FunctionName"); simpl in H; try discriminate.
  destruct (prop fn "Runtime"); simpl in H; try discriminate.
  destruct (prop fn "Handler"); simpl in H; try discriminate.
  destruct (prop fn "Description"); simpl in H; try discriminate.
  destruct (prop fn "Timeout"); simpl in H; try discriminate.
  destruct (prop fn "MemorySize"); simpl in H; try discriminate.
  now inversion H.
Qed.

Lemma extractS3ObjectMetadata_fields (listObjectsResult : value) (l : list value) :
  extractS3ObjectMetadata listObjectsResult = Ok l ->
  Forall (fun record =>
            field_names record = Some ["key"; "size"; "lastModified"; "etag"]) l.
Proof.
  unfold extractS3ObjectMetadata. intros H.
  destruct (prop listObjectsResult "ListBucketResult"); simpl in H;
    try discriminate.
  destruct (negb (truthy _)).
  - inversion H. constructor.
  - eapply map_outcome_Forall; [| exact H]. exact s3_object_fields.
Qed.

Lemma extractS3ObjectMetadata_typed (listObjectsResult : value) :
  extractS3ObjectMetadata listObjectsResult <> Untyped.
Proof.
  unfold extractS3ObjectMetadata.
  destruct (prop listObjectsResult "ListBucketResult") as [result | e |] eqn:E;
    simpl; [| discriminate | now apply prop_typed in E].
  destruct (negb (truthy _)); [discriminate |].
  apply map_outcome_typed, s3_object_typed.
Qed.

Lemma s3_bucket_objects_returns (includeData : bool) (name : value) (w : world) :
  exists objects w',
    s3_bucket_objects includeData name w = (Ok objects, w')
    /\ Forall (fun record =>
                 field_names record = Some ["key"; "size"; "lastModified"; "etag"])
         objects
    /\ (includeData = false -> objects = [] /\ w' = w).
Proof.
  unfold s3_bucket_objects. destruct includeData.
  - unfold try_catch, bind, lift.
    destruct (makeLocalStackRequest _ _ _ _ w) as [[resp | e |] w1] eqn:E.
    + pose proof (extractS3ObjectMetadata_typed (data resp)) as Ht.
      destruct (extractS3ObjectMetadata (data resp)) as [l | e |] eqn:El.
      * exists l, w1. split; [reflexivity |]. split; [| discriminate].
        now apply extractS3ObjectMetadata_fields with (listObjectsResult := data resp).
      * exists [], w1. repeat split; [constructor | discriminate ..].
      * contradiction.
    + exists [], w1. repeat split; [constructor | discriminate ..].
    + exfalso. apply (typed_request "GET" ("/" ++ to_string name) [] VUndefined w).
      now rewrite E.
  - exists [], w. repeat split. constructor.
Qed.

Lemma s3_buckets_listed (includeData : bool) (bucketsArray : list value) :
  Forall (fun bucket => nullish bucket = false) bucketsArray ->
  forall buckets resourceCount w,
  exists infos w',
    s3_buckets includeData bucketsArray buckets resourceCount w
    = (Ok ((buckets ++ infos)%list, resourceCount + len bucketsArray), w')
    /\ map (fun info => opt_prop info "name") infos
       = map (fun bucket => opt_prop bucket "Name") bucketsArray
    /\ (includeData = false ->
        w' = w /\ Forall (fun info => opt_prop info "objects" = VArr []) infos).
Proof.
  induction 1 as [| bucket rest Hb _ IH]; intros buckets resourceCount w; simpl.
  - exists [], w. rewrite app_nil_r. unfold len; simpl. rewrite Z.add_0_r.
    repeat split. constructor.
  - unfold bind at 1, lift at 1. rewrite (prop_opt_prop _ "Name" Hb).
    unfold bind at 1, lift at 1. rewrite (prop_opt_prop _ "CreationDate" Hb).
    unfold bind at 1.
    destruct (s3_bucket_objects_returns includeData (opt_prop bucket "Name") w)
      as (objects & w1 & -> & _ & Hoff).
    match goal with |- context [s3_buckets _ _ (buckets ++ [?i]) _ _] =>
      set (info := i)
    end.
    destruct (IH (buckets ++ [info])%list (resourceCount + 1) w1)
      as (infos & w' & -> & Hnames & Hoff').
    exists (info :: infos), w'. rewrite <- app_assoc. simpl.
    split; [| split].
    + do 2 f_equal. f_equal. unfold len; simpl length. rewrite Nat2Z.inj_succ. lia.
    + now rewrite Hnames.
    + intros Hi. destruct (Hoff Hi) as [-> ->]. destruct (Hoff' Hi) as [-> Hall].
      split; [reflexivity |]. constructor; [reflexivity | exact Hall].
Qed.

(** X4.  Once the bucket listing has answered, the bucket extractor cannot
    fail and drops nothing: it returns one entry per listed bucket, in
    order and under the listed name, however the per-bucket object listings
    end; without the detail flag it sends no further request and every
    object list stays empty. *)
Theorem s3_export_keeps_every_listed_bucket (includeData : bool)
    (w w1 : world) (listing : response) :
  makeLocalStackRequest "GET" "/" [] VUndefined w = (Ok listing, w1) ->
  nullish (data listing) = false ->
  Forall (fun bucket => nullish bucket = false) (listed_buckets (data listing)) ->
  exists infos w',
    exportS3State includeData w
    = (Ok (service_state "buckets" (VArr infos)
             (VNum (len (listed_buckets (data listing))))), w')
    /\ map (fun info => opt_prop info "name") infos
       = map (fun bucket => opt_prop bucket "Name") (listed_buckets (data listing))
    /\ (includeData = false ->
        w' = w1 /\ Forall (fun info => opt_prop info "objects" = VArr []) infos).
Proof.
  intros Hl Hd Hb. unfold exportS3State.
  unfold bind at 1. rewrite Hl.
  unfold bind at 1, lift at 1. rewrite (prop_opt_prop _ _ Hd).
  unfold listed_buckets in *.
  set (bucket := opt_prop (opt_prop (opt_prop (data listing)
                   "ListAllMyBucketsResult") "Buckets") "Bucket") in *.
  destruct (truthy bucket) eqn:Et.
  - destruct (s3_buckets_listed includeData _ Hb [] 0 w1)
      as (infos & w' & E & Hnames & Hoff).
    exists infos, w'. unfold bind. rewrite E. simpl.
    split; [reflexivity | split; [exact Hnames | exact Hoff]].
  - exists [], w1. destruct bucket; try discriminate;
      repeat split; constructor.
Qed.


Lemma getDynamoDBTableInfo_record (tableName : value) (includeData : bool)
    (w : world) :
  exists schema itemCount w',
    getDynamoDBTableInfo tableName includeData w
    = (Ok (VObj [("tableName", tableName); ("schema", schema);
                 ("itemCount", itemCount)]), w')
    /\ (includeData = false -> itemCount = VNum 0).
Proof.
  unfold getDynamoDBTableInfo, try_catch, bind, lift, ret.
  destruct (makeLocalStackRequest _ _ _ _ w) as [[resp | e |] w1] eqn:E.
  - destruct (prop (data resp) "Table") as [schema | e |] eqn:Ep.
    + destruct includeData.
      * destruct (getDynamoDBItemCount_returns tableName w1) as (c & w2 & ->).
        exists schema, c, w2. split; [reflexivity | discriminate].
      * exists schema, (VNum 0), w1. now split.
    + exists VNull, (VNum 0), w1. now split.
    + now apply prop_typed in Ep.
  - exists VNull, (VNum 0), w1. now split.
  - exfalso. eapply typed_request. rewrite E. reflexivity.
Qed.

Lemma dynamodb_tables_listed (includeData : bool) (tableNames : list value) :
  forall tables resourceCount w,
  exists infos w',
    dynamodb_tables includeData tableNames tables resourceCount w
    = (Ok ((tables ++ infos)%list, resourceCount + len tableNames), w')
    /\ map (fun info => opt_prop info "tableName") infos = tableNames
    /\ Forall (fun info =>
                 field_names info = Some ["tableName"; "schema"; "itemCount"]
                 /\ (includeData = false -> opt_prop info "itemCount" = VNum 0))
         infos.
Proof.
  induction tableNames as [| tableName rest IH]; intros tables resourceCount w; simpl.
  - exists [], w. rewrite app_nil_r. unfold len; simpl. rewrite Z.add_0_r.
    repeat split. constructor.
  - unfold bind at 1.
    destruct (getDynamoDBTableInfo_record tableName includeData w)
      as (schema & itemCount & w1 & -> & Hoff).
    match goal with |- context [dynamodb_tables _ _ (tables ++ [?i]) _ _] =>
      set (info := i)
    end.
    destruct (IH (tables ++ [info])%list (resourceCount + 1) w1)
      as (infos & w' & -> & Hnames & Hall).
    exists (info :: infos), w'. rewrite <- app_assoc. simpl.
    split; [| split].
    + do 2 f_equal. f_equal. unfold len; simpl length. rewrite Nat2Z.inj_succ. lia.
    + now rewrite Hnames.
    + constructor; [| exact Hall]. split; [reflexivity | exact Hoff].
Qed.

(** X5.  Once the table listing has answered with an array of names, the
    table extractor returns one entry per name, in order and under that
    name, whether or not the describe and scan calls succeed; every entry
    has the fields tableName, schema and itemCount only, and without the
    detail flag every item count is 0. *)
Theorem dynamodb_export_keeps_every_listed_table (includeData : bool)
    (w w1 : world) (listing : response) (tableNames : list value) :
  makeLocalStackRequest "POST" "/" (dynamodb_headers "ListTables") (VObj []) w
  = (Ok listing, w1) ->
  prop (data listing) "TableNames" = Ok (VArr tableNames) ->
  exists infos w',
    exportDynamoDBState includeData w
    = (Ok (service_state "tables" (VArr infos) (VNum (len tableNames))), w')
    /\ map (fun info => opt_prop info "tableName") infos = tableNames
    /\ Forall (fun info =>
                 field_names info = Some ["tableName"; "schema"; "itemCount"]
                 /\ (includeData = false -> opt_prop info "itemCount" = VNum 0))
         infos.
Proof.
  intros Hl Hn. unfold exportDynamoDBState, try_catch, bind, lift.
  rewrite Hl, Hn. simpl.
  destruct (dynamodb_tables_listed includeData tableNames [] 0 w1)
    as (infos & w' & E & Hnames & Hall).
  exists infos, w'. rewrite E. simpl. now repeat split.
Qed.

Lemma s3_buckets_records (includeData : bool) (bucketsArray : list value) :
  forall buckets resourceCount w l n w',
    s3_buckets includeData bucketsArray buckets resourceCount w = (Ok (l, n), w') ->
    exists infos,
      l = (buckets ++ infos)%list
      /\ Forall (fun info =>
                   field_names info = Some ["name"; "creationDate"; "objects"]
                   /\ exists objects,
                        opt_prop info "objects" = VArr objects
                        /\ Forall (fun record =>
                                     field_names record
                                     = Some ["key"; "size"; "lastModified"; "etag"])
                             objects)
           infos.
Proof.
  induction bucketsArray as [| bucket rest IH];
    intros buckets resourceCount w l n w' H; simpl in H.
  - apply ret_Ok in H. destruct H as [H ->]. inversion H; subst.
    exists []. rewrite app_nil_r. split; [reflexivity | constructor].
  - bind_inv H Ename. bind_inv H Edate. bind_inv H Eobjects.
    destruct (s3_bucket_objects_returns includeData a w)
      as (objects & w1 & E & Hfields & _).
    rewrite E in Eobjects. inversion Eobjects; subst.
    apply IH in H. destruct H as (infos & -> & Hall).
    eexists (_ :: infos). rewrite <- app_assoc. simpl.
    split; [reflexivity |]. constructor; [| exact Hall].
    split; [reflexivity |]. now exists a1.
Qed.

(** X6.  An exported entry carries fixed metadata fields and nothing else:
    a bucket entry has name, creationDate and objects, each object record
    key, size, lastModified and etag; a function entry has functionName,
    runtime, handler, description, timeout and memorySize.  Whatever else
    the emulator sends about an object or a function does not reach the
    snapshot. *)
Theorem exported_entries_are_metadata_only :
  (forall includeData w w' state,
      exportS3State includeData w = (Ok state, w') ->
      exists infos,
        state = service_state "buckets" (VArr infos) (VNum (len infos))
        /\ Forall (fun info =>
                     field_names info = Some ["name"; "creationDate"; "objects"]
                     /\ exists objects,
                          opt_prop info "objects" = VArr objects
                          /\ Forall (fun record =>
                                       field_names record
                                       = Some ["key"; "size"; "lastModified"; "etag"])
                               objects)
             infos)
  /\ (forall w w' state,
        exportLambdaState w = (Ok state, w') ->
        exists infos,
          state = service_state "functions" (VArr infos) (VNum (len infos))
          /\ Forall (fun info =>
                       field_names info
                       = Some ["functionName"; "runtime"; "handler"; "description";
                               "timeout"; "memorySize"])
               infos).
Proof.
  split.
  - intros includeData w w' state H.
    destruct (exportS3State_shape _ _ _ _ H) as (infos & -> & _).
    exists infos. split; [reflexivity |].
    unfold exportS3State in H.
    bind_inv H Elist. bind_inv H Eresult.
    destruct (truthy _).
    + bind_inv H Eloop. destruct a1 as [l n].
      apply s3_buckets_records in Eloop. destruct Eloop as (infos' & -> & Hall).
      apply ret_Ok in H. destruct H as [H _]. inversion H; subst. exact Hall.
    + apply ret_Ok in H. destruct H as [H _]. inversion H. constructor.
  - intros w w' state H.
    destruct (exportLambdaState_shape _ _ _ H) as (infos & ->).
    exists infos. split; [reflexivity |].
    unfold exportLambdaState in H.
    apply try_catch_Ok in H. destruct H as [H | (e & w1 & _ & H)].
    + bind_inv H Elist. bind_inv H Efns. bind_inv H Emap.
      apply ret_Ok in H. destruct H as [H _].
      destruct a0 as [| | b | n | s | l | fs]; simpl in Emap; try discriminate.
      * inversion Emap; subst. inversion H. constructor.
      * inversion Emap; subst. inversion H. constructor.
      * destruct (map_outcome lambda_function l) as [l' | e |] eqn:Em;
          simpl in Emap; try discriminate.
        inversion Emap; subst. unfold or_else in H; simpl in H.
        inversion H; subst.
        eapply map_outcome_Forall; [| exact Em]. exact lambda_function_fields.
    + apply ret_Ok in H. destruct H as [H _]. inversion H. constructor.
Qed.


(** ** What the creating reconstructors send and count *)

Lemma len_cons {A} (x : A) (l : list A) : len (x :: l) = len l + 1.
Proof. unfold len. simpl length. rewrite Nat2Z.inj_succ. lia. Qed.

Lemma accepted_cons (ok : bool) (answers : list bool) :
  accepted (ok :: answers) = accepted answers + (if ok then 1 else 0).
Proof.
  unfold accepted. destruct ok; simpl filter; [rewrite len_cons |]; lia.
Qed.

Lemma create_each_calls (create : value -> M unit) (attempts : value -> bool)
    (call : value -> request) :
  (forall item w, attempts item = false -> exists e, create item w = (Throw e, w)) ->
  (forall item w, attempts item = true ->
     exists ok w1,
       trace w1 = (trace w ++ [Requested (call item) ok])%list
       /\ ((ok = true /\ create item w = (Ok tt, w1))
           \/ (ok = false /\ exists e, create item w = (Throw e, w1)))) ->
  forall items imported skipped w,
  exists answers r w',
    create_each create items imported skipped w = (Ok r, w')
    /\ List.length answers = List.length (filter attempts items)
    /\ trace w' = (trace w ++ calls call (filter attempts items) answers)%list
    /\ ImportCounts.imported r = imported + accepted answers
    /\ ImportCounts.skipped r = skipped + (len items - accepted answers).
Proof.
  intros Hskip Hcall items.
  induction items as [| item rest IH]; intros imported skipped w.
  - exists [], (ImportCounts.mk imported skipped), w. simpl.
    rewrite app_nil_r. unfold accepted, len; simpl.
    split; [reflexivity |]. split; [reflexivity |]. split; [reflexivity |].
    split; lia.
  - cbn [create_each filter]. unfold bind at 1, try_catch, bind at 1, ret at 1 2.
    destruct (attempts item) eqn:Ea.
    + destruct (Hcall item w Ea) as (ok & w1 & Ht & [[-> E] | (-> & e & E)]);
        rewrite E.
      * destruct (IH (imported + 1) skipped w1)
          as (answers & r & w' & -> & Hlen & Htr & Hi & Hs).
        exists (true :: answers), r, w'. split; [reflexivity |].
        split; [cbn [length]; now rewrite Hlen |].
        split; [rewrite Htr, Ht, <- app_assoc; reflexivity |].
        rewrite accepted_cons, len_cons. split; lia.
      * destruct (IH imported (skipped + 1) w1)
          as (answers & r & w' & -> & Hlen & Htr & Hi & Hs).
        exists (false :: answers), r, w'. split; [reflexivity |].
        split; [cbn [length]; now rewrite Hlen |].
        split; [rewrite Htr, Ht, <- app_assoc; reflexivity |].
        rewrite accepted_cons, len_cons. split; lia.
    + destruct (Hskip item w Ea) as (e & ->).
      destruct (IH imported (skipped + 1) w)
        as (answers & r & w' & -> & Hlen & Htr & Hi & Hs).
      exists answers, r, w'. repeat split; trivial.
      rewrite len_cons. lia.
Qed.


Lemma create_bucket_refuses_null (bucket : value) (w : world) :
  negb (nullish bucket) = false -> exists e, create_bucket bucket w = (Throw e, w).
Proof.
  intros H. unfold create_bucket, bind, lift.
  destruct bucket; try discriminate; eexists; reflexivity.
Qed.

Lemma request_signed (verb path : string) (payload : value) :
  makeLocalStackRequest verb path [] payload = axios_call (signed verb path payload).
Proof. reflexivity. Qed.

Lemma create_bucket_puts (bucket : value) (w : world) :
  negb (nullish bucket) = true ->
  exists ok w1,
    trace w1 = (trace w ++ [Requested (put_bucket bucket) ok])%list
    /\ ((ok = true /\ create_bucket bucket w = (Ok tt, w1))
        \/ (ok = false /\ exists e, create_bucket bucket w = (Throw e, w1))).
Proof.
  intros H. apply negb_true_iff in H.
  unfold create_bucket, bind, lift. rewrite (prop_opt_prop _ "name" H).
  rewrite request_signed.
  change (signed "PUT" ("/" ++ to_string (opt_prop bucket "name")) VUndefined)
    with (put_bucket bucket).
  unfold axios_call, perform.
  destruct (axios (put_bucket bucket) (env w)) as [[msg | resp] e'].
  - exists false. eexists (Build_world e' _). split; [reflexivity |].
    right. split; [reflexivity |]. eexists. reflexivity.
  - exists true. eexists (Build_world e' _). split; [reflexivity |].
    left. now split.
Qed.

(** X7.  The bucket reconstructor sends exactly one PUT for every entry of
    the list that is not null, in list order, to the path named by the
    entry; it counts as imported the requests the emulator accepted and as
    skipped everything else, null entries included. *)
Theorem bucket_import_counts_accepted_puts (state : value) (items : list value)
    (w : world) :
  lists state "buckets" items ->
  exists answers r w',
    importS3State state w = (Ok r, w')
    /\ List.length answers
       = List.length (filter (fun bucket => negb (nullish bucket)) items)
    /\ trace w'
       = (trace w
          ++ calls put_bucket (filter (fun bucket => negb (nullish bucket)) items)
               answers)%list
    /\ ImportCounts.imported r = accepted answers
    /\ ImportCounts.skipped r = len items - accepted answers.
Proof.
  intros H. destruct (lists_iterate _ _ _ H) as (listed & Hl & Hi).
  unfold importS3State, bind, lift. rewrite Hl, Hi.
  destruct (create_each_calls create_bucket (fun bucket => negb (nullish bucket))
              put_bucket create_bucket_refuses_null create_bucket_puts items 0 0 w)
    as (answers & r & w' & E & Hlen & Htr & Hi' & Hs).
  exists answers, r, w'. repeat split; trivial; lia.
Qed.

(** ** The name of a queue *)

Lemma split_slash_nonempty (s : string) : split_slash s <> [].
Proof.
  destruct s as [| c rest]; simpl; [discriminate |].
  destruct (Ascii.eqb c "/"); [discriminate |].
  destruct (split_slash rest); discriminate.
Qed.

Lemma split_slash_join (s : string) : join "/" (split_slash s) = s.
Proof.
  induction s as [| c rest IH]; simpl; [reflexivity |].
  destruct (Ascii.eqb c "/") eqn:Ec.
  - apply Ascii.eqb_eq in Ec. subst c.
    pose proof (split_slash_nonempty rest) as Hne.
    destruct (split_slash rest) as [| seg segs]; [contradiction |].
    cbn [join]. cbn [join] in IH. rewrite IH. reflexivity.
  - destruct (split_slash rest) as [| seg segs] eqn:Es.
    + now apply split_slash_nonempty in Es.
    + rewrite <- IH. destruct segs; reflexivity.
Qed.

Lemma has_slash_cons (c : ascii) (s : string) :
  has_slash (String c s) = (Ascii.eqb c "/" || has_slash s)%bool.
Proof.
  unfold has_slash. cbn [list_ascii_of_string existsb].
  now rewrite Ascii.eqb_sym.
Qed.

Lemma split_slash_segments (s : string) :
  Forall (fun seg => has_slash seg = false) (split_slash s).
Proof.
  induction s as [| c rest IH]; cbn [split_slash].
  - repeat constructor.
  - destruct (Ascii.eqb c "/") eqn:Ec.
    + constructor; [reflexivity | exact IH].
    + destruct (split_slash rest) as [| seg segs].
      * repeat constructor. now rewrite has_slash_cons, Ec.
      * inversion IH; subst. constructor; [| assumption].
        now rewrite has_slash_cons, Ec.
Qed.

Lemma append_assoc (a b c : string) : (a ++ b) ++ c = a ++ b ++ c.
Proof. induction a as [| x a IH]; simpl; [reflexivity | now rewrite IH]. Qed.

Lemma join_last (sep : string) (l : list string) (x : string) :
  l <> [] -> join sep (l ++ [x]) = join sep l ++ sep ++ x.
Proof.
  induction l as [| y rest IH]; [contradiction |]. intros _.
  destruct rest as [| z rest'].
  - reflexivity.
  - change (join sep ((y :: z :: rest') ++ [x]))
      with (y ++ sep ++ join sep ((z :: rest') ++ [x])).
    rewrite IH by discriminate.
    change (join sep (y :: z :: rest')) with (y ++ sep ++ join sep (z :: rest')).
    now rewrite !append_assoc.
Qed.

Lemma queue_name_is_last_segment (s : string) :
  exists name,
    queue_name (VStr s) = Ok (VStr name)
    /\ has_slash name = false
    /\ (s = name \/ exists before, s = before ++ "/" ++ name).
Proof.
  destruct (exists_last (split_slash_nonempty s)) as (init & name & E).
  exists name. simpl. unfold pop. rewrite E, rev_app_distr. simpl.
  split; [reflexivity |]. split.
  - pose proof (split_slash_segments s) as Hs. rewrite E in Hs.
    apply Forall_app in Hs. destruct Hs as [_ Hs]. now inversion Hs.
  - pose proof (split_slash_join s) as Hj. rewrite E in Hj.
    destruct init as [| y rest]; [left; now rewrite <- Hj |].
    right. exists (join "/" (y :: rest)).
    rewrite <- Hj. apply join_last. discriminate.
Qed.

Lemma create_queue_refuses (queueUrl : value) (w : world) :
  is_string queueUrl = false -> exists e, create_queue queueUrl w = (Throw e, w).
Proof.
  intros H. unfold create_queue, bind, lift.
  destruct queueUrl; try discriminate; eexists; reflexivity.
Qed.

Lemma create_queue_posts (queueUrl : value) (w : world) :
  is_string queueUrl = true ->
  exists ok w1,
    trace w1 = (trace w ++ [Requested (create_queue_named queueUrl) ok])%list
    /\ ((ok = true /\ create_queue queueUrl w = (Ok tt, w1))
        \/ (ok = false /\ exists e, create_queue queueUrl w = (Throw e, w1))).
Proof.
  intros H. destruct queueUrl as [| | | | s | |]; try discriminate.
  unfold create_queue, bind, lift, create_queue_named.
  destruct (queue_name_is_last_segment s) as (name & -> & _).
  rewrite request_signed. unfold axios_call, perform.
  match goal with |- context [axios ?r (env w)] =>
    destruct (axios r (env w)) as [[msg | resp] e']
  end.
  - exists false. eexists (Build_world e' _). split; [reflexivity |].
    right. split; [reflexivity |]. eexists. reflexivity.
  - exists true. eexists (Build_world e' _). split; [reflexivity |].
    left. now split.
Qed.

Lemma create_each_attempted (create : value -> M unit) :
  (forall item w, fst (create item w) <> Untyped) ->
  forall items imported skipped w,
  exists outcomes r w',
    create_each create items imported skipped w = (Ok r, w')
    /\ attempted create items w outcomes w'
    /\ ImportCounts.imported r = imported + accepted outcomes
    /\ ImportCounts.skipped r = skipped + len (filter negb outcomes)
    /\ accepted outcomes + len (filter negb outcomes) = len items.
Proof.
  intros Htyped items.
  induction items as [| item rest IH]; intros imported skipped w.
  - exists [], (ImportCounts.mk imported skipped), w. cbn [create_each].
    split; [reflexivity |]. split; [constructor |].
    unfold accepted, len. cbn. repeat split; lia.
  - cbn [create_each]. unfold bind at 1, try_catch, bind at 1, ret at 1 2.
    specialize (Htyped item w).
    destruct (create item w) as [[[] | e |] w1] eqn:E; cbn [fst] in Htyped;
      [| | contradiction].
    + destruct (IH (imported + 1) skipped w1)
        as (outcomes & r & w' & -> & Ha & Hi & Hs & Hl).
      exists (true :: outcomes), r, w'. split; [reflexivity |].
      split; [now apply attempted_created with (w1 := w1) |].
      rewrite accepted_cons, len_cons. cbn [filter negb]. repeat split; lia.
    + destruct (IH imported (skipped + 1) w1)
        as (outcomes & r & w' & -> & Ha & Hi & Hs & Hl).
      exists (false :: outcomes), r, w'. split; [reflexivity |].
      split; [now apply attempted_failed with (w1 := w1) (e := e) |].
      rewrite accepted_cons, !len_cons. cbn [filter negb].
      rewrite len_cons. repeat split; lia.
Qed.

(** C7.  In the bucket and the queue reconstructor a create call that
    throws adds one to [skipped] and the loop goes on with the remaining
    items.  For every listed state and every behaviour of the emulator the
    reconstructor returns; the create calls of its items were all made, in
    order, each in the world the one before left; [imported] is the number
    of those that returned and [skipped] the number of those that threw, so
    that [imported + skipped] is the number of listed items.  The create
    call of an entry sends one request and throws exactly when the
    emulator refuses it; for an entry that has no name to send it throws
    without a request. *)
Theorem create_failure_is_a_skip :
  (forall create item rest imported skipped w w1 e,
      create item w = (Throw e, w1) ->
      create_each create (item :: rest) imported skipped w
      = create_each create rest imported (skipped + 1) w1)
  /\ (forall state items w,
        lists state "buckets" items ->
        exists outcomes r w',
          importS3State state w = (Ok r, w')
          /\ attempted create_bucket items w outcomes w'
          /\ ImportCounts.imported r = accepted outcomes
          /\ ImportCounts.skipped r = len (filter negb outcomes)
          /\ ImportCounts.imported r + ImportCounts.skipped r = len items
          /\ 0 <= ImportCounts.imported r /\ 0 <= ImportCounts.skipped r)
  /\ (forall state items w,
        lists state "queues" items ->
        exists outcomes r w',
          importSQSState state w = (Ok r, w')
          /\ attempted create_queue items w outcomes w'
          /\ ImportCounts.imported r = accepted outcomes
          /\ ImportCounts.skipped r = len (filter negb outcomes)
          /\ ImportCounts.imported r + ImportCounts.skipped r = len items
          /\ 0 <= ImportCounts.imported r /\ 0 <= ImportCounts.skipped r)
  /\ (forall bucket w,
        (nullish bucket = true ->
         exists e, create_bucket bucket w = (Throw e, w))
        /\ (nullish bucket = false ->
            exists ok w1,
              trace w1 = (trace w ++ [Requested (put_bucket bucket) ok])%list
              /\ ((ok = true /\ create_bucket bucket w = (Ok tt, w1))
                  \/ (ok = false
                      /\ exists e, create_bucket bucket w = (Throw e, w1)))))
  /\ (forall queueUrl w,
        (is_string queueUrl = false ->
         exists e, create_queue queueUrl w = (Throw e, w))
        /\ (is_string queueUrl = true ->
            exists ok w1,
              trace w1
              = (trace w ++ [Requested (create_queue_named queueUrl) ok])%list
              /\ ((ok = true /\ create_queue queueUrl w = (Ok tt, w1))
                  \/ (ok = false
                      /\ exists e, create_queue queueUrl w = (Throw e, w1))))).
Proof.
  split; [| split; [| split; [| split]]].
  - intros. now apply create_each_skip with (e := e).
  - intros state items w H.
    destruct (lists_iterate _ _ _ H) as (listed & Hl & Hi).
    unfold importS3State, bind, lift. rewrite Hl, Hi.
    destruct (create_each_attempted create_bucket create_bucket_typed items 0 0 w)
      as (outcomes & r & w' & E & Ha & Himp & Hskip & Hsum).
    exists outcomes, r, w'. unfold accepted in *.
    pose proof (Zle_0_nat (List.length (filter (fun ok => ok) outcomes))).
    pose proof (Zle_0_nat (List.length (filter negb outcomes))).
    unfold len in *. repeat split; trivial; lia.
  - intros state items w H.
    destruct (lists_iterate _ _ _ H) as (listed & Hl & Hi).
    unfold importSQSState, bind, lift. rewrite Hl, Hi.
    destruct (create_each_attempted create_queue create_queue_typed items 0 0 w)
      as (outcomes & r & w' & E & Ha & Himp & Hskip & Hsum).
    exists outcomes, r, w'. unfold accepted in *.
    pose proof (Zle_0_nat (List.length (filter (fun ok => ok) outcomes))).
    pose proof (Zle_0_nat (List.length (filter negb outcomes))).
    unfold len in *. repeat split; trivial; lia.
  - intros bucket w. split; intros H.
    + apply create_bucket_refuses_null. now rewrite H.
    + apply create_bucket_puts. now rewrite H.
  - intros queueUrl w. split; intros H.
    + now apply create_queue_refuses.
    + now apply create_queue_posts.
Qed.

(** X8.  The queue reconstructor sends one CreateQueue request for every
    entry that is a string, in list order, and none for any other entry;
    the queue name it sends is the part of the stored URL after its last
    slash (the whole string when there is none).  Accepted requests are
    counted as imported, everything else as skipped. *)
Theorem queue_import_creates_by_last_segment (state : value)
    (items : list value) (w : world) :
  lists state "queues" items ->
  (exists answers r w',
      importSQSState state w = (Ok r, w')
      /\ List.length answers = List.length (filter is_string items)
      /\ trace w'
         = (trace w ++ calls create_queue_named (filter is_string items) answers)%list
      /\ ImportCounts.imported r = accepted answers
      /\ ImportCounts.skipped r = len items - accepted answers)
  /\ (forall queueUrl,
        exists name,
          body (create_queue_named (VStr queueUrl))
          = VObj [("Action", VStr "CreateQueue"); ("QueueName", VStr name);
                  ("Version", VStr "2012-11-05")]
          /\ has_slash name = false
          /\ (queueUrl = name \/ exists before, queueUrl = before ++ "/" ++ name)).
Proof.
  intros H. split.
  - destruct (lists_iterate _ _ _ H) as (listed & Hl & Hi).
    unfold importSQSState, bind, lift. rewrite Hl, Hi.
    destruct (create_each_calls create_queue is_string create_queue_named
                create_queue_refuses create_queue_posts items 0 0 w)
      as (answers & r & w' & E & Hlen & Htr & Hi' & Hs).
    exists answers, r, w'. repeat split; trivial; lia.
  - intros queueUrl.
    destruct (queue_name_is_last_segment queueUrl) as (name & E & Hn & Hs).
    exists name. unfold create_queue_named. rewrite E. now repeat split.
Qed.


(** ** The import loop *)

Lemma create_each_imported (create : value -> M unit) (items : list value) :
  forall imported skipped w r w',
    create_each create items imported skipped w = (Ok r, w') ->
    imported <= ImportCounts.imported r.
Proof.
  induction items as [| item rest IH]; intros imported skipped w r w' H; simpl in H.
  - apply ret_Ok in H. destruct H as [-> _]. simpl. lia.
  - bind_inv H Ecreate. destruct a; apply IH in H; lia.
Qed.

Lemma importServiceState_imported (service : string) (serviceState : value)
    (w w' : world) (r : ImportCounts.t) :
  importServiceState service serviceState w = (Ok r, w') ->
  0 <= ImportCounts.imported r.
Proof.
  unfold importServiceState.
  destruct (String.eqb _ "s3").
  { unfold importS3State. intros H. bind_inv H E1. bind_inv H E2.
    now apply create_each_imported in H. }
  destruct (String.eqb _ "dynamodb").
  { unfold importDynamoDBState, skip_all. intros H. bind_inv H E1. bind_inv H E2.
    ret_inv H. simpl. lia. }
  destruct (String.eqb _ "sqs").
  { unfold importSQSState. intros H. bind_inv H E1. bind_inv H E2.
    now apply create_each_imported in H. }
  destruct (String.eqb _ "sns").
  { unfold importSNSState, skip_all. intros H. bind_inv H E1. bind_inv H E2.
    ret_inv H. simpl. lia. }
  destruct (String.eqb _ "lambda").
  { unfold importLambdaState, skip_all. intros H. bind_inv H E1. bind_inv H E2.
    ret_inv H. simpl. lia. }
  intros H. ret_inv H. simpl. lia.
Qed.

(** What one pass of the loop does to the summary. *)
Lemma import_services_bookkeeping (found : list (string * value)) :
  forall importSummary w,
    (forall e, fst (import_services found importSummary w) <> Throw e)
    /\ forall summary w',
         import_services found importSummary w = (Ok summary, w') ->
         exists errors,
           ImportSummary.errors summary
           = (ImportSummary.errors importSummary ++ errors)%list
           /\ (List.length errors <= List.length found)%nat
           /\ Forall (failed_to_import found) errors
           /\ ImportSummary.importedResources importSummary
              <= ImportSummary.importedResources summary
           /\ ImportSummary.version summary = ImportSummary.version importSummary
           /\ ImportSummary.originalTimestamp summary
              = ImportSummary.originalTimestamp importSummary
           /\ ImportSummary.servicesFound summary
              = ImportSummary.servicesFound importSummary
           /\ ImportSummary.totalResources summary
              = ImportSummary.totalResources importSummary.
Proof.
  induction found as [| [service serviceState] rest IH]; intros s w.
  - split; [discriminate |]. intros summary w' H. simpl in H.
    apply ret_Ok in H. destruct H as [-> _].
    exists []. rewrite app_nil_r. repeat split; try constructor; lia.
  - assert (Hweak : forall errors,
              Forall (failed_to_import rest) errors ->
              Forall (failed_to_import ((service, serviceState) :: rest)) errors).
    { intros errors. apply Forall_impl. intros msg (sv & detail & Hin & ->).
      exists sv, detail. split; [now right | reflexivity]. }
    simpl. unfold bind at 1 3, try_catch, bind at 1 2, ret at 1 2 3 4.
    destruct (importServiceState service serviceState w) as [[r | e |] w1] eqn:E.
    + destruct (IH (add_result s r) w1) as [Hn Hb]. split; [exact Hn |].
      intros summary w' H. destruct (Hb _ _ H) as (errors & He & Hl & Hf & Hi & Hrest).
      exists errors. simpl in *. apply importServiceState_imported in E.
      repeat split; try tauto; [lia | now apply Hweak | lia].
    + destruct (IH (push_error s ("Failed to import " ++ service ++ ": " ++ message e)) w1)
        as [Hn Hb]. split; [exact Hn |].
      intros summary w' H. destruct (Hb _ _ H) as (errors & He & Hl & Hf & Hi & Hrest).
      exists (("Failed to import " ++ service ++ ": " ++ message e) :: errors).
      simpl in *. rewrite <- app_assoc in He.
      repeat split; try tauto; [lia |].
      constructor; [| now apply Hweak].
      exists service, (message e). split; [now left | reflexivity].
    + split; [discriminate |]. intros summary w' H. discriminate.
Qed.

Lemma failures_named (found : list (string * value)) :
  forall outcomes,
    (List.length (failures found outcomes) <= List.length found)%nat
    /\ Forall (failed_to_import found) (failures found outcomes).
Proof.
  induction found as [| [service serviceState] rest IH]; intros outcomes.
  - split; [cbn; lia | constructor].
  - assert (Hweak : forall errors,
              Forall (failed_to_import rest) errors ->
              Forall (failed_to_import ((service, serviceState) :: rest)) errors).
    { intros errors. apply Forall_impl. intros msg (sv & detail & Hin & ->).
      exists sv, detail. split; [now right | reflexivity]. }
    destruct outcomes as [| [result | e] others]; cbn [failures].
    + split; [cbn; lia | constructor].
    + destruct (IH others) as [Hl Hf]. split; [cbn [length]; lia | now apply Hweak].
    + destruct (IH others) as [Hl Hf]. split; [cbn [length]; lia |].
      constructor; [| now apply Hweak].
      exists service, (message e). split; [now left | reflexivity].
Qed.

Lemma import_services_reconstructed (found : list (string * value)) :
  forall importSummary w summary w',
    import_services found importSummary w = (Ok summary, w') ->
    exists outcomes,
      reconstructed found w outcomes w'
      /\ ImportSummary.errors summary
         = (ImportSummary.errors importSummary ++ failures found outcomes)%list
      /\ ImportSummary.importedResources summary
         = ImportSummary.importedResources importSummary
           + total_of ImportCounts.imported outcomes
      /\ ImportSummary.skippedResources summary
         = ImportSummary.skippedResources importSummary
           + total_of ImportCounts.skipped outcomes.
Proof.
  induction found as [| [service serviceState] rest IH];
    intros s w summary w' H; cbn [import_services] in H.
  - apply ret_Ok in H. destruct H as [-> ->]. exists [].
    split; [constructor |]. cbn. rewrite app_nil_r. repeat split; lia.
  - unfold bind at 1, try_catch, bind at 1, ret at 1 2 in H.
    destruct (importServiceState service serviceState w) as [[r | e |] w1] eqn:E;
      [| | discriminate].
    + apply IH in H. destruct H as (outcomes & Hr & He & Hi & Hs).
      exists (inl r :: outcomes).
      split; [now apply reconstructed_counted with (w1 := w1) |].
      cbn [failures total_of add_result ImportSummary.errors
           ImportSummary.importedResources ImportSummary.skippedResources] in *.
      repeat split; trivial; lia.
    + apply IH in H. destruct H as (outcomes & Hr & He & Hi & Hs).
      exists (inr e :: outcomes).
      split; [now apply reconstructed_failed with (w1 := w1) |].
      cbn [failures total_of push_error ImportSummary.errors
           ImportSummary.importedResources ImportSummary.skippedResources] in *.
      rewrite <- app_assoc in He. repeat split; trivial.
Qed.

(** X9.  A reconstructor that throws does not end the import: the loop over
    the services never throws.  In a run of the loop the reconstructors of
    all services ran, in order, each in the world the one before left; for
    each that threw the summary gains the message that names its service
    and carries the exception's text, in that order and with nothing else,
    and for each that returned its counts are added to the imported and
    skipped totals.  So there are at most as many messages as services; the
    imported count never decreases, and version, timestamp, service list
    and the total read from the file pass through unchanged. *)
Theorem import_loop_records_failures (found : list (string * value))
    (importSummary : ImportSummary.t) :
  never_throws (import_services found importSummary)
  /\ forall w summary w',
       import_services found importSummary w = (Ok summary, w') ->
       exists outcomes,
         reconstructed found w outcomes w'
         /\ ImportSummary.errors summary
            = (ImportSummary.errors importSummary ++ failures found outcomes)%list
         /\ ImportSummary.importedResources summary
            = ImportSummary.importedResources importSummary
              + total_of ImportCounts.imported outcomes
         /\ ImportSummary.skippedResources summary
            = ImportSummary.skippedResources importSummary
              + total_of ImportCounts.skipped outcomes
         /\ (List.length (failures found outcomes) <= List.length found)%nat
         /\ Forall (failed_to_import found) (failures found outcomes)
         /\ ImportSummary.importedResources importSummary
            <= ImportSummary.importedResources summary
         /\ ImportSummary.version summary = ImportSummary.version importSummary
         /\ ImportSummary.originalTimestamp summary
            = ImportSummary.originalTimestamp importSummary
         /\ ImportSummary.servicesFound summary
            = ImportSummary.servicesFound importSummary
         /\ ImportSummary.totalResources summary
            = ImportSummary.totalResources importSummary.
Proof.
  split.
  - intros w e. apply (import_services_bookkeeping found importSummary w).
  - intros w summary w' H.
    destruct (import_services_reconstructed _ _ _ _ _ H)
      as (outcomes & Hr & He & Hi & Hs).
    destruct (proj2 (import_services_bookkeeping found importSummary w) _ _ H)
      as (errors & _ & _ & _ & Hle & Hv & Ht & Hf & Hn).
    destruct (failures_named found outcomes) as [Hl Hm].
    exists outcomes. repeat split; trivial.
Qed.

(** X10.  Services of a snapshot whose names are none of the five kinds are
    passed over on import: they change nothing in the summary, record no
    error, and cause no request. *)
Theorem import_passes_over_unknown_kinds (found : list (string * value))
    (importSummary : ImportSummary.t) (w : world) :
  Forall (fun kv => known_kind (toLowerCase (fst kv)) = false) found ->
  import_services found importSummary w = (Ok importSummary, w).
Proof.
  intros H. revert importSummary.
  induction H as [| [service serviceState] rest Hk _ IH]; intros s; simpl.
  - reflexivity.
  - simpl in Hk. apply known_kind_false in Hk.
    destruct Hk as (H1 & H2 & H3 & H4 & H5).
    unfold bind at 1, try_catch, bind at 1, importServiceState.
    rewrite H1, H2, H3, H4, H5. unfold ret at 1 2.
    replace (add_result s (ImportCounts.mk 0 0)) with s; [apply IH |].
    destruct s. unfold add_result. simpl. now rewrite !Z.add_0_r.
Qed.


(** ** The import as a whole *)

Lemma shaped_summary_reads (stateData : value) :
  snapshot_shaped stateData = true ->
  exists found,
    prop stateData "version" = Ok (opt_prop stateData "version")
    /\ prop stateData "timestamp" = Ok (opt_prop stateData "timestamp")
    /\ prop stateData "services" = Ok (opt_prop stateData "services")
    /\ entries (opt_prop stateData "services") = Ok found
    /\ prop stateData "metadata" = Ok (opt_prop stateData "metadata")
    /\ prop (opt_prop stateData "metadata") "totalResources"
       = Ok (opt_prop (opt_prop stateData "metadata") "totalResources").
Proof.
  unfold snapshot_shaped. intros H.
  apply andb_true_iff in H. destruct H as [H Hm].
  apply andb_true_iff in H. destruct H as [Hd Hs].
  apply negb_true_iff in Hd, Hs, Hm.
  assert (Hf : exists found, entries (opt_prop stateData "services") = Ok found).
  { destruct (opt_prop stateData "services"); try discriminate; eexists; reflexivity. }
  destruct Hf as (found & Hf). exists found.
  rewrite !(prop_opt_prop stateData) by exact Hd.
  rewrite (prop_opt_prop _ "totalResources" Hm). now repeat split.
Qed.

(** X11.  An import whose file holds a snapshot but whose emulator does not
    answer the connectivity probe fails with the fixed message, whatever the
    transport error said, and sends nothing else: no reconstructor gets to
    issue a request. *)
Theorem import_stops_when_emulator_is_down (statePath content msg : string)
    (stateData : value) (w : world) (e1 e2 : Env) :
  readFile statePath (env w) = (inr content, e1) ->
  parse content = inr stateData ->
  snapshot_shaped stateData = true ->
  axios connectivity_probe e1 = (inl msg, e2) ->
  importState statePath w
  = (Ok (Failure not_accessible getImportTroubleshootingTips),
     {| env := e2;
        trace := trace w ++ [FileRead statePath true;
                             Requested connectivity_probe false] |}).
Proof.
  intros Hr Hp Hs Ha.
  destruct (shaped_summary_reads _ Hs) as (found & H1 & H2 & H3 & H4 & H5 & H6).
  unfold importState, performStateImport, try_catch, bind, lift, ret, throw,
    fs_readFile, yaml_parse, perform, validateLocalStackConnectivity, axios_get,
    axios_call, try_catch, bind, perform.
  rewrite Hr. simpl. rewrite Hp. unfold ret.
  rewrite H1, H2, H3, H4, H5, H6. simpl.
  change {| method := "get"; url := health_url; headers := [];
            body := VUndefined; timeout := Some 5000 |} with connectivity_probe.
  rewrite Ha. simpl. rewrite <- app_assoc. reflexivity.
Qed.

Lemma version_match {A} (version : value) (a b : A) :
  match version with VStr "1.0" => a | _ => b end
  = match version with
    | VStr s => if String.eqb s "1.0" then a else b
    | _ => b
    end.
Proof.
  destruct version as [| | | | s | |]; try reflexivity.
  destruct s as [| [[] [] [] [] [] [] [] []] s]; try reflexivity.
  destruct s as [| [[] [] [] [] [] [] [] []] s]; try reflexivity.
  destruct s as [| [[] [] [] [] [] [] [] []] s]; try reflexivity.
  destruct s; reflexivity.
Qed.

Lemma generateImportRecommendations_reads (summary : ImportSummary.t)
    (version : value) :
  let recommendations := generateImportRecommendations summary version in
  (In "State file version mismatch - some features may not work correctly"
      recommendations <-> version <> VStr "1.0")
  /\ (In "Some resources were skipped - they may already exist or require manual creation"
        recommendations <-> 0 < ImportSummary.skippedResources summary)
  /\ (In "Some resources failed to import - check LocalStack logs for details"
        recommendations <-> ImportSummary.errors summary <> [])
  /\ In "Verify imported resources match your expectations" recommendations
  /\ In "Test application functionality after import" recommendations.
Proof.
  unfold generateImportRecommendations. rewrite version_match.
  assert (Hv : forall s, String.eqb s "1.0" = false -> VStr s <> VStr "1.0").
  { intros s Hs E. inversion E; subst. discriminate. }
  assert (He : (0 <? len (ImportSummary.errors summary)) = true
               <-> ImportSummary.errors summary <> []).
  { destruct (ImportSummary.errors summary); unfold len; simpl.
    - split; [discriminate | congruence].
    - split; [discriminate | reflexivity]. }
  destruct (0 <? len (ImportSummary.errors summary)) eqn:E1;
    destruct (0 <? ImportSummary.skippedResources summary) eqn:E2;
    try apply Z.ltb_lt in E2; try apply Z.ltb_ge in E2;
    (destruct version as [| | | | s | |];
     [| | | | destruct (String.eqb s "1.0") eqn:E3;
             [apply String.eqb_eq in E3; subst s | apply Hv in E3] | |]);
    simpl; repeat split; intros;
    repeat match goal with
           | H : _ \/ _ |- _ => destruct H
           | H : False |- _ => contradiction
           | H : ?a = ?b :> string |- _ => discriminate H
           | H : VStr "1.0" <> VStr "1.0" |- _ => now contradiction H
           end;
    try (apply He; reflexivity);
    try (exfalso; apply He in H; discriminate H);
    try (exfalso; assert (Hn := proj2 He H); discriminate Hn);
    try lia; try discriminate; try assumption; tauto.
Qed.

(** X12.  A snapshot of another format version is imported all the same and
    flagged afterwards: in the answer of an import that got through, the
    version-mismatch advice is given exactly when the file's version is not
    the string 1.0, the advice on skipped resources exactly when some were
    skipped, the advice on failures exactly when an error was recorded, and
    the two closing advices always.  The version and the total in the
    summary are the file's own: those of the document parsed from the
    content that reading [statePath] gave at the start of the import. *)
Theorem import_advice_follows_summary (statePath : string) (w w' : world)
    (summary : ImportSummary.t) (recommendations : list string) :
  performStateImport statePath w = (Ok (summary, recommendations), w') ->
  (In "State file version mismatch - some features may not work correctly"
      recommendations <-> ImportSummary.version summary <> VStr "1.0")
  /\ (In "Some resources were skipped - they may already exist or require manual creation"
        recommendations <-> 0 < ImportSummary.skippedResources summary)
  /\ (In "Some resources failed to import - check LocalStack logs for details"
        recommendations <-> ImportSummary.errors summary <> [])
  /\ In "Verify imported resources match your expectations" recommendations
  /\ In "Test application functionality after import" recommendations
  /\ exists content e1 stateData,
       readFile statePath (env w) = (inr content, e1)
       /\ parse content = inr stateData
       /\ ImportSummary.version summary = opt_prop stateData "version"
       /\ ImportSummary.totalResources summary
          = opt_prop (opt_prop stateData "metadata") "totalResources".
Proof.
  unfold performStateImport. intros H.
  bind_inv H Eread. bind_inv H Eparse. bind_inv H Eversion.
  bind_inv H Etimestamp. bind_inv H Eservices. bind_inv H Efound.
  bind_inv H Emetadata. bind_inv H Etotal. bind_inv H Evalidate.
  bind_inv H Eloop. apply ret_Ok in H. destruct H as [H _].
  inversion H; subst; clear H.
  destruct (proj2 (import_services_bookkeeping _ _ _) _ _ Eloop)
    as (errors & _ & _ & _ & _ & Hv & _ & _ & Ht).
  simpl in Hv, Ht.
  pose proof (generateImportRecommendations_reads a8 a1) as Hrec.
  simpl in Hrec. rewrite <- Hv in Hrec at 2.
  destruct Hrec as (R1 & R2 & R3 & R4 & R5).
  repeat split; try tauto.
  unfold yaml_parse in Eparse.
  destruct (parse a) as [msg | stateData] eqn:Ep; [discriminate |].
  apply ret_Ok in Eparse. destruct Eparse as [-> _].
  destruct (fs_readFile_cases statePath w)
    as [(msg & e1 & _ & Ef) | (content & e1 & Er & Ef)];
    rewrite Ef in Eread; inversion Eread as [[Hc Hw]].
  exists content, e1, stateData. split; [exact Er |].
  split; [now rewrite Hc |].
  rewrite Hv, Ht. unfold opt_prop. rewrite Eversion, Emetadata, Etotal.
  now split.
Qed.


(** ** The summary of an export *)

Lemma dashed_has_no_colon_or_dot (s : string) :
  Forall (fun c => c <> ":"%char /\ c <> "."%char)
    (list_ascii_of_string (dashed s)).
Proof.
  induction s as [| c rest IH]; simpl; constructor; trivial.
  destruct (Ascii.eqb c ":") eqn:E1; simpl; [split; discriminate |].
  destruct (Ascii.eqb c ".") eqn:E2; simpl; [split; discriminate |].
  apply Ascii.eqb_neq in E1, E2. now split.
Qed.

Lemma performStateExport_summary (options : StateExportOptions.t)
    (w w' : world) (path : string) (summary : ExportSummary.t) :
  performStateExport options w = (Ok (path, summary), w') ->
  exists now timestamp localstackVersion exported,
    path = match StateExportOptions.outputPath options with
           | Some p => if String.eqb p "" then "localstack-state-" ++ dashed now ++ ".yml"
                       else p
           | None => "localstack-state-" ++ dashed now ++ ".yml"
           end
    /\ ExportSummary.exportPath summary = path
    /\ ExportSummary.recommendations summary
       = generateExportRecommendations
           (StateExportResult.mk "1.0" timestamp exported
              (Metadata.mk localstackVersion (StateExportOptions.services options)
                 (ExportSummary.totalResources summary))).
Proof.
  unfold performStateExport. intros H.
  bind_inv H Enow. bind_inv H Etimestamp. bind_inv H Eversion.
  bind_inv H Eloop. bind_inv H Ewrite. bind_inv H Estat.
  apply ret_Ok in H. destruct H as [H _]. inversion H; subst; clear H.
  exists a, a0, a1, (fst a2). simpl. now repeat split.
Qed.

Lemma export_advice_follows_total_aux (options : StateExportOptions.t)
    (w w' : world) (path : string) (summary : ExportSummary.t) :
  performStateExport options w = (Ok (path, summary), w') ->
  ExportSummary.totalResources summary = 0 ->
  In "No resources found - ensure LocalStack services are running and populated"
    (ExportSummary.recommendations summary).
Proof.
  intros H H0. apply performStateExport_summary in H.
  destruct H as (now & timestamp & version & exported & _ & _ & ->).
  unfold generateExportRecommendations. simpl. rewrite H0. now left.
Qed.

(** X13.  The advice of an export follows the total it reports: the
    empty-result advice is given exactly when that total is 0, the
    large-export advice exactly when it is above 100, never both, and the
    two advices on sharing the file are always the last two. *)
Theorem export_advice_follows_total (options : StateExportOptions.t)
    (w w' : world) (path : string) (summary : ExportSummary.t) :
  performStateExport options w = (Ok (path, summary), w') ->
  let recommendations := ExportSummary.recommendations summary in
  (In "No resources found - ensure LocalStack services are running and populated"
      recommendations <-> ExportSummary.totalResources summary = 0)
  /\ (In "Large state export - consider splitting by service for better performance"
        recommendations <-> 100 < ExportSummary.totalResources summary)
  /\ exists before,
       recommendations
       = (before ++ ["Share this file with team members to replicate the environment";
                     "Store in version control to track environment changes"])%list
       /\ (List.length before <= 1)%nat.
Proof.
  intros H. apply performStateExport_summary in H.
  destruct H as (now & timestamp & version & exported & _ & _ & ->).
  unfold generateExportRecommendations. simpl.
  destruct (Z.eqb_spec (ExportSummary.totalResources summary) 0) as [E0 | E0];
    destruct (Z.ltb_spec 100 (ExportSummary.totalResources summary)) as [E1 | E1];
    try lia;
    simpl; repeat split; intros;
    repeat match goal with
           | H : _ \/ _ |- _ => destruct H
           | H : False |- _ => contradiction
           | H : ?a = ?b :> string |- _ => discriminate H
           end;
    try lia; try tauto;
    try (eexists [_]; split; [reflexivity | simpl; lia]);
    try (exists []; split; [reflexivity | simpl; lia]).
Qed.

Lemma performStateExport_written (options : StateExportOptions.t)
    (w w' : world) (path : string) (summary : ExportSummary.t) :
  performStateExport options w = (Ok (path, summary), w') ->
  path = match StateExportOptions.outputPath options with
         | Some p =>
             if String.eqb p ""
             then "localstack-state-" ++ dashed (fst (toISOString (env w))) ++ ".yml"
             else p
         | None =>
             "localstack-state-" ++ dashed (fst (toISOString (env w))) ++ ".yml"
         end
  /\ exists requests content,
       trace w' = (trace w ++ requests ++ [FileWritten path content true])%list
       /\ Forall local_request requests.
Proof.
  unfold performStateExport. intros H.
  bind_inv H Enow. bind_inv H Etimestamp.
  assert (Hnow : a = fst (toISOString (env w)) /\ trace w0 = trace w).
  { unfold new_Date_toISOString in Enow.
    destruct (toISOString (env w)) as [s e'].
    inversion Enow; subst. now split. }
  destruct Hnow as [-> T1].
  apply new_Date_toISOString_trace in Etimestamp. destruct Etimestamp as [T2 _].
  bind_inv H Eversion. bind_inv H Eloop. bind_inv H Ewrite. bind_inv H Estat.
  apply getLocalStackVersion_local in Eversion.
  destruct Eversion as (evs1 & T3 & Q3).
  apply export_services_local in Eloop. destruct Eloop as (evs2 & T4 & Q4).
  apply perform_Ok in Ewrite. apply fs_stat_size_trace in Estat.
  apply ret_Ok in H. destruct H as [H ->]. inversion H; subst path summary; clear H.
  split; [reflexivity |].
  exists (evs1 ++ evs2)%list. eexists.
  split; [| now apply Forall_app].
  rewrite Estat, Ewrite, T4, T3, T2, T1, <- !app_assoc. reflexivity.
Qed.

(** X14.  An export writes where it is told to: a path that is given and
    not empty is used as it is.  Without one, or with the empty string, the
    file is named localstack-state-<stamp>.yml, where the stamp is the time
    the clock gave when the export started, with every colon and dot
    turned into a dash, so that the extension holds the only dot of the
    name.  The one file the export writes is written at that path, as the
    last event of the run, and the summary reports the same path. *)
Theorem export_path_is_given_or_stamped (options : StateExportOptions.t)
    (w w' : world) (path : string) (summary : ExportSummary.t) :
  performStateExport options w = (Ok (path, summary), w') ->
  let stamp := dashed (fst (toISOString (env w))) in
  ExportSummary.exportPath summary = path
  /\ (forall p,
        StateExportOptions.outputPath options = Some p -> p <> "" -> path = p)
  /\ (StateExportOptions.outputPath options = None
      \/ StateExportOptions.outputPath options = Some "" ->
      path = "localstack-state-" ++ stamp ++ ".yml"
      /\ Forall (fun c => c <> ":"%char /\ c <> "."%char)
           (list_ascii_of_string stamp))
  /\ exists requests content,
       trace w' = (trace w ++ requests ++ [FileWritten path content true])%list
       /\ Forall local_request requests.
Proof.
  intros H. cbv zeta.
  destruct (performStateExport_written _ _ _ _ _ H) as [Hp Ht].
  apply performStateExport_summary in H.
  destruct H as (now & timestamp & version & exported & _ & Hs & _).
  split; [exact Hs |]. split; [| split; [| exact Ht]].
  - intros p Ho Hne. rewrite Ho in Hp.
    destruct (String.eqb p "") eqn:E; [| exact Hp].
    apply String.eqb_eq in E. contradiction.
  - intros Ho. split.
    + destruct Ho as [Ho | Ho]; rewrite Ho in Hp; exact Hp.
    + apply dashed_has_no_colon_or_dot.
Qed.

Lemma getLocalStackVersion_trace (w w' : world) (o : outcome value) :
  getLocalStackVersion w = (o, w') ->
  exists ok, trace w' = (trace w ++ [Requested version_probe ok])%list.
Proof.
  unfold getLocalStackVersion, try_catch, bind, lift, ret, axios_get, axios_call,
    perform.
  change {| method := "get"; url := health_url; headers := [];
            body := VUndefined; timeout := None |} with version_probe.
  destruct (axios version_probe (env w)) as [[msg | health] e'].
  - intros H. inversion H. now exists false.
  - destruct (prop (data health) "version"); intros H; inversion H; now exists true.
Qed.

(** X15.  An export of no services asks the emulator for its version and
    nothing else, writes a snapshot with no services, and reports zero
    services, zero resources and the empty-result advice. *)
Theorem export_of_nothing (options : StateExportOptions.t) (w w' : world)
    (path : string) (summary : ExportSummary.t) :
  StateExportOptions.services options = [] ->
  performStateExport options w = (Ok (path, summary), w') ->
  ExportSummary.servicesExported summary = 0
  /\ ExportSummary.totalResources summary = 0
  /\ In "No resources found - ensure LocalStack services are running and populated"
       (ExportSummary.recommendations summary)
  /\ exists probe ok stateData,
       probe = version_probe
       /\ StateExportResult.services stateData = []
       /\ trace w'
          = (trace w
             ++ [Requested probe ok;
                 FileWritten path (stringify (StateExportResult.to_value stateData))
                   true])%list.
Proof.
  intros Hs H.
  assert (Hadvice := export_advice_follows_total_aux options w w' path summary H).
  unfold performStateExport in H. rewrite Hs in H.
  bind_inv H Enow. bind_inv H Etimestamp. bind_inv H Eversion.
  bind_inv H Eloop. inversion Eloop; subst; clear Eloop.
  bind_inv H Ewrite. bind_inv H Estat.
  apply new_Date_toISOString_trace in Enow, Etimestamp.
  destruct Enow as [T1 _]. destruct Etimestamp as [T2 _].
  apply getLocalStackVersion_trace in Eversion. destruct Eversion as (ok & T3).
  apply perform_Ok in Ewrite. apply fs_stat_size_trace in Estat.
  apply ret_Ok in H. destruct H as [H ->]. inversion H; subst path summary; clear H.
  cbn [ExportSummary.servicesExported ExportSummary.totalResources snd fst] in *.
  split; [reflexivity |]. split; [reflexivity |].
  split; [apply Hadvice; reflexivity |].
  exists version_probe, ok, (StateExportResult.mk "1.0" a0 [] (Metadata.mk a1 [] 0)).
  split; [reflexivity |]. split; [reflexivity |].
  rewrite Estat, Ewrite, T3, T2, T1, <- app_assoc. reflexivity.
Qed.


(** ** The network configuration generator *)

Lemma lookup_assign {A} (k k' : string) (v : A) (m : list (string * A)) :
  lookup k (assign k' v m) = if String.eqb k k' then Some v else lookup k m.
Proof.
  induction m as [| [k0 v0] m IH]; simpl.
  - reflexivity.
  - destruct (String.eqb_spec k' k0) as [-> | Hne]; simpl.
    + destruct (String.eqb k k0); reflexivity.
    + rewrite IH. destruct (String.eqb_spec k k0) as [-> | Hne'].
      * destruct (String.eqb_spec k0 k'); [congruence | reflexivity].
      * reflexivity.
Qed.

Lemma keys_assign_cases {A} (k : string) (v : A) (m : list (string * A)) :
  keys (assign k v m) = keys m \/ (~ In k (keys m) /\ keys (assign k v m) = (keys m ++ [k])%list).
Proof.
  induction m as [| [k0 v0] m IH]; simpl.
  - right. split; [tauto | reflexivity].
  - destruct (String.eqb_spec k k0) as [-> | Hne]; simpl.
    + now left.
    + destruct IH as [-> | [Hn ->]]; [now left | right].
      split; [intros [E | Hin]; [congruence | contradiction] | reflexivity].
Qed.

Lemma assign_keeps_distinct {A} (k : string) (v : A) (m : list (string * A)) :
  NoDup (keys m) -> NoDup (keys (assign k v m)).
Proof.
  intros H. destruct (keys_assign_cases k v m) as [-> | [Hn ->]]; trivial.
  apply NoDup_app; trivial.
  - repeat constructor. intros [].
  - intros x Hx [<- | []]. contradiction.
Qed.

Lemma spread_keeps_distinct {A} (extra base : list (string * A)) :
  NoDup (keys base) -> NoDup (keys (spread base extra)).
Proof.
  unfold spread. revert base.
  induction extra as [| [k v] rest IH]; intros base H; simpl; trivial.
  apply IH. now apply assign_keeps_distinct.
Qed.

Lemma keys_spread {A} (extra base : list (string * A)) (k : string) :
  In k (keys (spread base extra)) -> In k (keys base) \/ In k (keys extra).
Proof.
  unfold spread. revert base.
  induction extra as [| [k0 v0] rest IH]; intros base H; simpl in *.
  - now left.
  - apply IH in H. destruct H as [H | H]; [| right; now right].
    destruct (keys_assign_cases k0 v0 base) as [E | [_ E]]; rewrite E in H.
    + now left.
    + apply in_app_or in H. destruct H as [H | [<- | []]]; [now left |].
      right. now left.
Qed.

Lemma config_lookup (k service : string) (vars : list (string * string)) :
  lookup k
    match lookup service serviceConfigs with
    | Some config => spread vars config
    | None => vars
    end
  = match lookup service serviceConfigs with
    | Some config =>
        match lookup k config with
        | Some v => Some v
        | None => lookup k vars
        end
    | None => lookup k vars
    end.
Proof.
  unfold serviceConfigs. cbn [lookup].
  destruct (String.eqb service "lambda").
  { unfold spread; cbn [fold_left fst snd]. rewrite !lookup_assign. cbn [lookup].
    destruct (String.eqb_spec k "LAMBDA_REMOVE_CONTAINERS") as [-> | Hne];
      [reflexivity | destruct (String.eqb k "LAMBDA_EXECUTOR"); reflexivity]. }
  destruct (String.eqb service "s3").
  { unfold spread; cbn [fold_left fst snd]. rewrite !lookup_assign. cbn [lookup].
    destruct (String.eqb k "S3_SKIP_SIGNATURE_VALIDATION"); reflexivity. }
  destruct (String.eqb service "dynamodb").
  { unfold spread; cbn [fold_left fst snd]. rewrite !lookup_assign. cbn [lookup].
    destruct (String.eqb k "DYNAMODB_SHARE_DB"); reflexivity. }
  destruct (String.eqb service "sqs").
  { unfold spread; cbn [fold_left fst snd]. rewrite !lookup_assign. cbn [lookup].
    destruct (String.eqb k "SQS_ENDPOINT_STRATEGY"); reflexivity. }
  reflexivity.
Qed.


Lemma variable_owner (k owner v service : string) :
  In (k, (owner, v)) service_variables ->
  match lookup service serviceConfigs with
  | Some config => lookup k config
  | None => None
  end = if String.eqb service owner then Some v else None.
Proof.
  unfold service_variables, serviceConfigs. cbn [In lookup].
  intros [E | [E | [E | [E | [E | []]]]]]; inversion E; subst; clear E;
    destruct (String.eqb_spec service "lambda") as [-> | H1]; try reflexivity;
    destruct (String.eqb_spec service "s3") as [-> | H2]; try reflexivity;
    destruct (String.eqb_spec service "dynamodb") as [-> | H3]; try reflexivity;
    destruct (String.eqb_spec service "sqs") as [-> | H4]; reflexivity.
Qed.

Lemma base_variable_unowned (k v service : string) (services : list string) :
  In (k, v) (baseVars services) ->
  match lookup service serviceConfigs with
  | Some config => lookup k config
  | None => None
  end = None.
Proof.
  unfold baseVars, serviceConfigs. cbn [In lookup].
  intros [E | [E | [E | [E | [E | []]]]]]; inversion E; subst; clear E;
    destruct (String.eqb service "lambda"); try reflexivity;
    destruct (String.eqb service "s3"); try reflexivity;
    destruct (String.eqb service "dynamodb"); try reflexivity;
    destruct (String.eqb service "sqs"); reflexivity.
Qed.

Lemma environment_fold (k : string) (added : string -> option string) :
  (forall service,
      match lookup service serviceConfigs with
      | Some config => lookup k config
      | None => None
      end = added service) ->
  forall services vars,
    lookup k
      (fold_left
         (fun vars service =>
            match lookup service serviceConfigs with
            | Some config => spread vars config
            | None => vars
            end) services vars)
    = match find (fun service =>
                    match added service with Some _ => true | None => false end)
              (rev services) with
      | Some service => added service
      | None => lookup k vars
      end.
Proof.
  intros Ha services. induction services as [| service rest IH] using rev_ind;
    intros vars.
  - reflexivity.
  - rewrite fold_left_app, rev_app_distr. cbn [fold_left rev app find].
    rewrite config_lookup. specialize (Ha service).
    destruct (lookup service serviceConfigs) as [config |].
    + rewrite Ha. destruct (added service) eqn:E.
      * now rewrite E.
      * apply IH.
    + rewrite <- Ha. apply IH.
Qed.

Lemma find_owner (owner v : string) (services : list string) :
  match find (fun service =>
                match (if String.eqb service owner then Some v else None) with
                | Some _ => true
                | None => false
                end) services with
  | Some service => if String.eqb service owner then Some v else None
  | None => None
  end = if mem owner services then Some v else None.
Proof.
  unfold mem. induction services as [| service rest IH]; cbn [find existsb].
  - reflexivity.
  - rewrite (String.eqb_sym owner service).
    destruct (String.eqb service owner) eqn:E; cbn [orb].
    + now rewrite E.
    + exact IH.
Qed.

Lemma mem_rev (s : string) (l : list string) : mem s (rev l) = mem s l.
Proof.
  unfold mem. destruct (existsb (String.eqb s) l) eqn:E.
  - apply existsb_exists in E. destruct E as (x & Hx & Hs).
    apply existsb_exists. exists x. split; [now apply in_rev in Hx | exact Hs].
  - destruct (existsb (String.eqb s) (rev l)) eqn:E'; trivial.
    apply existsb_exists in E'. destruct E' as (x & Hx & Hs).
    rewrite <- E. symmetry. apply existsb_exists. exists x.
    split; [now apply in_rev | exact Hs].
Qed.

Lemma environment_keys (services : list string) :
  forall vars k,
    In k (keys (fold_left
                  (fun vars service =>
                     match lookup service serviceConfigs with
                     | Some config => spread vars config
                     | None => vars
                     end) services vars)) ->
    In k (keys vars) \/ In k (keys service_variables).
Proof.
  induction services as [| service rest IH]; intros vars k H; cbn [fold_left] in H.
  - now left.
  - apply IH in H. destruct H as [H | H]; [| now right].
    unfold serviceConfigs in H. cbn [lookup] in H.
    destruct (String.eqb service "lambda");
      [| destruct (String.eqb service "s3");
         [| destruct (String.eqb service "dynamodb");
            [| destruct (String.eqb service "sqs")]]];
      try (now left);
      apply keys_spread in H; (destruct H as [H | H]; [now left | right]);
      simpl in H |- *; tauto.
Qed.

Lemma environment_distinct (services : list string) :
  forall vars,
    NoDup (keys vars) ->
    NoDup (keys (fold_left
                   (fun vars service =>
                      match lookup service serviceConfigs with
                      | Some config => spread vars config
                      | None => vars
                      end) services vars)).
Proof.
  induction services as [| service rest IH]; intros vars H; cbn [fold_left].
  - exact H.
  - apply IH. destruct (lookup service serviceConfigs); trivial.
    now apply spread_keeps_distinct.
Qed.

Lemma base_variables_kept (services : list string) (k v : string) :
  In (k, v) (baseVars services) ->
  lookup k (generateEnvironmentVariables services) = Some v.
Proof.
  intros Hin. unfold generateEnvironmentVariables.
  rewrite (environment_fold k (fun _ => None)).
  - replace (find (fun _ : string => false) (rev services)) with (@None string).
    + unfold baseVars in *. cbn [In] in Hin.
      destruct Hin as [E | [E | [E | [E | [E | []]]]]]; inversion E; reflexivity.
    + induction (rev services); simpl; trivial.
  - intros service. now apply base_variable_unowned with (v := v) (services := services).
Qed.

(** X16.  The environment variables generated for a list of services: the
    five base variables always keep their fixed values and SERVICES is the
    list joined by commas; each service-specific variable is present, with
    its fixed value, exactly when its service is in the list under its
    exact lower-case name; no other variable appears and none appears
    twice, however often or in whatever order services are named. *)
Theorem environment_variables_follow_services (services : list string) :
  let vars := generateEnvironmentVariables services in
  NoDup (keys vars)
  /\ (forall k v, In (k, v) (baseVars services) -> lookup k vars = Some v)
  /\ (forall k owner v,
        In (k, (owner, v)) service_variables ->
        lookup k vars = if mem owner services then Some v else None)
  /\ (forall k,
        In k (keys vars) ->
        In k (keys (baseVars services)) \/ In k (keys service_variables)).
Proof.
  unfold generateEnvironmentVariables. cbv zeta. split; [| split; [| split]].
  - apply environment_distinct. unfold baseVars. cbn [keys map fst].
    repeat constructor; simpl; intuition discriminate.
  - intros k v. apply base_variables_kept.
  - intros k owner v Hin.
    rewrite (environment_fold k (fun service =>
               if String.eqb service owner then Some v else None)).
    + rewrite <- (mem_rev owner services).
      assert (Hbase : lookup k (baseVars services) = None).
      { unfold service_variables, baseVars in *. cbn [In] in Hin.
        destruct Hin as [E | [E | [E | [E | [E | []]]]]]; inversion E; reflexivity. }
      rewrite Hbase. apply find_owner.
    + intros service. now apply variable_owner.
  - apply environment_keys.
Qed.


Lemma mem_app (s : string) (l1 l2 : list string) :
  mem s (l1 ++ l2)%list = mem s l1 || mem s l2.
Proof. unfold mem. apply existsb_app. Qed.

Lemma string_items_strings (l : list string) : string_items (strings l) = l.
Proof.
  unfold string_items, strings. induction l as [| s rest IH]; simpl.
  - reflexivity.
  - now rewrite IH.
Qed.

(** X17.  The compose document: the container joins exactly the network the
    document declares; the SERVICES entry of its environment carries the
    value of the SERVICES variable [generateEnvironmentVariables] gives;
    PERSISTENCE=1 and the data volume are present exactly when the
    persistence flag is given as true, so that leaving the flag out gives
    the configuration of passing false, whatever default [generateConfig]
    declares. *)
Theorem compose_follows_options
    (name : string) (services : list string)
    (network : option string) (persistence : option bool) :
  let options := NetworkConfigOptions.mk name services network persistence in
  let container := at_path (compose options) ["services"; name] in
  let enabled := match persistence with Some true => true | _ => false end in
  (exists joined,
      string_items (at_path container ["networks"]) = [joined]
      /\ at_path (compose options) ["networks"]
         = VObj [(joined, VObj [("driver", VStr "bridge")])])
  /\ (exists v,
        lookup "SERVICES" (generateEnvironmentVariables services) = Some v
        /\ In ("SERVICES=" ++ v)
              (string_items (at_path container ["environment"])))
  /\ mem "PERSISTENCE=1" (string_items (at_path container ["environment"]))
     = enabled
  /\ mem "./localstack-data:/var/lib/localstack"
       (string_items (at_path container ["volumes"]))
     = enabled
  /\ generateConfig (NetworkConfigOptions.mk name services network None)
     = generateConfig (NetworkConfigOptions.mk name services network (Some false)).
Proof.
  cbv zeta.
  assert (Hc : forall fields,
             at_path (VObj [("version", VStr "3.8");
                            ("services", VObj [(name, VObj fields)]);
                            ("networks",
                              VObj [(match network with
                                     | Some n => n
                                     | None => "localstack-network"
                                     end, VObj [("driver", VStr "bridge")])])])
               ["services"; name] = VObj fields).
  { intros fields. unfold at_path. cbn [fold_left opt_prop prop lookup].
    change (String.eqb "services" "version") with false.
    change (String.eqb "services" "services") with true.
    cbn [opt_prop prop lookup]. now rewrite String.eqb_refl. }
  unfold compose. cbn [NetworkConfigOptions.containerName
    NetworkConfigOptions.services NetworkConfigOptions.customNetworkName
    NetworkConfigOptions.enablePersistence].
  rewrite Hc. clear Hc.
  remember (strings ["4566:4566"]) as ports.
  match goal with
  | |- context [("environment", strings ?l)] =>
      remember (strings l) as environment eqn:He
  end.
  match goal with
  | |- context [("volumes", strings ?l)] =>
      remember (strings l) as volumes eqn:Hv
  end.
  match goal with
  | |- context [("networks", strings ?l)] =>
      remember (strings l) as networks eqn:Hn
  end.
  assert (Pe : at_path (VObj [("container_name", VStr name);
                 ("image", VStr "localstack/localstack:latest");
                 ("ports", ports); ("environment", environment);
                 ("volumes", volumes); ("networks", networks);
                 ("healthcheck",
                   VObj [("test",
                           strings ["CMD"; "curl"; "-f";
                                    "http://localhost:4566/_localstack/health"]);
                         ("interval", VStr "30s"); ("timeout", VStr "10s");
                         ("retries", VNum 5); ("start_period", VStr "30s")])])
               ["environment"] = environment) by reflexivity.
  assert (Pv : at_path (VObj [("container_name", VStr name);
                 ("image", VStr "localstack/localstack:latest");
                 ("ports", ports); ("environment", environment);
                 ("volumes", volumes); ("networks", networks);
                 ("healthcheck",
                   VObj [("test",
                           strings ["CMD"; "curl"; "-f";
                                    "http://localhost:4566/_localstack/health"]);
                         ("interval", VStr "30s"); ("timeout", VStr "10s");
                         ("retries", VNum 5); ("start_period", VStr "30s")])])
               ["volumes"] = volumes) by reflexivity.
  assert (Pn : at_path (VObj [("container_name", VStr name);
                 ("image", VStr "localstack/localstack:latest");
                 ("ports", ports); ("environment", environment);
                 ("volumes", volumes); ("networks", networks);
                 ("healthcheck",
                   VObj [("test",
                           strings ["CMD"; "curl"; "-f";
                                    "http://localhost:4566/_localstack/health"]);
                         ("interval", VStr "30s"); ("timeout", VStr "10s");
                         ("retries", VNum 5); ("start_period", VStr "30s")])])
               ["networks"] = networks) by reflexivity.
  rewrite Pe, Pv, Pn. clear Pe Pv Pn. subst environment volumes networks.
  rewrite !string_items_strings.
  split; [| split; [| split; [| split]]].
  - eexists. split; reflexivity.
  - exists (join "," services). split.
    + apply base_variables_kept. unfold baseVars. simpl. tauto.
    + now left.
  - rewrite mem_app. unfold mem at 1. cbn [existsb].
    replace (String.eqb "PERSISTENCE=1" ("SERVICES=" ++ join "," services))
      with false by reflexivity.
    destruct persistence as [[|] |]; reflexivity.
  - rewrite mem_app. destruct persistence as [[|] |]; reflexivity.
  - reflexivity.
Qed.


(** ** The queue and the topic extractor *)

Lemma export_listing_lists_once (list_key : string) (query : value)
    (result_key item_key : string) (w : world) :
  exists answered state w',
    export_listing list_key query result_key item_key w = (Ok state, w')
    /\ trace w' = (trace w ++ [Requested (signed "POST" "/" query) answered])%list
    /\ (answered = false -> state = service_state list_key (VArr []) (VNum 0))
    /\ forall listing e1 items,
         axios (signed "POST" "/" query) (env w) = (inr listing, e1) ->
         opt_prop (opt_prop (data listing) result_key) item_key = VArr items ->
         state = service_state list_key (VArr items) (VNum (len items)).
Proof.
  unfold export_listing, try_catch, bind. rewrite request_signed.
  unfold axios_call, perform.
  destruct (axios (signed "POST" "/" query) (env w)) as [[msg | listing] e1].
  - exists false. eexists _, _. split; [reflexivity |]. split; [reflexivity |].
    split; [reflexivity | discriminate].
  - exists true. unfold lift.
    destruct (prop (data listing) result_key) as [result | e |] eqn:Ep.
    + eexists _, _. split; [reflexivity |]. split; [reflexivity |].
      split; [discriminate |].
      intros listing' e1' items Ha Hi. inversion Ha; subst listing' e1'.
      replace (opt_prop (data listing) result_key) with result in Hi
        by (unfold opt_prop; now rewrite Ep).
      rewrite Hi. unfold or_else, truthy, opt_prop, prop.
      change (String.eqb "length" "length") with true. cbv iota.
      destruct (Z.eqb_spec (len items) 0) as [E0 | E0]; cbn [negb].
      * now rewrite E0.
      * reflexivity.
    + eexists _, _. split; [reflexivity |]. split; [reflexivity |].
      split; [discriminate |].
      intros listing' e1' items Ha Hi. inversion Ha; subst listing' e1'.
      replace (opt_prop (data listing) result_key) with VUndefined in Hi
        by (unfold opt_prop; now rewrite Ep).
      discriminate.
    + now apply prop_typed in Ep.
Qed.

(** X29.  The queue and the topic extractor each send one request, the
    signed POST of ListQueues or of ListTopics, and nothing else, whatever
    the detail flag of the export; they always return.  An array the
    emulator lists under QueueUrl or under Topics is stored as it is and
    counted by its length; a refused request gives the empty state. *)
Theorem queues_and_topics_are_listed_once (w : world) :
  (exists answered state w',
      let listQueues := signed "POST" "/" (query_action "ListQueues" "2012-11-05") in
      exportSQSState w = (Ok state, w')
      /\ trace w' = (trace w ++ [Requested listQueues answered])%list
      /\ (answered = false -> state = service_state "queues" (VArr []) (VNum 0))
      /\ forall listing e1 urls,
           axios listQueues (env w) = (inr listing, e1) ->
           opt_prop (opt_prop (data listing) "ListQueuesResult") "QueueUrl"
           = VArr urls ->
           state = service_state "queues" (VArr urls) (VNum (len urls)))
  /\ (exists answered state w',
        let listTopics := signed "POST" "/" (query_action "ListTopics" "2010-03-31") in
        exportSNSState w = (Ok state, w')
        /\ trace w' = (trace w ++ [Requested listTopics answered])%list
        /\ (answered = false -> state = service_state "topics" (VArr []) (VNum 0))
        /\ forall listing e1 topics,
             axios listTopics (env w) = (inr listing, e1) ->
             opt_prop (opt_prop (data listing) "ListTopicsResult") "Topics"
             = VArr topics ->
             state = service_state "topics" (VArr topics) (VNum (len topics))).
Proof.
  split; apply export_listing_lists_once.
Qed.

(** ** The health check *)

Section Health.

Context {C : Clock P}.

Lemma Date_now_run (w w' : world) (o : outcome Z) :
  Date_now w = (o, w') -> trace w' = trace w /\ exists t, o = Ok t.
Proof.
  unfold Date_now. destruct (clock (env w)) as [t e'].
  intros H. inversion H. split; [reflexivity | now exists t].
Qed.

Lemma Date_now_returns : returns Date_now.
Proof.
  intros w. unfold Date_now. destruct (clock (env w)) as [t e']. now eexists _, _.
Qed.

Lemma adds_Date_now (Q : event -> Prop) : adds Q Date_now.
Proof.
  apply adds_nothing. intros w o w' E. now apply Date_now_run in E.
Qed.

Lemma adds_new_Date (Q : event -> Prop) : adds Q new_Date_toISOString.
Proof.
  apply adds_nothing. intros w o w' E. now apply new_Date_toISOString_trace in E.
Qed.

Lemma new_Date_returns : returns new_Date_toISOString.
Proof.
  intros w. unfold new_Date_toISOString.
  destruct (toISOString (env w)) as [s e']. now eexists _, _.
Qed.

Lemma axios_get_typed (u : string) (limit : option Z) : typed (axios_get u limit).
Proof. intros w. apply axios_call_typed. Qed.

Lemma axios_get_probe (endpoint path : string) (limit : option Z) :
  axios_get (without_trailing_slash endpoint ++ path) limit
  = axios_call (probe endpoint path limit).
Proof. reflexivity. Qed.

Lemma adds_probe (endpoint path : string) (limit : option Z) :
  prefix "/_localstack/" path = true ->
  adds (probes endpoint)
    (axios_get (without_trailing_slash endpoint ++ path) limit).
Proof.
  intros Hp. rewrite axios_get_probe. unfold axios_call.
  apply adds_perform; simpl; now exists path, limit.
Qed.

Lemma entries_truthy (v : value) :
  truthy v = true -> entries v = Ok (own_entries v).
Proof. unfold own_entries. destruct v; simpl; intros H; congruence. Qed.

Lemma entries_typed (v : value) : entries v <> Untyped.
Proof. destruct v; discriminate. Qed.

Lemma addPerformanceRecommendations_returns (baseUrl : string)
    (recommendations : list string) :
  returns (addPerformanceRecommendations baseUrl recommendations).
Proof.
  unfold addPerformanceRecommendations.
  apply returns_try_catch; [| intros e; apply returns_ret].
  apply typed_bind; [apply returns_typed, Date_now_returns | intros start].
  apply typed_bind; [apply axios_get_typed | intros r].
  apply typed_bind; [apply returns_typed, Date_now_returns | intros finish].
  apply typed_try_catch; [| intros e; apply typed_ret].
  apply typed_bind; [apply axios_get_typed | intros r'].
  apply typed_bind; [apply typed_lift, prop_typed | intros x]. apply typed_ret.
Qed.

Lemma performHealthCheck_typed (endpoint : string) :
  typed (performHealthCheck endpoint).
Proof.
  unfold performHealthCheck.
  apply typed_bind; [apply axios_get_typed | intros r].
  apply typed_bind; [apply typed_lift, prop_typed | intros declared].
  apply typed_bind.
  { destruct (truthy declared); [| apply typed_ret].
    apply typed_bind; [apply typed_lift, entries_typed | intros l; apply typed_ret]. }
  intros services.
  apply typed_bind.
  { apply typed_try_catch; [| intros e; apply typed_ret].
    apply typed_bind; [apply axios_get_typed | intros r'; apply typed_ret]. }
  intros diagnosed.
  apply typed_bind.
  { apply typed_try_catch; [| intros e; apply typed_ret].
    apply typed_bind; [apply axios_get_typed | intros r'; apply typed_ret]. }
  intros initStatus.
  apply typed_bind;
    [apply returns_typed, addPerformanceRecommendations_returns | intros recs].
  apply typed_bind; [apply returns_typed, new_Date_returns | intros ts].
  apply typed_ret.
Qed.

Lemma addPerformanceRecommendations_probes (endpoint : string)
    (recommendations : list string) :
  adds (probes endpoint)
    (addPerformanceRecommendations (without_trailing_slash endpoint)
       recommendations).
Proof.
  unfold addPerformanceRecommendations.
  repeat first [ apply adds_Date_now | apply adds_probe; reflexivity | adds_step ].
Qed.

Lemma performHealthCheck_probes (endpoint : string) :
  adds (probes endpoint) (performHealthCheck endpoint).
Proof.
  unfold performHealthCheck.
  apply adds_bind; [apply adds_probe; reflexivity | intros r].
  apply adds_bind; [apply adds_lift | intros declared].
  apply adds_bind.
  { destruct (truthy declared); repeat adds_step. }
  intros services.
  apply adds_bind.
  { apply adds_try_catch; [| intros e; apply adds_ret].
    apply adds_bind; [apply adds_probe; reflexivity | intros r'; apply adds_ret]. }
  intros diagnosed.
  apply adds_bind.
  { apply adds_try_catch; [| intros e; apply adds_ret].
    apply adds_bind; [apply adds_probe; reflexivity | intros r'; apply adds_ret]. }
  intros initStatus.
  apply adds_bind; [apply addPerformanceRecommendations_probes | intros recs].
  apply adds_bind; [apply adds_new_Date | intros ts; apply adds_ret].
Qed.

Lemma health_check_returns (endpoint : string) : returns (checkHealth endpoint).
Proof.
  unfold checkHealth. apply returns_try_catch.
  - apply typed_bind; [apply performHealthCheck_typed | intros r; apply typed_ret].
  - intros e. apply returns_bind; [apply new_Date_returns |].
    intros ts. apply returns_ret.
Qed.

(** X18.  A health check always answers, with a result or with an error
    result, and never raises; whatever it answers, it has sent the
    emulator nothing but GET requests, without headers or body, to paths
    under /_localstack/ below the endpoint it was given. *)
Theorem health_check_always_answers (endpoint : string) :
  returns (checkHealth endpoint)
  /\ adds (probes endpoint) (checkHealth endpoint).
Proof.
  unfold checkHealth. split.
  - apply returns_try_catch.
    + apply typed_bind; [apply performHealthCheck_typed | intros r; apply typed_ret].
    + intros e. apply returns_bind; [apply new_Date_returns |].
      intros ts. apply returns_ret.
  - apply adds_try_catch.
    + apply adds_bind; [apply performHealthCheck_probes | intros r; apply adds_ret].
    + intros e. apply adds_bind; [apply adds_new_Date | intros ts; apply adds_ret].
Qed.


Lemma bind_of_Ok {A B} (c : M A) (f : A -> M B) (w w1 : world) (a : A) :
  c w = (Ok a, w1) -> bind c f w = f a w1.
Proof. intros E. unfold bind. now rewrite E. Qed.

Lemma bind_of_Throw {A B} (c : M A) (f : A -> M B) (w w1 : world) (e : exn) :
  c w = (Throw e, w1) -> bind c f w = (Throw e, w1).
Proof. intros E. unfold bind. now rewrite E. Qed.

Lemma returns_not_Throw {A} (c : M A) (w w' : world) (e : exn) :
  returns c -> c w <> (Throw e, w').
Proof. intros R E. destruct (R w) as (a & w1 & E'). congruence. Qed.

Lemma probe_block_returns {A} (u : string) (limit : option Z)
    (f : response -> A) (fallback : A) :
  returns (try_catch (r <- axios_get u limit ;; ret (f r))
             (fun _ => ret fallback)).
Proof.
  apply returns_try_catch; [| intros e; apply returns_ret].
  apply typed_bind; [apply axios_get_typed | intros r; apply typed_ret].
Qed.

Lemma health_probe_run (endpoint : string) (w : world) :
  axios_get (without_trailing_slash endpoint ++ "/_localstack/health")
    (Some 5000) w
  = match axios (health_probe endpoint) (env w) with
    | (inl msg, e1) =>
        (Throw (AxiosError msg),
         {| env := e1;
            trace := trace w ++ [Requested (health_probe endpoint) false] |})
    | (inr health, e1) =>
        (Ok health,
         {| env := e1;
            trace := trace w ++ [Requested (health_probe endpoint) true] |})
    end.
Proof. reflexivity. Qed.

Lemma performHealthCheck_Throw (endpoint : string) (w w' : world) (e : exn) :
  performHealthCheck endpoint w = (Throw e, w') ->
  match axios (health_probe endpoint) (env w) with
  | (inl msg, e1) =>
      e = AxiosError msg
      /\ w' = {| env := e1;
                 trace := trace w ++ [Requested (health_probe endpoint) false] |}
  | (inr health, e1) =>
      nullish (data health) = true
      /\ prop (data health) "services" = Throw e
      /\ w' = {| env := e1;
                 trace := trace w ++ [Requested (health_probe endpoint) true] |}
  end.
Proof.
  unfold performHealthCheck. intros H.
  apply bind_run in H. rewrite health_probe_run in H.
  destruct (axios (health_probe endpoint) (env w)) as [[msg | health] e1].
  - destruct H as [(a & w1 & E & _) | [(e' & E & He) | [E _]]];
      try discriminate.
    inversion E; subst. inversion He. now split.
  - destruct H as [(a & w1 & E & H) | [(e' & E & He) | [E _]]];
      try discriminate.
    inversion E; subst a w1. clear E.
    apply bind_run in H.
    destruct H as [(declared & w1 & E & H) | [(e' & E & He) | [E _]]].
    + exfalso. revert H.
      match goal with
      | |- ?rest _ = _ -> _ => assert (R : returns rest)
      end.
      { apply returns_bind.
        - destruct (truthy declared) eqn:Et; [| apply returns_ret].
          intros w0. unfold bind, lift. rewrite (entries_truthy _ Et).
          now eexists _, _.
        - intros services.
          apply returns_bind; [apply probe_block_returns | intros diagnosed].
          apply returns_bind; [apply probe_block_returns | intros initStatus].
          apply returns_bind;
            [apply addPerformanceRecommendations_returns | intros recs].
          apply returns_bind; [apply new_Date_returns | intros ts].
          apply returns_ret. }
      apply returns_not_Throw, R.
    + unfold lift in E. inversion E; subst. inversion He; subst.
      repeat split; trivial.
      destruct (data health); simpl in *; try discriminate; reflexivity.
    + unfold lift in E. inversion E. now apply prop_typed in H0.
Qed.

Lemma checkHealth_run (endpoint : string) (w : world) :
  checkHealth endpoint w
  = match performHealthCheck endpoint w with
    | (Ok result, w1) => (Ok (inl result), w1)
    | (Throw e, w1) =>
        (Ok (inr (ErrorResult.mk "unhealthy" (message e)
                    getConnectionFailureRecommendations
                    (fst (toISOString (env w1))))),
         {| env := snd (toISOString (env w1)); trace := trace w1 |})
    | (Untyped, w1) => (Untyped, w1)
    end.
Proof.
  unfold checkHealth, try_catch, bind, ret, new_Date_toISOString.
  destruct (performHealthCheck endpoint w) as [[r | e |] w1]; try reflexivity.
  now destruct (toISOString (env w1)).
Qed.

Lemma performHealthCheck_Ok_first (endpoint : string) (w w' : world)
    (result : HealthCheckResult.t) :
  performHealthCheck endpoint w = (Ok result, w') ->
  exists health e1,
    axios (health_probe endpoint) (env w) = (inr health, e1)
    /\ nullish (data health) = false.
Proof.
  unfold performHealthCheck. intros H.
  apply bind_Ok in H. destruct H as (health & w1 & E & H).
  rewrite health_probe_run in E.
  destruct (axios (health_probe endpoint) (env w)) as [[msg | health'] e1];
    [discriminate |].
  inversion E; subst health' w1. clear E.
  apply bind_Ok in H. destruct H as (declared & w2 & E & _).
  unfold lift in E. exists health, e1. split; [reflexivity |].
  destruct (data health); simpl in *; try reflexivity; discriminate.
Qed.

(** X19.  When the check answers with an error result and when with a
    health result.  If the first request fails, the answer is the error
    result: overall unhealthy, the message of the failure, the six fixed
    recommendations; the same happens, with the message of the type
    error, if the emulator answers that request with null.  In both cases
    no further request is made.  In every other case the check answers
    with a health result, whatever the later requests do. *)
Theorem error_result_only_for_first_probe (endpoint : string) (w : world) :
  match axios (health_probe endpoint) (env w) with
  | (inl msg, e1) =>
      checkHealth endpoint w
      = (Ok (inr (ErrorResult.mk "unhealthy" msg
                    getConnectionFailureRecommendations
                    (fst (toISOString e1)))),
         {| env := snd (toISOString e1);
            trace := trace w ++ [Requested (health_probe endpoint) false] |})
  | (inr health, e1) =>
      if nullish (data health)
      then exists msg,
          checkHealth endpoint w
          = (Ok (inr (ErrorResult.mk "unhealthy" msg
                        getConnectionFailureRecommendations
                        (fst (toISOString e1)))),
             {| env := snd (toISOString e1);
                trace := trace w ++ [Requested (health_probe endpoint) true] |})
      else exists result w', checkHealth endpoint w = (Ok (inl result), w')
  end.
Proof.
  rewrite checkHealth_run.
  destruct (performHealthCheck endpoint w) as [[r | e |] w1] eqn:E.
  - apply performHealthCheck_Ok_first in E. destruct E as (health & e1 & -> & ->).
    now exists r, w1.
  - apply performHealthCheck_Throw in E.
    destruct (axios (health_probe endpoint) (env w)) as [[msg | health] e1].
    + destruct E as [-> ->]. reflexivity.
    + destruct E as (-> & _ & ->). now exists (message e).
  - pose proof (performHealthCheck_typed endpoint w) as Hty.
    rewrite E in Hty. now contradiction Hty.
Qed.


Lemma probe_block_run {A} (endpoint path : string) (limit : option Z)
    (f : response -> A) (fallback : A) (w : world) :
  try_catch
    (r <- axios_get (without_trailing_slash endpoint ++ path) limit ;; ret (f r))
    (fun _ => ret fallback) w
  = match axios (probe endpoint path limit) (env w) with
    | (inl _, e1) =>
        (Ok fallback,
         {| env := e1;
            trace := trace w ++ [Requested (probe endpoint path limit) false] |})
    | (inr r, e1) =>
        (Ok (f r),
         {| env := e1;
            trace := trace w ++ [Requested (probe endpoint path limit) true] |})
    end.
Proof.
  unfold try_catch, bind, axios_get, axios_call, perform, ret.
  change {| method := "get"; url := without_trailing_slash endpoint ++ path;
            headers := []; body := VUndefined; timeout := limit |}
    with (probe endpoint path limit).
  now destruct (axios (probe endpoint path limit) (env w)) as [[msg | r] e1].
Qed.

Lemma addPerformanceRecommendations_run (endpoint : string)
    (recommendations out : list string) (w w' : world) :
  addPerformanceRecommendations (without_trailing_slash endpoint)
    recommendations w = (Ok out, w') ->
  exists reached extra tail,
    out = (recommendations ++ extra)%list
    /\ trace w'
       = (trace w ++ Requested (latency_probe endpoint) reached :: tail)%list
    /\ (if reached
        then (exists answered, tail = [Requested (config_probe endpoint) answered])
             /\ ~ In "Performance checks failed - container may be under high load"
                    extra
        else tail = []
             /\ extra
                = ["Performance checks failed - container may be under high load"]).
Proof.
  unfold addPerformanceRecommendations, try_catch, bind, Date_now, axios_get,
    axios_call, perform, lift, ret.
  change {| method := "get";
            url := without_trailing_slash endpoint ++ "/_localstack/health";
            headers := []; body := VUndefined; timeout := None |}
    with (latency_probe endpoint).
  change {| method := "get";
            url := without_trailing_slash endpoint ++ "/_localstack/config";
            headers := []; body := VUndefined; timeout := None |}
    with (config_probe endpoint).
  destruct (clock (env w)) as [start e0]. cbn [env trace].
  destruct (axios (latency_probe endpoint) e0) as [[msg | r] e1]; cbn [env trace].
  - intros H. inversion H; subst. exists false. eexists _, []. cbn [trace].
    repeat split; reflexivity.
  - destruct (clock e1) as [finish e2]. cbn [env trace].
    destruct (axios (config_probe endpoint) e2) as [[msg | r2] e3]; cbn [env trace].
    + intros H. inversion H; subst. exists true.
      exists (if finish - start >? 5000
              then ["High response time detected - consider increasing container memory or reducing enabled services"]
              else []).
      eexists. cbn [trace]. rewrite <- app_assoc. cbn [app].
      split; [| split; [reflexivity | split; [now exists false |]]].
      * destruct (finish - start >? 5000); [reflexivity | now rewrite app_nil_r].
      * destruct (finish - start >? 5000); simpl; intuition discriminate.
    + destruct (prop (data r2) "LAMBDA_EXECUTOR") as [executor | e |] eqn:Ep;
        cbn [env trace]; intros H; inversion H; subst; exists true.
      * exists ((if finish - start >? 5000
                 then ["High response time detected - consider increasing container memory or reducing enabled services"]
                 else [])
                ++ (if is_literal "docker-reuse" executor then []
                    else ["Consider setting LAMBDA_EXECUTOR=docker-reuse for faster Lambda execution"]))%list.
        eexists. cbn [trace]. rewrite <- app_assoc. cbn [app].
        split; [| split; [reflexivity | split; [now exists true |]]].
        -- destruct (finish - start >? 5000), (is_literal "docker-reuse" executor);
             cbn [app]; rewrite <- ?app_assoc, ?app_nil_r; reflexivity.
        -- destruct (finish - start >? 5000), (is_literal "docker-reuse" executor);
             simpl; intuition discriminate.
      * exists (if finish - start >? 5000
                then ["High response time detected - consider increasing container memory or reducing enabled services"]
                else []).
        eexists. cbn [trace]. rewrite <- app_assoc. cbn [app].
        split; [| split; [reflexivity | split; [now exists true |]]].
        -- destruct (finish - start >? 5000); [reflexivity | now rewrite app_nil_r].
        -- destruct (finish - start >? 5000); simpl; intuition discriminate.
Qed.


Lemma probe_block_Ok {A} (endpoint path : string) (limit : option Z)
    (f : response -> A) (fallback x : A) (w w1 : world) :
  try_catch
    (r <- axios_get (without_trailing_slash endpoint ++ path) limit ;; ret (f r))
    (fun _ => ret fallback) w = (Ok x, w1) ->
  exists answered,
    trace w1 = (trace w ++ [Requested (probe endpoint path limit) answered])%list
    /\ if answered then exists r, x = f r else x = fallback.
Proof.
  rewrite probe_block_run.
  destruct (axios (probe endpoint path limit) (env w)) as [[msg | r] e1];
    intros H; inversion H; subst.
  - now exists false.
  - exists true. split; [reflexivity | now exists r].
Qed.

Lemma performHealthCheck_run (endpoint : string) (w w' : world)
    (result : HealthCheckResult.t) :
  performHealthCheck endpoint w = (Ok result, w') ->
  let services := HealthCheckResult.services result in
  let disabled :=
    len (filter (fun s => is_literal "disabled" (ServiceStatus.status s))
           services) in
  exists health e1 diagnosed inited reached tail found init extra,
    axios (health_probe endpoint) (env w) = (inr health, e1)
    /\ services = reported (data health)
    /\ HealthCheckResult.overall result
       = (if in_error services =? 0 then "healthy"
          else if 2 * in_error services >? len services then "unhealthy"
          else "degraded")
    /\ trace w'
       = (trace w
          ++ [Requested (health_probe endpoint) true;
              Requested (diagnose_probe endpoint) diagnosed;
              Requested (init_probe endpoint) inited;
              Requested (latency_probe endpoint) reached] ++ tail)%list
    /\ HealthCheckResult.diagnostics result
       = assign "initStatus" init (own_entries found)
    /\ (diagnosed = false -> found = VObj [])
    /\ (inited = false -> init = VObj [])
    /\ HealthCheckResult.recommendations result
       = ((if diagnosed then []
           else ["Unable to retrieve diagnostic information"])
          ++ (if in_error services >? 0
              then [unavailable_advice (in_error services)] else [])
          ++ (if disabled >? 0 then [disabled_advice disabled] else [])
          ++ extra)%list
    /\ (if reached
        then (exists answered, tail = [Requested (config_probe endpoint) answered])
             /\ ~ In "Performance checks failed - container may be under high load"
                    extra
        else tail = []
             /\ extra
                = ["Performance checks failed - container may be under high load"]).
Proof.
  intros H. unfold performHealthCheck in H.
  apply bind_Ok in H. destruct H as (health & w1 & E1 & H).
  rewrite health_probe_run in E1.
  destruct (axios (health_probe endpoint) (env w)) as [[msg | health'] e1] eqn:Ea;
    [discriminate |].
  inversion E1; subst health' w1. clear E1.
  apply bind_Ok in H. destruct H as (declared & w2 & E2 & H).
  unfold lift in E2. inversion E2 as [[Ed Hw]]. subst w2. clear E2.
  apply bind_Ok in H. destruct H as (services & w3 & E3 & H).
  assert (Hs : services = reported (data health)
               /\ trace w3 = (trace w ++ [Requested (health_probe endpoint) true])%list).
  { unfold reported, opt_prop. rewrite Ed.
    destruct (truthy declared) eqn:Et.
    - unfold bind, lift in E3. rewrite (entries_truthy _ Et) in E3.
      inversion E3; subst. now split.
    - inversion E3; subst. now split. }
  destruct Hs as [Hs Ht3]. clear E3.
  apply bind_Ok in H. destruct H as (diagnosed & w4 & E4 & H).
  apply (probe_block_Ok endpoint "/_localstack/diagnose" (Some 3000)
           (fun r => (data r, []))) in E4.
  destruct E4 as (d & Ht4 & Hd).
  apply bind_Ok in H. destruct H as (initStatus & w5 & E5 & H).
  apply (probe_block_Ok endpoint "/_localstack/init" (Some 3000)
           (fun r => data r)) in E5.
  destruct E5 as (i & Ht5 & Hi).
  apply bind_Ok in H. destruct H as (recs & w6 & E6 & H).
  apply addPerformanceRecommendations_run in E6.
  destruct E6 as (reached & extra & tail & Hrecs & Ht6 & Hperf).
  apply bind_Ok in H. destruct H as (ts & w7 & E7 & H).
  apply new_Date_toISOString_trace in E7. destruct E7 as [Ht7 _].
  apply ret_Ok in H. destruct H as [-> ->]. cbv zeta.
  cbn [HealthCheckResult.services HealthCheckResult.overall
       HealthCheckResult.diagnostics HealthCheckResult.recommendations].
  exists health, e1, d, i, reached, tail, (fst diagnosed), initStatus, extra.
  fold (in_error services).
  split; [reflexivity |]. split; [exact Hs |]. split; [reflexivity |].
  split.
  { rewrite Ht7, Ht6, Ht5, Ht4, Ht3. rewrite <- !app_assoc. reflexivity. }
  split; [reflexivity |].
  split; [intros ->; now subst diagnosed |].
  split; [intros ->; exact Hi |].
  split; [| exact Hperf].
  rewrite Hrecs.
  assert (Hsnd : snd diagnosed
                 = if d then []
                   else ["Unable to retrieve diagnostic information"]).
  { destruct d; [destruct Hd as (r & ->) | subst diagnosed]; reflexivity. }
  rewrite Hsnd. unfold in_error.
  destruct (len (filter (fun s => is_literal "error" (ServiceStatus.status s))
                   services) >? 0);
    destruct (len (filter (fun s => is_literal "disabled" (ServiceStatus.status s))
                     services) >? 0);
    destruct d; cbn [app]; rewrite <- ?app_assoc; cbn [app]; reflexivity.
Qed.


Lemma checkHealth_result (endpoint : string) (w w' : world)
    (result : HealthCheckResult.t) :
  checkHealth endpoint w = (Ok (inl result), w') ->
  performHealthCheck endpoint w = (Ok result, w').
Proof.
  rewrite checkHealth_run.
  destruct (performHealthCheck endpoint w) as [[r | e |] w1];
    intros H; inversion H; reflexivity.
Qed.

Lemma in_error_bounds (services : list ServiceStatus.t) :
  0 <= in_error services <= len services.
Proof.
  unfold in_error, len. split; [lia |].
  apply inj_le, filter_length_le.
Qed.

(** X20.  How a health result is classified.  Its services are the entries
    of the [services] object of the first answer, in order, each with the
    status it had there; the overall state is healthy exactly when none of
    them has the status error, unhealthy exactly when more than half of
    them have it, and degraded in between.  No other status and no later
    request changes it.  Whenever a service is in error, the result carries
    the advice that counts those services. *)
Theorem overall_follows_error_statuses (endpoint : string) (w w' : world)
    (result : HealthCheckResult.t) :
  checkHealth endpoint w = (Ok (inl result), w') ->
  let services := HealthCheckResult.services result in
  let overall := HealthCheckResult.overall result in
  (exists health e1,
      axios (health_probe endpoint) (env w) = (inr health, e1)
      /\ services = reported (data health))
  /\ (overall = "healthy" <-> in_error services = 0)
  /\ (overall = "unhealthy" <-> len services < 2 * in_error services)
  /\ (overall = "degraded"
      <-> 0 < in_error services /\ 2 * in_error services <= len services)
  /\ (0 < in_error services ->
      In (unavailable_advice (in_error services))
         (HealthCheckResult.recommendations result)).
Proof.
  intros H. apply checkHealth_result, performHealthCheck_run in H.
  cbv zeta in H |- *.
  destruct H as (health & e1 & d & i & reached & tail & found & init & extra
                 & Ea & Hs & Ho & _ & _ & _ & _ & Hr & _).
  pose proof (in_error_bounds (HealthCheckResult.services result)) as Hb.
  split; [now exists health, e1 |].
  rewrite Ho, Hr.
  destruct (Z.eqb_spec (in_error (HealthCheckResult.services result)) 0) as [E0 | E0];
    [| destruct (Z.gtb_spec (2 * in_error (HealthCheckResult.services result))
                   (len (HealthCheckResult.services result))) as [E1 | E1]].
  - repeat split; intros; try discriminate; try lia.
  - repeat split; intros; try discriminate; try lia.
    destruct (Z.gtb_spec (in_error (HealthCheckResult.services result)) 0); [| lia].
    apply in_or_app. right. apply in_or_app. left. now left.
  - repeat split; intros; try discriminate; try lia.
    destruct (Z.gtb_spec (in_error (HealthCheckResult.services result)) 0); [| lia].
    apply in_or_app. right. apply in_or_app. left. now left.
Qed.

(** X21.  What a health result went through.  A check that answers with a
    result has made the health, diagnose and init requests and a second
    health request, in this order, and after that a config request exactly
    when the second health request was answered.  The diagnostics always
    carry the init status; a failed diagnose request leaves them with
    nothing else and puts its advice first, a failed init request leaves
    the init status empty, and a failed second health request puts the
    advice about load last. *)
Theorem later_failures_are_absorbed (endpoint : string) (w w' : world)
    (result : HealthCheckResult.t) :
  checkHealth endpoint w = (Ok (inl result), w') ->
  exists diagnosed inited reached tail init,
    trace w'
    = (trace w
       ++ [Requested (health_probe endpoint) true;
           Requested (diagnose_probe endpoint) diagnosed;
           Requested (init_probe endpoint) inited;
           Requested (latency_probe endpoint) reached] ++ tail)%list
    /\ lookup "initStatus" (HealthCheckResult.diagnostics result) = Some init
    /\ (diagnosed = false ->
        HealthCheckResult.diagnostics result = [("initStatus", init)]
        /\ hd_error (HealthCheckResult.recommendations result)
           = Some "Unable to retrieve diagnostic information")
    /\ (inited = false -> init = VObj [])
    /\ (if reached
        then exists answered, tail = [Requested (config_probe endpoint) answered]
        else tail = []
             /\ last (HealthCheckResult.recommendations result) ""
                = "Performance checks failed - container may be under high load").
Proof.
  intros H. apply checkHealth_result, performHealthCheck_run in H.
  cbv zeta in H.
  destruct H as (health & e1 & d & i & reached & tail & found & init & extra
                 & _ & _ & _ & Ht & Hd & Hf & Hi & Hr & Hp).
  exists d, i, reached, tail, init.
  split; [exact Ht |]. split.
  { rewrite Hd, lookup_assign. reflexivity. }
  split.
  { intros ->. rewrite Hd, Hr, (Hf eq_refl). split; reflexivity. }
  split; [exact Hi |].
  destruct reached.
  - now destruct Hp as [Hp _].
  - destruct Hp as [-> ->]. split; [reflexivity |].
    rewrite Hr, !app_assoc. apply last_last.
Qed.

Lemma without_trailing_slash_app (s : string) :
  without_trailing_slash (s ++ "/") = s.
Proof.
  induction s as [| c rest IH]; [reflexivity |].
  cbn [append without_trailing_slash]. rewrite IH.
  destruct rest; reflexivity.
Qed.

Lemma ends_with_slash_cons (c c' : ascii) (rest : string) :
  ends_with_slash (String c (String c' rest)) = ends_with_slash (String c' rest).
Proof.
  unfold ends_with_slash. cbn [String.length].
  replace (S (S (String.length rest)) - 1)%nat with (S (String.length rest))
    by lia.
  replace (S (String.length rest) - 1)%nat with (String.length rest) by lia.
  reflexivity.
Qed.

Lemma without_trailing_slash_id (s : string) :
  ends_with_slash s = false -> without_trailing_slash s = s.
Proof.
  induction s as [| c rest IH]; [reflexivity |].
  destruct rest as [| c' rest].
  - unfold ends_with_slash. simpl. now intros ->.
  - rewrite ends_with_slash_cons. intros H.
    change (String c (without_trailing_slash (String c' rest))
            = String c (String c' rest)).
    now rewrite IH.
Qed.

(** X22.  A slash at the end of the endpoint is ignored: for an endpoint
    that does not end with a slash, the check of the endpoint followed by a
    slash sends the same requests and gives the same answer as the check
    of the endpoint itself. *)
Theorem trailing_slash_is_ignored (endpoint : string) (w : world) :
  ends_with_slash endpoint = false ->
  checkHealth (endpoint ++ "/") w = checkHealth endpoint w.
Proof.
  intros H. unfold checkHealth, performHealthCheck.
  now rewrite without_trailing_slash_app, (without_trailing_slash_id _ H).
Qed.


(** ** The Docker detector *)

Section Detector.

Context {D : Host P}.


Lemma call_run {A} (h : Env -> (string + A) * Env) (mk_exn : string -> exn)
    (w w' : world) (o : outcome A) :
  call h mk_exn w = (o, w') -> trace w' = trace w /\ o <> Untyped.
Proof.
  unfold call. destruct (h (env w)) as [[msg | a] e']; intros E; inversion E;
    split; try reflexivity; discriminate.
Qed.

Lemma adds_call {A} (Q : event -> Prop) (h : Env -> (string + A) * Env)
    (mk_exn : string -> exn) :
  adds Q (call h mk_exn).
Proof.
  apply adds_nothing. intros w o w' E. now apply call_run in E.
Qed.

Lemma typed_call {A} (h : Env -> (string + A) * Env) (mk_exn : string -> exn) :
  typed (call h mk_exn).
Proof.
  intros w. destruct (call h mk_exn w) as [o w'] eqn:E.
  apply call_run in E. exact (proj2 E).
Qed.

Lemma attempt_returns {A B} (c : M A) (f : A -> B) (fallback : B) :
  typed c ->
  returns (try_catch (a <- c ;; ret (f a)) (fun _ => ret fallback)).
Proof.
  intros Hc. apply returns_try_catch; [| intros e; apply returns_ret].
  apply typed_bind; [exact Hc | intros a; apply typed_ret].
Qed.

Lemma fs_readFile_typed (path : string) : typed (fs_readFile path).
Proof.
  intros w. unfold fs_readFile, perform.
  destruct (readFile path (env w)) as [[msg | content] e']; discriminate.
Qed.

Lemma adds_fs_readFile (path : string) : adds file_read (fs_readFile path).
Proof. unfold fs_readFile. apply adds_perform; exact I. Qed.

Lemma walk_returns (levels : nat) :
  forall dir files, returns (walk levels dir files).
Proof.
  induction levels as [| deeper IH]; intros dir files; cbn [walk].
  - apply returns_ret.
  - apply returns_try_catch; [| intros e; apply returns_ret].
    apply typed_bind; [apply typed_call | intros entries].
    revert files. induction entries as [| entry rest IHe]; intros files.
    + apply typed_ret.
    + destruct (Dirent.isDirectory entry
                && negb (prefix "." (Dirent.name entry))
                && negb (String.eqb (Dirent.name entry) "node_modules")).
      * apply typed_bind; [apply returns_typed, IH | intros files'; apply IHe].
      * destruct (Dirent.isFile entry
                  && existsb (endsWith (Dirent.name entry)) extensions);
          apply IHe.
Qed.

Lemma walk_reads_nothing (levels : nat) :
  forall dir files, adds file_read (walk levels dir files).
Proof.
  induction levels as [| deeper IH]; intros dir files; cbn [walk].
  - apply adds_ret.
  - apply adds_try_catch; [| intros e; apply adds_ret].
    apply adds_bind; [apply adds_call | intros entries].
    revert files. induction entries as [| entry rest IHe]; intros files.
    + apply adds_ret.
    + destruct (Dirent.isDirectory entry
                && negb (prefix "." (Dirent.name entry))
                && negb (String.eqb (Dirent.name entry) "node_modules")).
      * apply adds_bind; [apply IH | intros files'; apply IHe].
      * destruct (Dirent.isFile entry
                  && existsb (endsWith (Dirent.name entry)) extensions);
          apply IHe.
Qed.

Lemma detect_each_returns (files : list string) :
  forall services, returns (detect_each files services).
Proof.
  induction files as [| file rest IH]; intros services; cbn [detect_each].
  - apply returns_ret.
  - apply returns_bind; [| intros services'; apply IH].
    apply attempt_returns, fs_readFile_typed.
Qed.

Lemma detect_each_reads (files : list string) :
  forall services, adds file_read (detect_each files services).
Proof.
  induction files as [| file rest IH]; intros services; cbn [detect_each].
  - apply adds_ret.
  - apply adds_bind; [| intros services'; apply IH].
    apply adds_try_catch; [| intros e; apply adds_ret].
    apply adds_bind; [apply adds_fs_readFile | intros content; apply adds_ret].
Qed.

Lemma detectAWSServices_returns (projectPath : string) :
  returns (detectAWSServices projectPath).
Proof.
  unfold detectAWSServices, findSourceFiles.
  apply returns_try_catch; [| intros e; apply returns_ret].
  apply returns_typed, returns_bind;
    [apply walk_returns | intros files; apply detect_each_returns].
Qed.

Lemma detectAWSServices_reads (projectPath : string) :
  adds file_read (detectAWSServices projectPath).
Proof.
  unfold detectAWSServices, findSourceFiles.
  apply adds_try_catch; [| intros e; apply adds_ret].
  apply adds_bind; [apply walk_reads_nothing | intros files; apply detect_each_reads].
Qed.

Lemma generateSuggestions_returns (found : bool) (projectPath : string) :
  returns (generateSuggestions found projectPath).
Proof.
  unfold generateSuggestions.
  apply returns_bind.
  { apply (attempt_returns (fs_access "/.dockerenv") (fun _ => true) false).
    apply typed_call. }
  intros inContainer.
  apply returns_bind; [apply detectAWSServices_returns | intros detected].
  apply returns_ret.
Qed.

Lemma generateSuggestions_reads (found : bool) (projectPath : string) :
  adds file_read (generateSuggestions found projectPath).
Proof.
  unfold generateSuggestions.
  apply adds_bind.
  { apply adds_try_catch; [| intros e; apply adds_ret].
    apply adds_bind; [apply adds_call | intros u; apply adds_ret]. }
  intros inContainer.
  apply adds_bind; [apply detectAWSServices_reads | intros detected].
  apply adds_ret.
Qed.

Lemma find_compose_returns (projectPath : string) (files : list string) :
  forall found config, returns (find_compose projectPath files found config).
Proof.
  induction files as [| file rest IH]; intros found config; cbn [find_compose].
  - apply returns_ret.
  - apply returns_bind.
    { apply (attempt_returns (fs_access (join_path projectPath file))
               (fun _ => true) false).
      apply typed_call. }
    intros [|]; [| apply IH].
    apply returns_bind.
    { apply (attempt_returns (fs_readFile (join_path projectPath file)) Some None).
      apply fs_readFile_typed. }
    intros [content |]; [apply returns_ret | apply IH].
Qed.

Lemma find_compose_reads (projectPath : string) (files : list string) :
  forall found config, adds file_read (find_compose projectPath files found config).
Proof.
  induction files as [| file rest IH]; intros found config; cbn [find_compose].
  - apply adds_ret.
  - apply adds_bind.
    { apply adds_try_catch; [| intros e; apply adds_ret].
      apply adds_bind; [apply adds_call | intros u; apply adds_ret]. }
    intros [|]; [| apply IH].
    apply adds_bind.
    { apply adds_try_catch; [| intros e; apply adds_ret].
      apply adds_bind; [apply adds_fs_readFile | intros content; apply adds_ret]. }
    intros [content |]; [apply adds_ret | apply IH].
Qed.

Lemma detectEnvironment_returns (projectPath : string) :
  returns (detectEnvironment projectPath).
Proof.
  unfold detectEnvironment.
  apply returns_bind.
  { apply (attempt_returns docker_ping (fun _ => true) false), typed_call. }
  intros [|]; cbn [negb]; [| apply returns_ret].
  apply returns_bind; [apply find_compose_returns | intros composed].
  apply returns_bind.
  { apply (attempt_returns docker_listContainers
             (fun containers =>
                (match find is_localstack containers with
                 | Some container => container_summary container
                 | None => VNull
                 end, []))
             (VNull, ["Failed to check existing containers"])), typed_call. }
  intros checked.
  apply returns_bind.
  { apply (attempt_returns docker_listNetworks
             (fun networks =>
                if existsb (String.eqb "bridge") networks then "bridge" else "host")
             "unknown"), typed_call. }
  intros networkMode.
  apply returns_bind; [apply generateSuggestions_returns | intros suggestions].
  apply returns_ret.
Qed.

(** X26.  Detection always answers and never raises, whatever Docker and
    the file system do; and whatever it answers, it has read files and done
    nothing else that leaves a trace: it sends no request to the emulator
    and writes no file. *)
Theorem detection_always_answers (projectPath : string) :
  returns (detectEnvironment projectPath)
  /\ adds file_read (detectEnvironment projectPath).
Proof.
  split; [apply detectEnvironment_returns |].
  unfold detectEnvironment.
  apply adds_bind.
  { apply adds_try_catch; [| intros e; apply adds_ret].
    apply adds_bind; [apply adds_call | intros u; apply adds_ret]. }
  intros [|]; cbn [negb]; [| apply adds_ret].
  apply adds_bind; [apply find_compose_reads | intros composed].
  apply adds_bind.
  { apply adds_try_catch; [| intros e; apply adds_ret].
    apply adds_bind; [apply adds_call | intros containers; apply adds_ret]. }
  intros checked.
  apply adds_bind.
  { unfold detectNetworkMode.
    apply adds_try_catch; [| intros e; apply adds_ret].
    apply adds_bind; [apply adds_call | intros networks; apply adds_ret]. }
  intros networkMode.
  apply adds_bind; [apply generateSuggestions_reads | intros suggestions].
  apply adds_ret.
Qed.

(** X25.  When Docker does not answer the ping, detection stops there: it
    reports Docker as unavailable with the one issue that says so, no
    compose file, no container, an unknown network mode and an empty
    suggested configuration, and it has asked nothing else of Docker or
    of the file system. *)
Theorem docker_down_ends_detection (projectPath msg : string) (w : world)
    (e1 : Env) :
  ping (env w) = (inl msg, e1) ->
  detectEnvironment projectPath w
  = (Ok (Results.mk false false VNull "unknown" []
           ["Docker is not running or not accessible"]),
     {| env := e1; trace := trace w |}).
Proof.
  intros Hp. unfold detectEnvironment, bind at 1, try_catch, bind at 1,
    docker_ping, call.
  rewrite Hp. reflexivity.
Qed.


Lemma walk_found (levels : nat) :
  forall dir files w out w',
    walk levels dir files w = (Ok out, w') ->
    exists found,
      out = (files ++ found)%list
      /\ Forall (fun path =>
                   exists n, (1 <= n <= levels)%nat /\ source_below dir n path)
           found.
Proof.
  induction levels as [| deeper IH]; intros dir files w out w' E; cbn [walk] in E.
  - apply ret_Ok in E. destruct E as [<- _]. exists []. now rewrite app_nil_r.
  - apply try_catch_Ok in E. destruct E as [E | (e & w1 & _ & E)].
    + apply bind_Ok in E. destruct E as (entries & w1 & _ & E).
      clear w. revert files w1 E.
      induction entries as [| entry rest IHe]; intros files w1 E.
      * apply ret_Ok in E. destruct E as [<- _]. exists []. now rewrite app_nil_r.
      * destruct (Dirent.isDirectory entry
                  && negb (prefix "." (Dirent.name entry))
                  && negb (String.eqb (Dirent.name entry) "node_modules"))
          eqn:Ed.
        -- apply bind_Ok in E. destruct E as (files1 & w2 & E1 & E2).
           apply IH in E1. destruct E1 as (found1 & -> & F1).
           apply IHe in E2. destruct E2 as (found2 & -> & F2).
           exists (found1 ++ found2)%list. split; [now rewrite app_assoc |].
           apply Forall_app. split; [| exact F2].
           apply andb_prop in Ed. destruct Ed as [Ed Hm].
           apply andb_prop in Ed. destruct Ed as [_ Hh].
           apply negb_true_iff in Hm, Hh. apply String.eqb_neq in Hm.
           eapply Forall_impl; [| exact F1].
           intros path (n & Hn & Hb). exists (S n). split; [lia |].
           now apply source_deeper with (name := Dirent.name entry).
        -- destruct (Dirent.isFile entry
                     && existsb (endsWith (Dirent.name entry)) extensions)
             eqn:Ef.
           ++ apply IHe in E. destruct E as (found & -> & F).
              exists (join_path dir (Dirent.name entry) :: found).
              split; [now rewrite <- app_assoc |].
              constructor; [| exact F].
              exists 1%nat. split; [lia |].
              apply source_here. now apply andb_prop in Ef.
           ++ now apply IHe in E.
    + apply ret_Ok in E. destruct E as [<- _]. exists []. now rewrite app_nil_r.
Qed.

Lemma add_In (service s : string) (services : list string) :
  In s (add service services) <-> In s services \/ s = service.
Proof.
  unfold add. destruct (existsb (String.eqb service) services) eqn:E.
  - split; [now left | intros [H | ->]; trivial].
    apply existsb_exists in E. destruct E as (x & Hx & Heq).
    apply String.eqb_eq in Heq. now subst.
  - rewrite in_app_iff. simpl. intuition.
Qed.

Lemma add_NoDup (service : string) (services : list string) :
  NoDup services -> NoDup (add service services).
Proof.
  intros Hn. unfold add.
  destruct (existsb (String.eqb service) services) eqn:E; [exact Hn |].
  apply NoDup_app; [exact Hn | repeat constructor; intros [] |].
  intros x Hx [Heq | []]. subst x.
  assert (Ht : existsb (String.eqb service) services = true)
    by (apply existsb_exists; exists service; split;
        [exact Hx | apply String.eqb_refl]).
  congruence.
Qed.

Lemma detect_fold (content s : string) (patterns : list (string * list string)) :
  forall services,
    In s (fold_left
            (fun services entry =>
               if test (snd entry) content then add (fst entry) services
               else services) patterns services)
    <-> In s services
        \/ exists pattern, In (s, pattern) patterns /\ test pattern content = true.
Proof.
  induction patterns as [| [service pattern] rest IH]; intros services;
    cbn [fold_left fst snd].
  - split; [now left | intros [H | (pattern & [] & _)]; exact H].
  - rewrite IH. destruct (test pattern content) eqn:Et.
    + rewrite add_In. split.
      * intros [[H | ->] | (p & Hp & Hm)].
        -- now left.
        -- right. exists pattern. split; [now left | exact Et].
        -- right. exists p. split; [now right | exact Hm].
      * intros [H | (p & [Hp | Hp] & Hm)].
        -- left. now left.
        -- inversion Hp; subst. left. now right.
        -- right. now exists p.
    + split.
      * intros [H | (p & Hp & Hm)]; [now left |].
        right. exists p. split; [now right | exact Hm].
      * intros [H | (p & [Hp | Hp] & Hm)]; [now left | |].
        -- inversion Hp; subst. congruence.
        -- right. now exists p.
Qed.

Lemma detect_fold_NoDup (content : string) (patterns : list (string * list string)) :
  forall services,
    NoDup services ->
    NoDup (fold_left
             (fun services entry =>
                if test (snd entry) content then add (fst entry) services
                else services) patterns services).
Proof.
  induction patterns as [| [service pattern] rest IH]; intros services Hn;
    cbn [fold_left fst snd]; [exact Hn |].
  apply IH. destruct (test pattern content); [now apply add_NoDup | exact Hn].
Qed.

Lemma detect_each_reads_in_turn (files : list string) :
  forall services w out w',
    detect_each files services w = (Ok out, w') ->
    exists reads,
      read_in_turn files w reads w'
      /\ out = fold_left
                 (fun services read =>
                    match read with
                    | Some content => detect_in content services
                    | None => services
                    end) reads services.
Proof.
  induction files as [| file rest IH]; intros services w out w' E;
    cbn [detect_each] in E.
  - apply ret_Ok in E. destruct E as [-> ->]. exists []. split; [constructor |].
    reflexivity.
  - unfold bind at 1, try_catch, bind at 1, ret at 1 2, fs_readFile, perform in E.
    destruct (readFile file (env w)) as [[msg | content] e1] eqn:Er.
    + apply IH in E. destruct E as (reads & Hr & ->).
      exists (None :: reads). split; [| reflexivity].
      now apply read_refused with (msg := msg) (e1 := e1).
    + apply IH in E. destruct E as (reads & Hr & ->).
      exists (Some content :: reads). split; [| reflexivity].
      now apply read_content with (e1 := e1).
Qed.

Lemma detect_reads_In (s : string) (reads : list (option string)) :
  forall services,
    In s (fold_left
            (fun services read =>
               match read with
               | Some content => detect_in content services
               | None => services
               end) reads services)
    <-> In s services
        \/ exists content pattern,
             In (Some content) reads
             /\ In (s, pattern) servicePatterns
             /\ test pattern content = true.
Proof.
  induction reads as [| [content |] rest IH]; intros services; cbn [fold_left].
  - split; [now left | intros [Hs | (c & p & [] & _)]; exact Hs].
  - rewrite IH. unfold detect_in. rewrite detect_fold. split.
    + intros [[Hs | (p & Hp & Hm)] | (c & p & Hc & Hp & Hm)].
      * now left.
      * right. exists content, p. split; [now left | now split].
      * right. exists c, p. split; [now right | now split].
    + intros [Hs | (c & p & [Hc | Hc] & Hp & Hm)].
      * left. now left.
      * inversion Hc; subst. left. right. now exists p.
      * right. now exists c, p.
  - rewrite IH. split.
    + intros [Hs | (c & p & Hc & Hp & Hm)]; [now left |].
      right. exists c, p. split; [now right | now split].
    + intros [Hs | (c & p & [Hc | Hc] & Hp & Hm)]; [now left | discriminate |].
      right. now exists c, p.
Qed.

Lemma detect_reads_NoDup (reads : list (option string)) :
  forall services,
    NoDup services ->
    NoDup (fold_left
             (fun services read =>
                match read with
                | Some content => detect_in content services
                | None => services
                end) reads services).
Proof.
  induction reads as [| [content |] rest IH]; intros services Hn; cbn [fold_left].
  - exact Hn.
  - apply IH. unfold detect_in. now apply detect_fold_NoDup.
  - now apply IH.
Qed.

(** X28.  The services detection reports.  The source files it looks at
    are those [findSourceFiles] found in this run: files with one of the
    six extensions, at most four names below the project directory with no
    hidden directory and no node_modules on the way.  They are read one
    after the other, in the worlds this run goes through; a service is
    reported exactly when it is one of the eight of the pattern table and
    one of the contents read includes one of the three texts of its
    pattern.  No service is reported twice.  The list of defaults in the
    catch plays no part: when no content matches, nothing is reported. *)
Theorem detected_services_come_from_sources (projectPath : string)
    (w w' : world) (services : list string) :
  detectAWSServices projectPath w = (Ok services, w') ->
  exists files w1 reads,
    findSourceFiles projectPath w = (Ok files, w1)
    /\ Forall (fun file =>
                 exists n, (1 <= n <= 4)%nat /\ source_below projectPath n file)
         files
    /\ read_in_turn files w1 reads w'
    /\ NoDup services
    /\ (forall service,
          In service services
          <-> exists content pattern,
                In (Some content) reads
                /\ In (service, pattern) servicePatterns
                /\ test pattern content = true)
    /\ ((forall content pattern,
           In (Some content) reads -> In pattern (map snd servicePatterns) ->
           test pattern content = false) ->
        services = []).
Proof.
  unfold detectAWSServices. intros E.
  apply try_catch_Ok in E. destruct E as [E | (e & w1 & E & _)].
  - apply bind_Ok in E. destruct E as (files & w1 & Ew & E).
    exists files, w1.
    apply detect_each_reads_in_turn in E. destruct E as (reads & Hr & ->).
    exists reads. split; [exact Ew |].
    unfold findSourceFiles in Ew. apply walk_found in Ew.
    destruct Ew as (found & -> & Hf). split; [exact Hf |].
    split; [exact Hr |]. split; [apply detect_reads_NoDup; constructor |].
    assert (Hiff : forall service,
               In service
                 (fold_left
                    (fun services read =>
                       match read with
                       | Some content => detect_in content services
                       | None => services
                       end) reads [])
               <-> exists content pattern,
                     In (Some content) reads
                     /\ In (service, pattern) servicePatterns
                     /\ test pattern content = true).
    { intros service. rewrite detect_reads_In. split; [| now right].
      intros [[] | Hd]. exact Hd. }
    split; [exact Hiff |].
    intros Hnone.
    destruct (fold_left _ reads []) as [| service rest] eqn:Ef; [reflexivity |].
    exfalso. destruct (proj1 (Hiff service) (or_introl eq_refl))
      as (content & pattern & Hc & Hp & Hm).
    rewrite (Hnone content pattern Hc) in Hm; [discriminate |].
    apply in_map_iff. now exists (service, pattern).
  - exfalso. revert E. apply returns_not_Throw.
    apply returns_bind; [apply walk_returns | intros files; apply detect_each_returns].
Qed.

Lemma generateSuggestions_shape (found : bool) (projectPath : string)
    (w w' : world) (suggestions : list (string * value)) :
  generateSuggestions found projectPath w = (Ok suggestions, w') ->
  exists (inContainer : bool) (detected : list string),
    suggestions
    = suggestions_object
        [("LOCALSTACK_HOST",
           VStr (if inContainer then "localstack" else "localhost"));
         ("EDGE_PORT", VStr "4566");
         ("SERVICES",
           VStr match detected with
                | [] => "s3,lambda,sqs,sns,dynamodb"
                | _ :: _ => join "," detected
                end)]
        ((if inContainer
          then [("note",
                  VStr "Detected container environment - using container networking")]
          else [])
         ++ match detected with
            | [] => []
            | _ :: _ => [("detectedServices", strings detected)]
            end
         ++ (if found then []
             else [("dockerComposeTemplate",
                     VStr (generateDockerComposeTemplate
                             [("LOCALSTACK_HOST",
                                VStr (if inContainer then "localstack"
                                      else "localhost"));
                              ("EDGE_PORT", VStr "4566");
                              ("SERVICES",
                                VStr match detected with
                                     | [] => "s3,lambda,sqs,sns,dynamodb"
                                     | _ :: _ => join "," detected
                                     end)]))]))%list.
Proof.
  unfold generateSuggestions. intros E.
  apply bind_Ok in E. destruct E as (inContainer & w1 & _ & E).
  apply bind_Ok in E. destruct E as (detected & w2 & _ & E).
  apply ret_Ok in E. destruct E as [-> _].
  exists inContainer, detected.
  destruct inContainer, detected as [| service rest], found; reflexivity.
Qed.

Lemma dockerenv_block_run (w w1 : world) (inContainer : bool) :
  try_catch (bind (fs_access "/.dockerenv") (fun _ => ret true))
    (fun _ => ret false) w = (Ok inContainer, w1) ->
  exists e1,
    w1 = {| env := e1; trace := trace w |}
    /\ ((inContainer = true /\ access "/.dockerenv" (env w) = (inr tt, e1))
        \/ (inContainer = false
            /\ exists msg, access "/.dockerenv" (env w) = (inl msg, e1))).
Proof.
  unfold try_catch, bind, fs_access, call, ret.
  destruct (access "/.dockerenv" (env w)) as [[msg | []] e1]; intros E;
    inversion E; subst; exists e1; (split; [reflexivity |]).
  - right. split; [reflexivity | now exists msg].
  - left. now split.
Qed.

(** X27.  The suggestions of a run of [generateSuggestions].  The run asks
    once whether /.dockerenv can be accessed, in the world it starts in,
    and then detects the services in the world that leaves.  LOCALSTACK_HOST
    is localstack, and the note on container networking present, exactly
    when the file could be accessed; SERVICES is what that detection
    returned, joined by commas, or the five defaults when it returned
    nothing; detectedServices is that list, present exactly when it is not
    empty; the compose template is offered exactly when no compose file was
    found, and is built from these variables.  The suggestions never have
    the property existingComposeFile, and neither has the suggested
    configuration of any answer of [detectEnvironment]: what the search
    for compose files records there is replaced by the suggestions. *)
Theorem suggested_config_follows_detection (projectPath : string) :
  (forall found w w' suggested,
      generateSuggestions found projectPath w = (Ok suggested, w') ->
      exists (inContainer : bool) e1 detected variables,
        ((inContainer = true /\ access "/.dockerenv" (env w) = (inr tt, e1))
         \/ (inContainer = false
             /\ exists msg, access "/.dockerenv" (env w) = (inl msg, e1)))
        /\ detectAWSServices projectPath {| env := e1; trace := trace w |}
           = (Ok detected, w')
        /\ lookup "environmentVariables" suggested = Some (VObj variables)
        /\ variables
           = [("LOCALSTACK_HOST",
                VStr (if inContainer then "localstack" else "localhost"));
              ("EDGE_PORT", VStr "4566");
              ("SERVICES",
                VStr match detected with
                     | [] => "s3,lambda,sqs,sns,dynamodb"
                     | _ :: _ => join "," detected
                     end)]
        /\ lookup "detectedServices" suggested
           = match detected with
             | [] => None
             | _ :: _ => Some (strings detected)
             end
        /\ lookup "dockerComposeTemplate" suggested
           = (if found then None
              else Some (VStr (generateDockerComposeTemplate variables)))
        /\ lookup "note" suggested
           = (if inContainer
              then Some (VStr "Detected container environment - using container networking")
              else None)
        /\ lookup "existingComposeFile" suggested = None)
  /\ (forall w w' results,
        detectEnvironment projectPath w = (Ok results, w') ->
        lookup "existingComposeFile" (Results.suggestedConfig results) = None).
Proof.
  split.
  - intros found w w' suggested E.
    pose proof (generateSuggestions_shape _ _ _ _ _ E) as Hshape.
    unfold generateSuggestions in E.
    apply bind_Ok in E. destruct E as (inContainer & w1 & Ea & E).
    apply dockerenv_block_run in Ea. destruct Ea as (e1 & -> & Ha).
    apply bind_Ok in E. destruct E as (detected & w2 & Ed & E).
    apply ret_Ok in E. destruct E as [Es ->].
    exists inContainer, e1, detected.
    exists [("LOCALSTACK_HOST",
              VStr (if inContainer then "localstack" else "localhost"));
            ("EDGE_PORT", VStr "4566");
            ("SERVICES",
              VStr match detected with
                   | [] => "s3,lambda,sqs,sns,dynamodb"
                   | _ :: _ => join "," detected
                   end)].
    split; [exact Ha |]. split; [exact Ed |].
    rewrite Es. clear.
    split; [destruct inContainer, detected, found; reflexivity |].
    split; [reflexivity |].
    split; [destruct inContainer, detected, found; reflexivity |].
    split; [destruct inContainer, detected, found; reflexivity |].
    split; destruct inContainer, detected, found; reflexivity.
  - unfold detectEnvironment. intros w w' results E.
    apply bind_Ok in E. destruct E as (dockerAvailable & w1 & _ & E).
    destruct dockerAvailable; cbn [negb] in E.
    + apply bind_Ok in E. destruct E as (composed & w2 & _ & E).
      apply bind_Ok in E. destruct E as (checked & w3 & _ & E).
      apply bind_Ok in E. destruct E as (networkMode & w4 & _ & E).
      apply bind_Ok in E. destruct E as (suggestions & w5 & Es & E).
      apply ret_Ok in E. destruct E as [-> _].
      cbn [Results.suggestedConfig].
      apply generateSuggestions_shape in Es.
      destruct Es as (inContainer & detected & ->).
      destruct inContainer, detected, (fst composed); reflexivity.
    + apply ret_Ok in E. destruct E as [-> _]. reflexivity.
Qed.


Lemma find_compose_search (projectPath : string) (files : list string) :
  forall found0 config w found config' w',
    find_compose projectPath files found0 config w = (Ok (found, config'), w') ->
    exists hit,
      compose_search projectPath files w hit w' /\ found = found0 || hit.
Proof.
  induction files as [| file rest IH];
    intros found0 config w found config' w' E; cbn [find_compose] in E.
  - apply ret_Ok in E. destruct E as [E ->]. inversion E; subst.
    exists false. split; [constructor | now rewrite orb_false_r].
  - unfold bind at 1, try_catch at 1, bind at 1, ret at 1 2, fs_access, call in E.
    destruct (access (join_path projectPath file) (env w)) as [[msg | []] e1]
      eqn:Ea.
    + apply IH in E. destruct E as (hit & Hs & ->). exists hit.
      split; [| reflexivity].
      now apply search_missing with (msg := msg) (e1 := e1).
    + unfold bind at 1, try_catch at 1, bind at 1, ret at 1 2, fs_readFile,
        perform in E.
      cbn [env trace] in E.
      destruct (readFile (join_path projectPath file) e1) as [[msg | content] e2]
        eqn:Er.
      * apply IH in E. destruct E as (hit & Hs & ->). exists true.
        split; [| now rewrite orb_true_r].
        now apply search_unreadable with (e1 := e1) (msg := msg) (e2 := e2)
                                         (found := hit).
      * apply ret_Ok in E. destruct E as [E ->]. inversion E; subst.
        exists true. split; [| now rewrite orb_true_r].
        now apply search_read with (e1 := e1) (content := content).
Qed.

(** X30.  What an answer reports about the host is what the host answered
    in this run.  After the ping has been answered, the four compose names
    are tried in order below the project path, and a compose file is
    reported as found exactly when one of them can be accessed on the way.
    Then the containers are listed: the answer has the first listed
    container whose name or image includes localstack, by id, state,
    status, ports and names, or none; when the listing fails it has none
    and the one issue that says so.  Then the networks are listed: the
    mode is bridge when one of them is called bridge, host when none is,
    and unknown when the listing fails.  The suggested configuration is
    what [generateSuggestions] answers after that, for the compose file
    found or not. *)
Theorem findings_come_from_the_host (projectPath : string) (w w' : world)
    (results : Results.t) :
  detectEnvironment projectPath w = (Ok results, w') ->
  Results.dockerAvailable results = true ->
  exists e1 w2 e3 e4,
    ping (env w) = (inr tt, e1)
    /\ compose_search projectPath composeFiles
         {| env := e1; trace := trace w |}
         (Results.dockerComposeFound results) w2
    /\ ((exists containers,
            listContainers (env w2) = (inr containers, e3)
            /\ Results.locilStackContainer results
               = match find is_localstack containers with
                 | Some container => container_summary container
                 | None => VNull
                 end
            /\ Results.issues results = [])
        \/ (exists msg,
              listContainers (env w2) = (inl msg, e3)
              /\ Results.locilStackContainer results = VNull
              /\ Results.issues results = ["Failed to check existing containers"]))
    /\ ((exists networks,
            listNetworks e3 = (inr networks, e4)
            /\ Results.networkMode results
               = if existsb (String.eqb "bridge") networks then "bridge" else "host")
        \/ (exists msg,
              listNetworks e3 = (inl msg, e4)
              /\ Results.networkMode results = "unknown"))
    /\ generateSuggestions (Results.dockerComposeFound results) projectPath
         {| env := e4; trace := trace w2 |}
       = (Ok (Results.suggestedConfig results), w').
Proof.
  unfold detectEnvironment. intros E Ha.
  unfold bind at 1, try_catch at 1, bind at 1, ret at 1 2, docker_ping, call in E.
  destruct (ping (env w)) as [[msg | []] e1] eqn:Ep; cbn [negb] in E.
  { apply ret_Ok in E. destruct E as [-> _]. discriminate. }
  apply bind_Ok in E. destruct E as ([found config] & w2 & Ec & E).
  apply find_compose_search in Ec. destruct Ec as (hit & Hs & Hf).
  cbn [orb] in Hf. subst hit.
  unfold bind at 1, try_catch at 1, bind at 1, ret at 1 2, docker_listContainers,
    call in E.
  destruct (listContainers (env w2)) as [[msgc | containers] e3] eqn:El;
    unfold bind at 1, detectNetworkMode, try_catch at 1, bind at 1, ret at 1 2,
      docker_listNetworks, call in E;
    cbn [env trace] in E;
    destruct (listNetworks e3) as [[msgn | networks] e4] eqn:En;
    apply bind_Ok in E; destruct E as (suggestions & w5 & Eg & E);
    apply ret_Ok in E; destruct E as [-> ->];
    cbn [Results.dockerComposeFound Results.locilStackContainer Results.issues
         Results.networkMode Results.suggestedConfig fst snd] in *;
    exists e1, w2, e3, e4;
    (split; [reflexivity |]); (split; [exact Hs |]);
    (split; [| split; [| exact Eg]]).
  - right. now exists msgc.
  - right. now exists msgn.
  - right. now exists msgc.
  - left. now exists networks.
  - left. now exists containers.
  - right. now exists msgn.
  - left. now exists containers.
  - left. now exists networks.
Qed.

(** ** The tool dispatcher *)

Section Dispatch.

Variable process_cwd : string.
Variable McpError_message : ErrorCode -> string -> string.

Lemma try_catch_ret_never_throws {A B} (c : M A) (f : A -> B) (h : exn -> B) :
  never_throws (try_catch (a <- c ;; ret (f a)) (fun e => ret (h e))).
Proof.
  intros w e. unfold try_catch, bind, ret.
  destruct (c w) as [[a | e' |] w1]; discriminate.
Qed.

Lemma as_string_no_throw (v : value) (e : exn) : as_string v <> Throw e.
Proof. destruct v; discriminate. Qed.

Lemma as_optional_string_no_throw (v : value) (e : exn) :
  as_optional_string v <> Throw e.
Proof. destruct v; discriminate. Qed.

Lemma as_strings_no_throw (v : value) (e : exn) : as_strings v <> Throw e.
Proof.
  destruct v as [| | | | | items |]; try discriminate. simpl.
  induction items as [| item rest IH]; simpl; [discriminate |].
  destruct item; simpl; try discriminate.
  destruct (map_outcome as_string rest); simpl; try discriminate.
  exact IH.
Qed.

(** X23.  Every error the handler of a tool call raises has the code
    InternalError and a message that starts with the words Tool execution
    failed.  A name that is not one of the five tools is no exception: its
    MethodNotFound error is caught by the handler's own catch and raised
    again as an InternalError that carries the message of the first, and
    nothing has been done for it. *)
Theorem unknown_tool_is_an_internal_error (name : string) (args : value)
    (w : world) :
  (forall code text w',
      CallTool process_cwd McpError_message name args w
      = (Raised code text, w') ->
      code = InternalError /\ prefix "Tool execution failed: " text = true)
  /\ (~ In name tool_names ->
      CallTool process_cwd McpError_message name args w
      = (Raised InternalError
           ("Tool execution failed: "
            ++ McpError_message MethodNotFound ("Unknown tool: " ++ name)),
         w)).
Proof.
  split.
  - intros code text w'. unfold CallTool.
    destruct (dispatch process_cwd name args w)
      as [[[answer | [code' text']] | e |] w1];
      intros H; inversion H; subst; (split; [reflexivity |]);
      apply (prefix_app "Tool execution failed: ").
  - intros Hn. unfold CallTool, dispatch.
    destruct (String.eqb_spec name "detect_docker_environment") as [-> | _];
      [exfalso; apply Hn; simpl; tauto |].
    destruct (String.eqb_spec name "generate_network_config") as [-> | _];
      [exfalso; apply Hn; simpl; tauto |].
    destruct (String.eqb_spec name "check_localstack_health") as [-> | _];
      [exfalso; apply Hn; simpl; tauto |].
    destruct (String.eqb_spec name "export_localstack_state") as [-> | _];
      [exfalso; apply Hn; simpl; tauto |].
    destruct (String.eqb_spec name "import_localstack_state") as [-> | _];
      [exfalso; apply Hn; simpl; tauto |].
    reflexivity.
Qed.

(** X24.  None of the five tools ends in a protocol error when its
    arguments have the declared types: detecting, generating a
    configuration, checking health, exporting and importing answer, and
    report a failure inside the answer. *)
Theorem tools_answer_instead_of_raising (name : string) (args : value)
    (w : world) (code : ErrorCode) (text : string) :
  In name tool_names ->
  fst (CallTool process_cwd McpError_message name args w)
  <> Raised code text.
Proof.
  intros [<- | [<- | [<- | [<- | [<- | []]]]]]; unfold CallTool.
  - change (dispatch process_cwd "detect_docker_environment" args)
      with (projectPath <- lift (as_string (or_else (opt_prop args "projectPath")
                                              (VStr process_cwd))) ;;
            results <- detectEnvironment projectPath ;;
            ret (inl (Detected results)) : M (tool_answer + ErrorCode * string)).
    unfold bind, lift, ret.
    destruct (as_string _) as [s | e |] eqn:E1;
      [| now apply as_string_no_throw in E1 | discriminate].
    destruct (detectEnvironment_returns s w) as (a & w1 & ->). discriminate.
  - change (dispatch process_cwd "generate_network_config" args)
      with (containerName <- lift (as_string (or_else (opt_prop args "containerName")
                                                (VStr "localstack"))) ;;
            services <- lift (as_strings (or_else (opt_prop args "services")
                                            (VArr []))) ;;
            ret (inl (Configured
                        (generateConfig
                           (NetworkConfigOptions.mk containerName services
                              None None)))) : M (tool_answer + ErrorCode * string)).
    unfold bind, lift, ret.
    destruct (as_string _) as [s | e |] eqn:E1;
      [| now apply as_string_no_throw in E1 | discriminate].
    destruct (as_strings _) as [l | e |] eqn:E2;
      [discriminate | now apply as_strings_no_throw in E2 | discriminate].
  - change (dispatch process_cwd "check_localstack_health" args)
      with (endpoint <- lift (as_string (or_else (opt_prop args "endpoint")
                                           (VStr "http://localhost:4566"))) ;;
            result <- checkHealth endpoint ;;
            ret (inl (Checked result)) : M (tool_answer + ErrorCode * string)).
    unfold bind, lift, ret.
    destruct (as_string _) as [s | e |] eqn:E1;
      [| now apply as_string_no_throw in E1 | discriminate].
    destruct (health_check_returns s w) as (a & w1 & ->). discriminate.
  - change (dispatch process_cwd "export_localstack_state" args)
      with (outputPath <- lift (as_optional_string (opt_prop args "outputPath")) ;;
            services <- lift (as_strings (or_else (opt_prop args "services")
                                            (VArr []))) ;;
            result <- exportState (StateExportOptions.mk outputPath services None) ;;
            ret (inl (Exported result)) : M (tool_answer + ErrorCode * string)).
    unfold bind, lift, ret.
    destruct (as_optional_string _) as [s | e |] eqn:E1;
      [| now apply as_optional_string_no_throw in E1 | discriminate].
    destruct (as_strings _) as [l | e |] eqn:E2;
      [| now apply as_strings_no_throw in E2 | discriminate].
    assert (Hn : never_throws (exportState (StateExportOptions.mk s l None)))
      by apply try_catch_ret_never_throws.
    specialize (Hn w).
    destruct (exportState (StateExportOptions.mk s l None) w) as [[r | e |] w1];
      cbn [fst] in *; try discriminate. now contradiction (Hn e).
  - change (dispatch process_cwd "import_localstack_state" args)
      with (statePath <- lift (as_string (opt_prop args "statePath")) ;;
            result <- importState statePath ;;
            ret (inl (Imported result)) : M (tool_answer + ErrorCode * string)).
    unfold bind, lift, ret.
    destruct (as_string _) as [s | e |] eqn:E1;
      [| now apply as_string_no_throw in E1 | discriminate].
    assert (Hn : never_throws (importState s))
      by apply try_catch_ret_never_throws.
    specialize (Hn w).
    destruct (importState s w) as [[r | e |] w1];
      cbn [fst] in *; try discriminate. now contradiction (Hn e).
Qed.

End Dispatch.

End Detector.

End Health.

End Properties.

(** * Runs on the sandbox *)

Lemma dispatch_case_insensitive_witness :
  known_kind (toLowerCase "CloudFront") = false
  /\ (forall includeData,
        @exportServiceState (Sandbox.platform []) "CloudFront" includeData
        = ret VNull)
  /\ @exportServiceState (Sandbox.platform []) "S3" true
     = @exportServiceState (Sandbox.platform []) "s3" true.
Proof.
  split; [reflexivity |].
  split.
  - apply (@dispatch_case_insensitive (Sandbox.platform []) "CloudFront").
    reflexivity.
  - apply (@dispatch_case_insensitive (Sandbox.platform []) "S3").
Defined.

Lemma total_is_sum_of_produced_counts_witness :
  @performStateExport Runs.plain Runs.mixed_request Runs.populated
  = (Ok (fst Runs.mixed_result, snd Runs.mixed_result), snd Runs.mixed_export)
  /\ ExportSummary.totalResources (snd Runs.mixed_result) = 3
  /\ exists produced,
       ExportSummary.totalResources (snd Runs.mixed_result) = sum_counts produced
       /\ Forall (fun kv => known_kind (toLowerCase (fst kv)) = true
                           /\ counted (snd kv)) produced.
Proof.
  assert (H : @performStateExport Runs.plain Runs.mixed_request Runs.populated
              = (Ok (fst Runs.mixed_result, snd Runs.mixed_result),
                 snd Runs.mixed_export))
    by (vm_compute; reflexivity).
  split; [exact H |]. split; [reflexivity |].
  destruct (@total_is_sum_of_produced_counts Runs.plain _ _ _ _ _ H)
    as (stateData & produced & w1 & w2 & _ & _ & _ & Hk & Ht & _).
  exists produced. now split.
Defined.

Lemma exported_count_is_list_length_witness :
  @exportServiceState Runs.plain "S3" true Runs.populated
  = (Ok Runs.exported_buckets,
     snd (@exportServiceState Runs.plain "S3" true Runs.populated))
  /\ @performStateExport Runs.plain Runs.mixed_request Runs.populated
     = (Ok (fst Runs.mixed_result, snd Runs.mixed_result), snd Runs.mixed_export)
  /\ count_matches_list Runs.exported_buckets
  /\ prop Runs.exported_buckets "resourceCount" = Ok (VNum 2)
  /\ exists stateData,
       In (FileWritten (fst Runs.mixed_result)
             (Sandbox.print (StateExportResult.to_value stateData)) true)
          (trace (snd Runs.mixed_export))
       /\ Forall (fun kv => count_matches_list (snd kv))
            (StateExportResult.services stateData).
Proof.
  assert (H1 : @exportServiceState Runs.plain "S3" true Runs.populated
               = (Ok Runs.exported_buckets,
                  snd (@exportServiceState Runs.plain "S3" true Runs.populated)))
    by (vm_compute; reflexivity).
  assert (H2 : @performStateExport Runs.plain Runs.mixed_request Runs.populated
               = (Ok (fst Runs.mixed_result, snd Runs.mixed_result),
                  snd Runs.mixed_export))
    by (vm_compute; reflexivity).
  split; [exact H1 |]. split; [exact H2 |]. split; [| split].
  - exact (proj1 (proj1 (@exported_count_is_list_length Runs.plain) _ _ _ _ _ H1)).
  - reflexivity.
  - exact (proj2 (@exported_count_is_list_length Runs.plain) _ _ _ _ _ H2).
Defined.

Lemma unfinished_reconstructors_skip_all_witness :
  let tables := VObj [("tables", VArr Runs.three_tables); ("resourceCount", VNum 3)] in
  let topics := VObj [("topics", VArr []); ("resourceCount", VNum 0)] in
  let functions := VObj [("resourceCount", VNum 0)] in
  lists tables "tables" Runs.three_tables
  /\ lists topics "topics" []
  /\ lists functions "functions" []
  /\ @importDynamoDBState Runs.plain tables Runs.populated
     = (Ok (ImportCounts.mk 0 3), Runs.populated)
  /\ @importSNSState Runs.plain topics Runs.populated
     = (Ok (ImportCounts.mk 0 0), Runs.populated)
  /\ @importLambdaState Runs.plain functions Runs.populated
     = (Ok (ImportCounts.mk 0 0), Runs.populated).
Proof.
  intros tables topics functions.
  assert (H1 : lists tables "tables" Runs.three_tables) by (left; reflexivity).
  assert (H2 : lists topics "topics" []) by (left; reflexivity).
  assert (H3 : lists functions "functions" []) by (right; split; reflexivity).
  split; [exact H1 |]. split; [exact H2 |]. split; [exact H3 |].
  split; [| split].
  - exact (proj1 (@unfinished_reconstructors_skip_all Runs.plain
                    tables Runs.three_tables Runs.populated) H1).
  - exact (proj1 (proj2 (@unfinished_reconstructors_skip_all Runs.plain
                           topics [] Runs.populated)) H2).
  - exact (proj2 (proj2 (@unfinished_reconstructors_skip_all Runs.plain
                           functions [] Runs.populated)) H3).
Defined.

Lemma create_failure_is_a_skip_witness :
  let state := VObj [("buckets", VArr Runs.two_buckets)] in
  let alpha := VObj [("name", VStr "alpha")] in
  let gamma := VObj [("name", VStr "gamma")] in
  let conflict := snd (@create_bucket Runs.plain alpha Runs.populated) in
  @create_bucket Runs.plain alpha Runs.populated
  = (Throw (AxiosError "Request failed with status code 409"), conflict)
  /\ @create_each Runs.plain create_bucket [alpha; gamma] 0 0 Runs.populated
     = @create_each Runs.plain create_bucket [gamma] 0 (0 + 1) conflict
  /\ lists state "buckets" Runs.two_buckets
  /\ fst (@importS3State Runs.plain state Runs.populated)
     = Ok (ImportCounts.mk 1 1)
  /\ (exists outcomes r w',
        @importS3State Runs.plain state Runs.populated = (Ok r, w')
        /\ @attempted Runs.plain create_bucket Runs.two_buckets Runs.populated
             (false :: outcomes) w'
        /\ ImportCounts.imported r = accepted (false :: outcomes)
        /\ ImportCounts.skipped r = len (filter negb (false :: outcomes))
        /\ ImportCounts.imported r + ImportCounts.skipped r = len Runs.two_buckets
        /\ 0 <= ImportCounts.imported r /\ 0 <= ImportCounts.skipped r)
  /\ (exists outcomes r w',
        @importSQSState Runs.plain (VObj [("queues", VArr [VStr Runs.jobs_queue])])
          Runs.fresh = (Ok r, w')
        /\ @attempted Runs.plain create_queue [VStr Runs.jobs_queue] Runs.fresh
             outcomes w'
        /\ ImportCounts.imported r = accepted outcomes
        /\ ImportCounts.skipped r = len (filter negb outcomes)
        /\ ImportCounts.imported r + ImportCounts.skipped r = len [VStr Runs.jobs_queue]
        /\ 0 <= ImportCounts.imported r /\ 0 <= ImportCounts.skipped r).
Proof.
  intros state alpha gamma conflict.
  assert (H : @create_bucket Runs.plain alpha Runs.populated
              = (Throw (AxiosError "Request failed with status code 409"), conflict))
    by (vm_compute; reflexivity).
  assert (Hl : lists state "buckets" Runs.two_buckets) by (left; reflexivity).
  split; [exact H |]. split.
  - exact (proj1 (@create_failure_is_a_skip Runs.plain) _ _ _ _ _ _ _ _ H).
  - split; [exact Hl |]. split; [vm_compute; reflexivity |]. split.
    + destruct (proj1 (proj2 (@create_failure_is_a_skip Runs.plain))
                  state Runs.two_buckets Runs.populated Hl)
        as (outcomes & r & w' & E & Ha & Hrest).
      inversion Ha as [| item rest w0 w1 others w2 Hc Hr
                       | item rest w0 w1 e others w2 Hc Hr]; subst.
      * exfalso. unfold alpha in H. rewrite H in Hc. discriminate Hc.
      * exists others, r, w'. split; [exact E |]. split; [exact Ha | exact Hrest].
    + apply (proj1 (proj2 (proj2 (@create_failure_is_a_skip Runs.plain)))).
      left; reflexivity.
Defined.

Lemma import_without_snapshot_fails_witness :
  @no_snapshot_at Runs.plain "missing.yml" Runs.fresh
  /\ exists error read_ok w',
       @importState Runs.plain "missing.yml" Runs.fresh
       = (Ok (Failure error getImportTroubleshootingTips), w')
       /\ trace w' = (trace Runs.fresh ++ [FileRead "missing.yml" read_ok])%list.
Proof.
  assert (H : @no_snapshot_at Runs.plain "missing.yml" Runs.fresh).
  { left. eexists. eexists. reflexivity. }
  split; [exact H |].
  exact (@import_without_snapshot_fails Runs.plain "missing.yml" Runs.fresh H).
Defined.

Lemma bucket_round_trip_witness :
  let imported := @importS3State Runs.plain Runs.exported_buckets Runs.fresh in
  @exportS3State Runs.plain true Runs.populated
  = (Ok Runs.exported_buckets, snd (@exportS3State Runs.plain true Runs.populated))
  /\ reads_back_as Runs.exported_buckets Runs.exported_buckets
  /\ every_call_succeeded (trace Runs.fresh) (trace (snd imported))
  /\ fst imported = Ok (ImportCounts.mk 2 0)
  /\ exists exported,
       prop Runs.exported_buckets "buckets" = Ok (VArr exported)
       /\ prop Runs.exported_buckets "resourceCount" = Ok (VNum (len exported))
       /\ fst imported = Ok (ImportCounts.mk (len exported) 0).
Proof.
  intros imported.
  assert (H1 : @exportS3State Runs.plain true Runs.populated
               = (Ok Runs.exported_buckets,
                  snd (@exportS3State Runs.plain true Runs.populated)))
    by (vm_compute; reflexivity).
  assert (H2 : reads_back_as Runs.exported_buckets Runs.exported_buckets)
    by exact (@exported_reads_back_as_itself Runs.plain _ _ _ _ H1).
  assert (H3 : @importS3State Runs.plain Runs.exported_buckets Runs.fresh
               = (fst imported, snd imported))
    by (vm_compute; reflexivity).
  assert (H4 : every_call_succeeded (trace Runs.fresh) (trace (snd imported))).
  { exists (trace (snd imported)). split; vm_compute; reflexivity. }
  split; [exact H1 |]. split; [exact H2 |]. split; [exact H4 |].
  split; [vm_compute; reflexivity |].
  exact (@bucket_round_trip Runs.plain _ _ _ _ _ _ _ _ H1 H2 H3 H4).
Defined.

(** A name requested twice runs its extractor twice: both results are
    counted, and the second takes the place of the first in the snapshot. *)
Example name_requested_twice :
  let run := @performStateExport Runs.plain
               (Runs.export_to "state.yml" ["sqs"; "sqs"]) Runs.populated in
  exists summary stateData,
    fst run = Ok ("state.yml", summary)
    /\ ExportSummary.totalResources summary = 2
    /\ last (trace (snd run)) (FileRead "" false)
       = FileWritten "state.yml"
           (Sandbox.print (StateExportResult.to_value stateData)) true
    /\ keys (StateExportResult.services stateData) = ["sqs"].
Proof.
  intros run. eexists.
  exists (StateExportResult.mk "1.0" "2024-05-02T08:30:00.000Z"
            [("sqs", service_state "queues" (VArr [VStr Runs.jobs_queue]) (VNum 1))]
            (Metadata.mk (VStr "3.0.0") ["sqs"; "sqs"] 2)).
  repeat split; vm_compute; reflexivity.
Qed.

(** The whole path on the sandbox: the file an export of two buckets wrote
    is what the codec prints for [snapshot_document], and importing it into
    a reset emulator creates both buckets. *)
Example snapshot_round_trip_on_sandbox :
  Sandbox.print Runs.snapshot_document = Runs.written
  /\ exists summary recommendations,
       fst (@importState Runs.reader "state.yml" Runs.reset_with_snapshot)
       = Ok (Success (summary, recommendations))
       /\ ImportSummary.servicesFound summary = ["s3"]
       /\ ImportSummary.importedResources summary = 2
       /\ ImportSummary.skippedResources summary = 0
       /\ ImportSummary.errors summary = []
       /\ Sandbox.buckets
            (env (snd (@importState Runs.reader "state.yml" Runs.reset_with_snapshot)))
          = ["alpha"; "beta"].
Proof.
  split; [vm_compute; reflexivity |].
  eexists. eexists. repeat split; vm_compute; reflexivity.
Qed.

(** ** Where the code departs from its description *)

(** C1.  With the emulator down, an export of queues alone does not fail:
    the health request and the listing request are both refused, and still
    a snapshot is written and a success returned.  The check that would
    have stopped it, which the import runs, throws on the same world. *)
Theorem export_runs_without_connectivity_check :
  let run := @exportState Runs.plain (Runs.export_to "state.yml" ["sqs"]) Runs.offline in
  (exists summary,
      fst run = Ok (Success ("state.yml", summary))
      /\ ExportSummary.totalResources summary = 0)
  /\ map is_request (trace (snd run)) = [true; true; false]
  /\ map is_write (trace (snd run)) = [false; false; true]
  /\ map succeeded (trace (snd run)) = [false; false; true]
  /\ keys (Sandbox.files (env (snd run))) = ["state.yml"]
  /\ fst (@validateLocalStackConnectivity Runs.plain Runs.offline)
     = Throw (Error not_accessible).
Proof.
  intros run. split.
  - eexists. split; vm_compute; reflexivity.
  - repeat split; vm_compute; reflexivity.
Qed.

(** C2.  The bucket extractor lets a refused listing request escape, and it
    fails the whole export; the other four extractors turn the same refusal
    into an empty state. *)
Theorem s3_listing_failure_escapes :
  fst (@exportS3State Runs.plain true Runs.offline) = Throw (AxiosError Runs.refused)
  /\ fst (@exportState Runs.plain (Runs.export_to "state.yml" ["s3"]) Runs.offline)
     = Ok (Failure Runs.refused getExportTroubleshootingTips)
  /\ fst (@exportDynamoDBState Runs.plain true Runs.offline)
     = Ok (service_state "tables" (VArr []) (VNum 0))
  /\ fst (@exportSQSState Runs.plain Runs.offline)
     = Ok (service_state "queues" (VArr []) (VNum 0))
  /\ fst (@exportSNSState Runs.plain Runs.offline)
     = Ok (service_state "topics" (VArr []) (VNum 0))
  /\ fst (@exportLambdaState Runs.plain Runs.offline)
     = Ok (service_state "functions" (VArr []) (VNum 0)).
Proof.
  repeat split; vm_compute; reflexivity.
Qed.

(** C4.  Asked for queues and two names that have no extractor, the export
    writes a snapshot with one service and reports three as exported. *)
Theorem servicesExported_counts_requested_names :
  let run := @exportState Runs.plain
               (Runs.export_to "state.yml" ["sqs"; "cloudfront"; "route53"])
               Runs.populated in
  exists summary stateData,
    fst run = Ok (Success ("state.yml", summary))
    /\ ExportSummary.servicesExported summary = 3
    /\ last (trace (snd run)) (FileRead "" false)
       = FileWritten "state.yml"
           (Sandbox.print (StateExportResult.to_value stateData)) true
    /\ keys (StateExportResult.services stateData) = ["sqs"].
Proof.
  intros run. eexists.
  exists (StateExportResult.mk "1.0" "2024-05-02T08:30:00.000Z"
            [("sqs", service_state "queues" (VArr [VStr Runs.jobs_queue]) (VNum 1))]
            (Metadata.mk (VStr "3.0.0") ["sqs"; "cloudfront"; "route53"] 1)).
  repeat split; vm_compute; reflexivity.
Qed.


(** * Runs for the further properties *)

Lemma export_without_s3_fails_only_on_disk_witness :
  let options := Runs.export_to "state.yml" ["sqs"; "Lambda"] in
  Forall (fun service => s3_kind service = false)
    (StateExportOptions.services options)
  /\ fst (@performStateExport Scenes.scripted options Scenes.read_only_disk)
     = Throw (SystemError "EACCES: permission denied, open 'state.yml'")
  /\ exists msg,
       SystemError "EACCES: permission denied, open 'state.yml'" = SystemError msg.
Proof.
  intros options.
  assert (H1 : Forall (fun service => s3_kind service = false)
                 (StateExportOptions.services options))
    by (repeat constructor).
  assert (H2 : @performStateExport Scenes.scripted options Scenes.read_only_disk
               = (Throw (SystemError "EACCES: permission denied, open 'state.yml'"),
                  snd (@performStateExport Scenes.scripted options
                         Scenes.read_only_disk)))
    by (vm_compute; reflexivity).
  split; [exact H1 |]. split; [vm_compute; reflexivity |].
  exact (@export_without_s3_fails_only_on_disk Scenes.scripted options _ _ _ H1 H2).
Defined.

Lemma s3_export_keeps_every_listed_bucket_witness :
  let listing := {| data := Sandbox.list_buckets (env Runs.populated) |} in
  let listed := snd (@makeLocalStackRequest Runs.plain "GET" "/" [] VUndefined
                       Runs.populated) in
  @makeLocalStackRequest Runs.plain "GET" "/" [] VUndefined Runs.populated
  = (Ok listing, listed)
  /\ nullish (data listing) = false
  /\ Forall (fun bucket => nullish bucket = false) (listed_buckets (data listing))
  /\ exists infos w',
       @exportS3State Runs.plain true Runs.populated
       = (Ok (service_state "buckets" (VArr infos) (VNum 2)), w')
       /\ map (fun info => opt_prop info "name") infos
          = [VStr "alpha"; VStr "beta"].
Proof.
  intros listing listed.
  assert (H1 : @makeLocalStackRequest Runs.plain "GET" "/" [] VUndefined
                 Runs.populated = (Ok listing, listed))
    by (vm_compute; reflexivity).
  assert (H2 : nullish (data listing) = false) by reflexivity.
  assert (H3 : Forall (fun bucket => nullish bucket = false)
                 (listed_buckets (data listing)))
    by (repeat constructor).
  split; [exact H1 |]. split; [exact H2 |]. split; [exact H3 |].
  destruct (@s3_export_keeps_every_listed_bucket Runs.plain true _ _ _ H1 H2 H3)
    as (infos & w' & E & Hn & _).
  exists infos, w'. split; [exact E | exact Hn].
Defined.

Lemma dynamodb_export_keeps_every_listed_table_witness :
  let names := [VStr "users"; VStr "orders"] in
  let listing := {| data := VObj [("TableNames", VArr names)] |} in
  let listed := snd (@makeLocalStackRequest Scenes.scripted "POST" "/"
                       (dynamodb_headers "ListTables") (VObj [])
                       Scenes.with_tables) in
  @makeLocalStackRequest Scenes.scripted "POST" "/"
    (dynamodb_headers "ListTables") (VObj []) Scenes.with_tables
  = (Ok listing, listed)
  /\ prop (data listing) "TableNames" = Ok (VArr names)
  /\ exists infos w',
       @exportDynamoDBState Scenes.scripted true Scenes.with_tables
       = (Ok (service_state "tables" (VArr infos) (VNum 2)), w')
       /\ map (fun info => opt_prop info "tableName") infos = names.
Proof.
  intros names listing listed.
  assert (H1 : @makeLocalStackRequest Scenes.scripted "POST" "/"
                 (dynamodb_headers "ListTables") (VObj []) Scenes.with_tables
               = (Ok listing, listed))
    by (vm_compute; reflexivity).
  assert (H2 : prop (data listing) "TableNames" = Ok (VArr names)) by reflexivity.
  split; [exact H1 |]. split; [exact H2 |].
  destruct (@dynamodb_export_keeps_every_listed_table Scenes.scripted true
              _ _ _ _ H1 H2) as (infos & w' & E & Hn & _).
  exists infos, w'. split; [exact E | exact Hn].
Defined.


Lemma exported_entries_are_metadata_only_witness :
  @exportS3State Runs.plain true Runs.populated
  = (Ok Runs.exported_buckets, snd (@exportS3State Runs.plain true Runs.populated))
  /\ (exists infos,
         Runs.exported_buckets
         = service_state "buckets" (VArr infos) (VNum (len infos))
         /\ Forall (fun info =>
                      field_names info = Some ["name"; "creationDate"; "objects"])
              infos)
  /\ exists state w' infos,
       @exportLambdaState Scenes.scripted Scenes.with_function = (Ok state, w')
       /\ state = service_state "functions" (VArr infos) (VNum (len infos))
       /\ Forall (fun info =>
                    field_names info
                    = Some ["functionName"; "runtime"; "handler"; "description";
                            "timeout"; "memorySize"])
            infos.
Proof.
  assert (H1 : @exportS3State Runs.plain true Runs.populated
               = (Ok Runs.exported_buckets,
                  snd (@exportS3State Runs.plain true Runs.populated)))
    by (vm_compute; reflexivity).
  split; [exact H1 |]. split.
  - destruct (proj1 (@exported_entries_are_metadata_only Runs.plain) _ _ _ _ H1)
      as (infos & E & HF).
    exists infos. split; [exact E |].
    eapply Forall_impl; [| exact HF]. intros info [Hi _]. exact Hi.
  - let r := eval vm_compute in
          (@exportLambdaState Scenes.scripted Scenes.with_function) in
    lazymatch r with
    | (Ok ?state, ?w') =>
        assert (H2 : @exportLambdaState Scenes.scripted Scenes.with_function
                     = (Ok state, w'))
          by (vm_compute; reflexivity);
        destruct (proj2 (@exported_entries_are_metadata_only Scenes.scripted)
                    _ _ _ H2) as (infos & E & HF);
        exists state, w', infos; split; [exact H2 | split; [exact E | exact HF]]
    end.
Defined.

Lemma bucket_import_counts_accepted_puts_witness :
  let state := VObj [("buckets", VArr Scenes.gapped_buckets)] in
  lists state "buckets" Scenes.gapped_buckets
  /\ fst (@importS3State Runs.plain state Runs.populated)
     = Ok (ImportCounts.mk 1 2)
  /\ exists answers r w',
       @importS3State Runs.plain state Runs.populated = (Ok r, w')
       /\ List.length answers = 2%nat
       /\ ImportCounts.imported r = accepted answers
       /\ ImportCounts.skipped r = 3 - accepted answers.
Proof.
  intros state.
  assert (H : lists state "buckets" Scenes.gapped_buckets) by (left; reflexivity).
  split; [exact H |]. split; [vm_compute; reflexivity |].
  destruct (@bucket_import_counts_accepted_puts Runs.plain state
              Scenes.gapped_buckets Runs.populated H)
    as (answers & r & w' & E & Hl & _ & Hi & Hs).
  exists answers, r, w'.
  split; [exact E |]. split; [exact Hl |]. split; [exact Hi | exact Hs].
Defined.

Lemma queue_import_creates_by_last_segment_witness :
  let items := [VStr Runs.jobs_queue; VNum 3] in
  let state := VObj [("queues", VArr items)] in
  lists state "queues" items
  /\ fst (@importSQSState Runs.plain state Runs.fresh) = Ok (ImportCounts.mk 1 1)
  /\ (exists answers r w',
         @importSQSState Runs.plain state Runs.fresh = (Ok r, w')
         /\ List.length answers = 1%nat
         /\ trace w'
            = (trace Runs.fresh
               ++ calls create_queue_named [VStr Runs.jobs_queue] answers)%list)
  /\ exists name,
       body (create_queue_named (VStr Runs.jobs_queue))
       = VObj [("Action", VStr "CreateQueue"); ("QueueName", VStr name);
               ("Version", VStr "2012-11-05")]
       /\ has_slash name = false.
Proof.
  intros items state.
  assert (H : lists state "queues" items) by (left; reflexivity).
  split; [exact H |]. split; [vm_compute; reflexivity |].
  destruct (@queue_import_creates_by_last_segment Runs.plain state items
              Runs.fresh H) as [Hrun Hname].
  split.
  - destruct Hrun as (answers & r & w' & E & Hl & Ht & _).
    exists answers, r, w'. split; [exact E |]. split; [exact Hl | exact Ht].
  - destruct (Hname Runs.jobs_queue) as (name & Hb & Hs & _).
    exists name. split; [exact Hb | exact Hs].
Defined.

Lemma import_loop_records_failures_witness :
  exists summary w' outcomes,
    @import_services Runs.plain Scenes.broken_snapshot Scenes.summary_at_start
      Runs.fresh = (Ok summary, w')
    /\ ImportSummary.errors summary = ["Failed to import s3: 5 is not iterable"]
    /\ ImportSummary.importedResources summary = 1
    /\ @reconstructed Runs.plain Scenes.broken_snapshot Runs.fresh outcomes w'
    /\ ImportSummary.errors summary
       = (ImportSummary.errors Scenes.summary_at_start
          ++ failures Scenes.broken_snapshot outcomes)%list
    /\ ImportSummary.importedResources summary
       = ImportSummary.importedResources Scenes.summary_at_start
         + total_of ImportCounts.imported outcomes.
Proof.
  let r := eval vm_compute in
        (@import_services Runs.plain Scenes.broken_snapshot
           Scenes.summary_at_start Runs.fresh) in
  lazymatch r with
  | (Ok ?summary, ?w') =>
      assert (H : @import_services Runs.plain Scenes.broken_snapshot
                    Scenes.summary_at_start Runs.fresh = (Ok summary, w'))
        by (vm_compute; reflexivity);
      destruct (proj2 (@import_loop_records_failures Runs.plain
                         Scenes.broken_snapshot Scenes.summary_at_start)
                  _ _ _ H) as (outcomes & Hr & He & Hi & _);
      exists summary, w', outcomes; split; [exact H |];
      split; [reflexivity |]; split; [reflexivity |];
      split; [exact Hr |]; split; [exact He | exact Hi]
  end.
Defined.

Lemma import_passes_over_unknown_kinds_witness :
  Forall (fun kv => known_kind (toLowerCase (fst kv)) = false)
    Scenes.foreign_snapshot
  /\ @import_services Runs.plain Scenes.foreign_snapshot Scenes.summary_at_start
       Runs.fresh
     = (Ok Scenes.summary_at_start, Runs.fresh).
Proof.
  assert (H : Forall (fun kv => known_kind (toLowerCase (fst kv)) = false)
                Scenes.foreign_snapshot)
    by (repeat constructor).
  split; [exact H |].
  exact (@import_passes_over_unknown_kinds Runs.plain Scenes.foreign_snapshot
           Scenes.summary_at_start Runs.fresh H).
Defined.

Lemma import_stops_when_emulator_is_down_witness :
  let w := Scenes.stopped_with_snapshot in
  @readFile Runs.reader "state.yml" (env w) = (inr Runs.written, env w)
  /\ @parse Runs.reader Runs.written = inr Runs.snapshot_document
  /\ snapshot_shaped Runs.snapshot_document = true
  /\ @axios Runs.reader connectivity_probe (env w) = (inl Runs.refused, env w)
  /\ @importState Runs.reader "state.yml" w
     = (Ok (Failure not_accessible getImportTroubleshootingTips),
        {| env := env w;
           trace := trace w ++ [FileRead "state.yml" true;
                                Requested connectivity_probe false] |}).
Proof.
  intros w.
  assert (H1 : @readFile Runs.reader "state.yml" (env w)
               = (inr Runs.written, env w)) by (vm_compute; reflexivity).
  assert (H2 : @parse Runs.reader Runs.written = inr Runs.snapshot_document)
    by (vm_compute; reflexivity).
  assert (H3 : snapshot_shaped Runs.snapshot_document = true)
    by (vm_compute; reflexivity).
  assert (H4 : @axios Runs.reader connectivity_probe (env w)
               = (inl Runs.refused, env w)) by (vm_compute; reflexivity).
  split; [exact H1 |]. split; [exact H2 |]. split; [exact H3 |].
  split; [exact H4 |].
  exact (@import_stops_when_emulator_is_down Runs.reader "state.yml" Runs.written
           Runs.refused Runs.snapshot_document w (env w) (env w) H1 H2 H3 H4).
Defined.

Lemma import_advice_follows_summary_witness :
  exists summary recommendations w',
    @performStateImport Runs.reader "state.yml" Runs.reset_with_snapshot
    = (Ok (summary, recommendations), w')
    /\ ImportSummary.version summary = VStr "1.0"
    /\ (In "State file version mismatch - some features may not work correctly"
          recommendations <-> ImportSummary.version summary <> VStr "1.0")
    /\ In "Verify imported resources match your expectations" recommendations
    /\ exists content e1 stateData,
         @readFile Runs.reader "state.yml" (env Runs.reset_with_snapshot)
         = (inr content, e1)
         /\ @parse Runs.reader content = inr stateData
         /\ ImportSummary.version summary = opt_prop stateData "version"
         /\ ImportSummary.totalResources summary
            = opt_prop (opt_prop stateData "metadata") "totalResources".
Proof.
  let r := eval vm_compute in
        (@performStateImport Runs.reader "state.yml" Runs.reset_with_snapshot) in
  lazymatch r with
  | (Ok (?summary, ?recommendations), ?w') =>
      assert (H : @performStateImport Runs.reader "state.yml"
                    Runs.reset_with_snapshot
                  = (Ok (summary, recommendations), w'))
        by (vm_compute; reflexivity);
      destruct (@import_advice_follows_summary Runs.reader _ _ _ _ _ H)
        as (Hv & _ & _ & Hc & _ & Hfile);
      exists summary, recommendations, w';
      split; [exact H |]; split; [reflexivity |]; split; [exact Hv |];
      split; [exact Hc | exact Hfile]
  end.
Defined.

Lemma export_advice_follows_total_witness :
  @performStateExport Runs.plain Runs.mixed_request Runs.populated
  = (Ok (fst Runs.mixed_result, snd Runs.mixed_result), snd Runs.mixed_export)
  /\ ExportSummary.totalResources (snd Runs.mixed_result) = 3
  /\ (In "No resources found - ensure LocalStack services are running and populated"
        (ExportSummary.recommendations (snd Runs.mixed_result))
      <-> ExportSummary.totalResources (snd Runs.mixed_result) = 0)
  /\ (In "Large state export - consider splitting by service for better performance"
        (ExportSummary.recommendations (snd Runs.mixed_result))
      <-> 100 < ExportSummary.totalResources (snd Runs.mixed_result)).
Proof.
  assert (H : @performStateExport Runs.plain Runs.mixed_request Runs.populated
              = (Ok (fst Runs.mixed_result, snd Runs.mixed_result),
                 snd Runs.mixed_export))
    by (vm_compute; reflexivity).
  split; [exact H |]. split; [reflexivity |].
  destruct (@export_advice_follows_total Runs.plain _ _ _ _ _ H)
    as (Hzero & Hlarge & _).
  split; [exact Hzero | exact Hlarge].
Defined.

Lemma export_path_is_given_or_stamped_witness :
  (@performStateExport Runs.plain Runs.mixed_request Runs.populated
   = (Ok (fst Runs.mixed_result, snd Runs.mixed_result), snd Runs.mixed_export)
   /\ fst Runs.mixed_result = "state.yml"
   /\ ExportSummary.exportPath (snd Runs.mixed_result) = fst Runs.mixed_result
   /\ exists requests content,
        trace (snd Runs.mixed_export)
        = (trace Runs.populated ++ requests
           ++ [FileWritten "state.yml" content true])%list)
  /\ exists path summary w',
       @performStateExport Runs.plain (StateExportOptions.mk None ["s3"] None)
         Runs.populated = (Ok (path, summary), w')
       /\ @toISOString Runs.plain (env Runs.populated)
          = ("2024-05-02T08:30:00.000Z", env Runs.populated)
       /\ path = "localstack-state-2024-05-02T08-30-00-000Z.yml"
       /\ exists requests content,
            trace w'
            = (trace Runs.populated ++ requests
               ++ [FileWritten path content true])%list.
Proof.
  split.
  - assert (H : @performStateExport Runs.plain Runs.mixed_request Runs.populated
                = (Ok (fst Runs.mixed_result, snd Runs.mixed_result),
                   snd Runs.mixed_export))
      by (vm_compute; reflexivity).
    split; [exact H |].
    destruct (@export_path_is_given_or_stamped Runs.plain _ _ _ _ _ H)
      as (Hs & Hp & _ & (requests & content & Ht & _)).
    split; [| split; [exact Hs |]].
    + symmetry. apply (Hp "state.yml"); [reflexivity | discriminate].
    + now exists requests, content.
  - let r := eval vm_compute in
          (@performStateExport Runs.plain (StateExportOptions.mk None ["s3"] None)
             Runs.populated) in
    lazymatch r with
    | (Ok (?path, ?summary), ?w') =>
        assert (H : @performStateExport Runs.plain
                      (StateExportOptions.mk None ["s3"] None) Runs.populated
                    = (Ok (path, summary), w'))
          by (vm_compute; reflexivity);
        destruct (@export_path_is_given_or_stamped Runs.plain _ _ _ _ _ H)
          as (_ & _ & Hd & (requests & content & Ht & _));
        destruct (Hd (or_introl eq_refl)) as (Hp & _);
        exists path, summary, w';
        split; [exact H |]; split; [reflexivity |]; split; [exact Hp |];
        now exists requests, content
    end.
Defined.

Lemma export_of_nothing_witness :
  let options := Runs.export_to "empty.yml" [] in
  StateExportOptions.services options = []
  /\ exists path summary w',
       @performStateExport Runs.plain options Runs.fresh = (Ok (path, summary), w')
       /\ ExportSummary.servicesExported summary = 0
       /\ ExportSummary.totalResources summary = 0
       /\ In "No resources found - ensure LocalStack services are running and populated"
            (ExportSummary.recommendations summary).
Proof.
  intros options.
  assert (H0 : StateExportOptions.services options = []) by reflexivity.
  split; [exact H0 |].
  let r := eval vm_compute in
        (@performStateExport Runs.plain options Runs.fresh) in
  lazymatch r with
  | (Ok (?path, ?summary), ?w') =>
      assert (H : @performStateExport Runs.plain options Runs.fresh
                  = (Ok (path, summary), w'))
        by (vm_compute; reflexivity);
      destruct (@export_of_nothing Runs.plain options _ _ _ _ H0 H)
        as (Hs & Ht & Hr & _);
      exists path, summary, w';
      split; [exact H | split; [exact Hs | split; [exact Ht | exact Hr]]]
  end.
Defined.

Lemma environment_variables_follow_services_witness :
  let vars := generateEnvironmentVariables ["s3"; "Lambda"; "s3"] in
  In ("S3_SKIP_SIGNATURE_VALIDATION", ("s3", "true")) service_variables
  /\ In ("LAMBDA_EXECUTOR", ("lambda", "docker-reuse")) service_variables
  /\ lookup "S3_SKIP_SIGNATURE_VALIDATION" vars = Some "true"
  /\ lookup "LAMBDA_EXECUTOR" vars = None
  /\ lookup "SERVICES" vars = Some "s3,Lambda,s3".
Proof.
  intros vars.
  assert (H1 : In ("S3_SKIP_SIGNATURE_VALIDATION", ("s3", "true")) service_variables)
    by (simpl; tauto).
  assert (H2 : In ("LAMBDA_EXECUTOR", ("lambda", "docker-reuse")) service_variables)
    by (simpl; tauto).
  assert (H3 : In ("SERVICES", "s3,Lambda,s3") (baseVars ["s3"; "Lambda"; "s3"]))
    by (simpl; tauto).
  destruct (environment_variables_follow_services ["s3"; "Lambda"; "s3"])
    as (_ & Hb & Hs & _).
  split; [exact H1 |]. split; [exact H2 |].
  split; [exact (Hs _ _ _ H1) |]. split; [exact (Hs _ _ _ H2) |].
  exact (Hb _ _ H3).
Defined.


Lemma overall_follows_error_statuses_witness :
  exists result w',
    @checkHealth Scenes.scripted Scenes.clock "http://localhost:4566"
      Scenes.degraded = (Ok (inl result), w')
    /\ map ServiceStatus.service (HealthCheckResult.services result)
       = ["s3"; "sqs"; "sns"]
    /\ in_error (HealthCheckResult.services result) = 1
    /\ (HealthCheckResult.overall result = "degraded"
        <-> 0 < in_error (HealthCheckResult.services result)
            /\ 2 * in_error (HealthCheckResult.services result)
               <= len (HealthCheckResult.services result))
    /\ (0 < in_error (HealthCheckResult.services result) ->
        In (unavailable_advice (in_error (HealthCheckResult.services result)))
           (HealthCheckResult.recommendations result)).
Proof.
  let r := eval vm_compute in
        (@checkHealth Scenes.scripted Scenes.clock "http://localhost:4566"
           Scenes.degraded) in
  lazymatch r with
  | (Ok (inl ?result), ?w') =>
      assert (H : @checkHealth Scenes.scripted Scenes.clock
                    "http://localhost:4566" Scenes.degraded
                  = (Ok (inl result), w'))
        by (vm_compute; reflexivity);
      destruct (@overall_follows_error_statuses Scenes.scripted Scenes.clock
                  _ _ _ _ H) as (_ & _ & _ & Hd & Ha);
      exists result, w';
      split; [exact H |]; split; [reflexivity |]; split; [reflexivity |];
      split; [exact Hd | exact Ha]
  end.
Defined.

Lemma later_failures_are_absorbed_witness :
  exists result w' diagnosed inited reached tail init,
    @checkHealth Scenes.scripted Scenes.clock "http://localhost:4566"
      Scenes.degraded = (Ok (inl result), w')
    /\ HealthCheckResult.diagnostics result
       = [("initStatus", VObj [("completed", VObj [("BOOT", VBool true)])])]
    /\ trace w'
       = (trace Scenes.degraded
          ++ [Requested (health_probe "http://localhost:4566") true;
              Requested (diagnose_probe "http://localhost:4566") diagnosed;
              Requested (init_probe "http://localhost:4566") inited;
              Requested (latency_probe "http://localhost:4566") reached]
          ++ tail)%list
    /\ lookup "initStatus" (HealthCheckResult.diagnostics result) = Some init
    /\ (diagnosed = false ->
        HealthCheckResult.diagnostics result = [("initStatus", init)]
        /\ hd_error (HealthCheckResult.recommendations result)
           = Some "Unable to retrieve diagnostic information").
Proof.
  let r := eval vm_compute in
        (@checkHealth Scenes.scripted Scenes.clock "http://localhost:4566"
           Scenes.degraded) in
  lazymatch r with
  | (Ok (inl ?result), ?w') =>
      assert (H : @checkHealth Scenes.scripted Scenes.clock
                    "http://localhost:4566" Scenes.degraded
                  = (Ok (inl result), w'))
        by (vm_compute; reflexivity);
      destruct (@later_failures_are_absorbed Scenes.scripted Scenes.clock
                  _ _ _ _ H)
        as (diagnosed & inited & reached & tail & init & Ht & Hi & Hd & _);
      exists result, w', diagnosed, inited, reached, tail, init;
      split; [exact H |]; split; [reflexivity |]; split; [exact Ht |];
      split; [exact Hi | exact Hd]
  end.
Defined.

Lemma trailing_slash_is_ignored_witness :
  ends_with_slash "http://localhost:4566" = false
  /\ @checkHealth Scenes.scripted Scenes.clock ("http://localhost:4566" ++ "/")
       Scenes.degraded
     = @checkHealth Scenes.scripted Scenes.clock "http://localhost:4566"
         Scenes.degraded.
Proof.
  assert (H : ends_with_slash "http://localhost:4566" = false)
    by (vm_compute; reflexivity).
  split; [exact H |].
  exact (@trailing_slash_is_ignored Scenes.scripted Scenes.clock
           "http://localhost:4566" Scenes.degraded H).
Defined.

Lemma unknown_tool_is_an_internal_error_witness :
  ~ In "list_buckets" tool_names
  /\ @CallTool Scenes.scripted Scenes.clock Scenes.host "/srv/app"
       Scenes.sdk_message "list_buckets" (VObj [("bucket", VStr "alpha")])
       Scenes.degraded
     = (Raised InternalError
          "Tool execution failed: MCP error -32601: Unknown tool: list_buckets",
        Scenes.degraded).
Proof.
  assert (H : ~ In "list_buckets" tool_names)
    by (simpl; intuition discriminate).
  split; [exact H |].
  exact (proj2 (@unknown_tool_is_an_internal_error Scenes.scripted Scenes.clock Scenes.host
                  "/srv/app" Scenes.sdk_message
                  "list_buckets" (VObj [("bucket", VStr "alpha")])
                  Scenes.degraded) H).
Defined.

Lemma tools_answer_instead_of_raising_witness :
  let args := VObj [("statePath", VStr "missing.yml")] in
  In "import_localstack_state" tool_names
  /\ (exists error tips,
         fst (@CallTool Scenes.scripted Scenes.clock Scenes.host "/srv/app"
                Scenes.sdk_message "import_localstack_state" args
                Scenes.degraded)
         = Answered (Imported (Failure error tips)))
  /\ forall code text,
       fst (@CallTool Scenes.scripted Scenes.clock Scenes.host "/srv/app"
              Scenes.sdk_message "import_localstack_state" args Scenes.degraded)
       <> Raised code text.
Proof.
  intros args.
  assert (H : In "import_localstack_state" tool_names) by (simpl; tauto).
  split; [exact H |]. split.
  - eexists _, _. vm_compute. reflexivity.
  - intros code text.
    exact (@tools_answer_instead_of_raising Scenes.scripted Scenes.clock Scenes.host
             "/srv/app" Scenes.sdk_message
             "import_localstack_state" args Scenes.degraded code text H).
Defined.


Lemma docker_down_ends_detection_witness :
  @ping Workstation.platform Workstation.host (env Scenes.without_docker)
  = (inl "connect ENOENT /var/run/docker.sock", env Scenes.without_docker)
  /\ @detectEnvironment Workstation.platform Workstation.host "/srv/app"
       Scenes.without_docker
     = (Ok (Results.mk false false VNull "unknown" []
              ["Docker is not running or not accessible"]),
        {| env := env Scenes.without_docker;
           trace := trace Scenes.without_docker |}).
Proof.
  assert (H : @ping Workstation.platform Workstation.host
                (env Scenes.without_docker)
              = (inl "connect ENOENT /var/run/docker.sock",
                 env Scenes.without_docker))
    by (vm_compute; reflexivity).
  split; [exact H |].
  exact (@docker_down_ends_detection Workstation.platform Workstation.host
           "/srv/app" _ Scenes.without_docker _ H).
Defined.

Lemma suggested_config_follows_detection_witness :
  exists suggested w',
    @generateSuggestions Workstation.platform Workstation.host true "/srv/app"
      Scenes.at_work = (Ok suggested, w')
    /\ (exists msg,
          @access Workstation.platform Workstation.host "/.dockerenv"
            (env Scenes.at_work) = (inl msg, env Scenes.at_work))
    /\ @detectAWSServices Workstation.platform Workstation.host "/srv/app"
         Scenes.at_work = (Ok ["s3"; "sqs"], w')
    /\ lookup "environmentVariables" suggested
       = Some (VObj [("LOCALSTACK_HOST", VStr "localhost");
                     ("EDGE_PORT", VStr "4566");
                     ("SERVICES", VStr "s3,sqs")])
    /\ lookup "detectedServices" suggested = Some (strings ["s3"; "sqs"])
    /\ lookup "dockerComposeTemplate" suggested = None
    /\ lookup "note" suggested = None
    /\ lookup "existingComposeFile" suggested = None.
Proof.
  let r := eval vm_compute in
        (@generateSuggestions Workstation.platform Workstation.host true
           "/srv/app" Scenes.at_work) in
  lazymatch r with
  | (Ok ?suggested, ?w') =>
      assert (H : @generateSuggestions Workstation.platform Workstation.host
                    true "/srv/app" Scenes.at_work = (Ok suggested, w'))
        by (vm_compute; reflexivity);
      destruct (proj1 (@suggested_config_follows_detection Workstation.platform
                         Workstation.host "/srv/app") _ _ _ _ H)
        as (inContainer & e1 & detected & variables
            & Ha & Ed & Hv & Hvs & Hd & Ht & Hn & Hx);
      exists suggested, w'; split; [exact H |]
  end.
  assert (Hacc : exists msg,
             @access Workstation.platform Workstation.host "/.dockerenv"
               (env Scenes.at_work) = (inl msg, env Scenes.at_work))
    by (eexists; vm_compute; reflexivity).
  split; [exact Hacc |]. destruct Hacc as (msg & Hacc).
  destruct Ha as [[_ Ha] | [-> (msg' & Ha)]];
    rewrite Hacc in Ha; [discriminate |].
  assert (He : e1 = env Scenes.at_work) by (inversion Ha; reflexivity).
  subst e1.
  assert (Hdet : @detectAWSServices Workstation.platform Workstation.host
                   "/srv/app" Scenes.at_work = (Ok detected, _)) by exact Ed.
  assert (Hs : detected = ["s3"; "sqs"]).
  { vm_compute in Hdet. inversion Hdet. reflexivity. }
  subst detected. subst variables.
  split; [exact Hdet |]. split; [exact Hv |]. split; [exact Hd |].
  split; [exact Ht |]. split; [exact Hn | exact Hx].
Defined.

Lemma detected_services_come_from_sources_witness :
  exists w' w1 reads,
    @detectAWSServices Workstation.platform Workstation.host "/srv/app"
      Scenes.at_work = (Ok ["s3"; "sqs"], w')
    /\ @findSourceFiles Workstation.platform Workstation.host "/srv/app"
         Scenes.at_work
       = (Ok ["/srv/app/src/upload.ts"; "/srv/app/src/queue.py";
           "/srv/app/package.json"; "/srv/app/docker-compose.yml"], w1)
    /\ @read_in_turn Workstation.platform
         ["/srv/app/src/upload.ts"; "/srv/app/src/queue.py";
           "/srv/app/package.json"; "/srv/app/docker-compose.yml"] w1 reads w'
    /\ NoDup ["s3"; "sqs"]
    /\ (exists content pattern,
          In (Some content) reads
          /\ In ("sqs", pattern) servicePatterns
          /\ test pattern content = true)
    /\ ~ (exists content pattern,
            In (Some content) reads
            /\ In ("lambda", pattern) servicePatterns
            /\ test pattern content = true).
Proof.
  let r := eval vm_compute in
        (@detectAWSServices Workstation.platform Workstation.host "/srv/app"
           Scenes.at_work) in
  lazymatch r with
  | (Ok ?services, ?w') =>
      assert (H : @detectAWSServices Workstation.platform Workstation.host
                    "/srv/app" Scenes.at_work = (Ok ["s3"; "sqs"], w'))
        by (vm_compute; reflexivity);
      destruct (@detected_services_come_from_sources Workstation.platform
                  Workstation.host _ _ _ _ H)
        as (files & w1 & reads & Hf & _ & Hr & Hn & Hs & _);
      exists w', w1, reads; split; [exact H |]
  end.
  assert (Hfiles : files = ["/srv/app/src/upload.ts"; "/srv/app/src/queue.py";
           "/srv/app/package.json"; "/srv/app/docker-compose.yml"]).
  { vm_compute in Hf. inversion Hf. reflexivity. }
  subst files.
  split; [exact Hf |]. split; [exact Hr |]. split; [exact Hn |].
  split.
  - apply Hs. simpl. tauto.
  - intros Hl. apply Hs in Hl. simpl in Hl.
    destruct Hl as [Hl | [Hl | []]]; discriminate.
Defined.


Lemma queues_and_topics_are_listed_once_witness :
  let listQueues := signed "POST" "/" (query_action "ListQueues" "2012-11-05") in
  let listing := {| data := Sandbox.list_queues (env Runs.populated) |} in
  @axios Runs.plain listQueues (env Runs.populated)
  = (inr listing, env Runs.populated)
  /\ opt_prop (opt_prop (data listing) "ListQueuesResult") "QueueUrl"
     = VArr [VStr Runs.jobs_queue]
  /\ exists w',
       @exportSQSState Runs.plain Runs.populated
       = (Ok (service_state "queues" (VArr [VStr Runs.jobs_queue]) (VNum 1)), w')
       /\ trace w' = (trace Runs.populated ++ [Requested listQueues true])%list.
Proof.
  intros listQueues listing.
  assert (H1 : @axios Runs.plain listQueues (env Runs.populated)
               = (inr listing, env Runs.populated))
    by (vm_compute; reflexivity).
  assert (H2 : opt_prop (opt_prop (data listing) "ListQueuesResult") "QueueUrl"
               = VArr [VStr Runs.jobs_queue])
    by (vm_compute; reflexivity).
  split; [exact H1 |]. split; [exact H2 |].
  destruct (proj1 (@queues_and_topics_are_listed_once Runs.plain Runs.populated))
    as (answered & state & w' & E & Ht & Hf & Hl).
  exists w'. rewrite E, Ht. rewrite (Hl _ _ _ H1 H2).
  split; [reflexivity |].
  destruct answered; [reflexivity |].
  specialize (Hf eq_refl). rewrite (Hl _ _ _ H1 H2) in Hf. discriminate.
Defined.


Lemma findings_come_from_the_host_witness :
  exists results w' w2,
    @detectEnvironment Workstation.platform Workstation.host "/srv/app"
      Scenes.at_work = (Ok results, w')
    /\ Results.dockerAvailable results = true
    /\ @ping Workstation.platform Workstation.host (env Scenes.at_work)
       = (inr tt, env Scenes.at_work)
    /\ @compose_search Workstation.platform Workstation.host "/srv/app"
         composeFiles Scenes.at_work true w2
    /\ Results.dockerComposeFound results = true
    /\ Results.locilStackContainer results
       = container_summary Scenes.emulator_container
    /\ Results.issues results = []
    /\ Results.networkMode results = "bridge".
Proof.
  let r := eval vm_compute in
        (@detectEnvironment Workstation.platform Workstation.host "/srv/app"
           Scenes.at_work) in
  lazymatch r with
  | (Ok ?results, ?w') =>
      assert (H : @detectEnvironment Workstation.platform Workstation.host
                    "/srv/app" Scenes.at_work = (Ok results, w'))
        by (vm_compute; reflexivity);
      assert (Ha : Results.dockerAvailable results = true) by reflexivity;
      destruct (@findings_come_from_the_host Workstation.platform
                  Workstation.host _ _ _ _ H Ha)
        as (e1 & w2 & e3 & e4 & Hp & Hs & _);
      exists results, w', w2;
      split; [exact H |]; split; [exact Ha |]
  end.
  assert (Hping : @ping Workstation.platform Workstation.host
                    (env Scenes.at_work) = (inr tt, env Scenes.at_work))
    by (vm_compute; reflexivity).
  split; [exact Hping |].
  rewrite Hping in Hp.
  assert (He : e1 = env Scenes.at_work) by (inversion Hp; reflexivity).
  subst e1.
  split; [exact Hs |].
  repeat split; reflexivity.
Defined.
